(** * Advanced-Vanilla-CRUD: the render pipeline and the record store

    A shallow embedding of [src/script.js].  The file holds two variants of
    the same application: variant 1 (lines 1-439, module [V1]) keeps its state
    in closure variables of the [DOMContentLoaded] handler; variant 2 (lines
    441-606, module [V2]) keeps one [state] object.  Both are modelled, each
    handler as a function on an explicit state record.

    Conventions.
    - JavaScript strings are modelled as [string]; [toLowerCase] and [trim]
      act on the ASCII repertoire.
    - Numbers that the code uses as counts, pages, clock readings and ids are
      integers well inside the exactly representable range, modelled as [Z].
    - [Date.now()], [Math.random()] and [confirm()] are inputs of the handler
      that calls them. *)

From Stdlib Require Import ZArith List Bool Ascii String Lia Permutation Sorted.
From stdpp Require Import gmap strings list.

Set Warnings "-register-all".

Local Open Scope Z_scope.

(** ** JavaScript strings *)

Module JsString.

Definition is_upper (c : ascii) : bool :=
  let n := nat_of_ascii c in (65 <=? n)%nat && (n <=? 90)%nat.

Definition lower_ascii (c : ascii) : ascii :=
  if is_upper c then ascii_of_nat (nat_of_ascii c + 32) else c.

(** [String.prototype.toLowerCase] *)
Fixpoint toLowerCase (s : string) : string :=
  match s with
  | EmptyString => EmptyString
  | String c s' => String (lower_ascii c) (toLowerCase s')
  end.

(** [String.prototype.includes]: is [q] a contiguous part of [s]? *)
Fixpoint includes (s q : string) : bool :=
  String.prefix q s ||
    match s with
  | EmptyString => false
  | String _ s' => includes s' q
  end.

(** White space and line terminators removed by [trim] (ASCII part). *)
Definition is_space (c : ascii) : bool :=
  let n := nat_of_ascii c in
  ((9 <=? n)%nat && (n <=? 13)%nat) || (n =? 32)%nat.

Fixpoint trimStart (s : string) : string :=
  match s with
  | EmptyString => EmptyString
  | String c s' => if is_space c then trimStart s' else s
  end.

Fixpoint trimEnd (s : string) : string :=
  match s with
  | EmptyString => EmptyString
  | String c s' =>
      match trimEnd s' with
      | EmptyString => if is_space c then EmptyString else String c EmptyString
      | t => String c t
      end
  end.

(** [String.prototype.trim] *)
Definition trim (s : string) : string := trimEnd (trimStart s).

(** Truthiness of a string: only the empty string is falsy. *)
Definition truthy (s : string) : bool :=
  match s with EmptyString => false | _ => true end.

(** The relational operator [<] on two strings: code-unit order. *)
Definition lt (a b : string) : bool := String.ltb a b.

End JsString.

(** ** JavaScript arrays and integer arithmetic *)

Module JsArray.

(** [Math.ceil(a / b)] for integers [a] and [b <> 0]. *)
Definition ceil_div (a b : Z) : Z := - ((- a) / b).

Section Ops.
Context {A : Type}.

(** How [Array.prototype.slice] resolves a relative index. *)
Definition rel_index (len k : Z) : Z :=
  if k <? 0 then Z.max (len + k) 0 else Z.min k len.

(** [l.slice(start, end)] *)
Definition slice (l : list A) (start end_ : Z) : list A :=
  let len := Z.of_nat (length l) in
  let k := rel_index len start in
  let final := rel_index len end_ in
  take (Z.to_nat (final - k)) (drop (Z.to_nat k) l).

(** [Array.prototype.sort(cmp)].  ECMAScript requires the sort to be
    stable; for a consistent comparator the result is then determined:
    it is the stably sorted permutation, computed here by insertion.
    A negative [cmp a b] puts [a] first, a positive one [b]. *)
Variable cmp : A -> A -> Z.

Fixpoint insert (x : A) (l : list A) : list A :=
  match l with
  | [] => [x]
  | y :: l' => if 0 <? cmp x y then y :: insert x l' else x :: y :: l'
  end.

Fixpoint sort (l : list A) : list A :=
  match l with
  | [] => []
  | x :: l' => insert x (sort l')
  end.

End Ops.

End JsArray.

(** ** Dates

    [Date.prototype.toISOString], following the day-number and time-value
    algorithms of ECMAScript (20.4.1). *)

Module JsDate.

Definition msPerDay : Z := 86400000.
Definition Day (t : Z) : Z := t / msPerDay.
Definition TimeWithinDay (t : Z) : Z := t mod msPerDay.

Definition DayFromYear (y : Z) : Z :=
  365 * (y - 1970) + (y - 1969) / 4 - (y - 1901) / 100 + (y - 1601) / 400.

Definition InLeapYear (y : Z) : bool :=
  (y mod 4 =? 0) && (negb (y mod 100 =? 0) || (y mod 400 =? 0)).

(** The largest [y] with [DayFromYear y <= d]: a linear estimate, then one
    step of adjustment either way. *)
Definition YearFromDay (d : Z) : Z :=
  let y := 1970 + (d * 400) / 146097 in
  if DayFromYear (y + 1) <=? d then y + 1
  else if DayFromYear y <=? d then y
  else y - 1.

Definition YearFromTime (t : Z) : Z := YearFromDay (Day t).
Definition DayWithinYear (t : Z) : Z := Day t - DayFromYear (YearFromTime t).

(** Month number, 0 for January. *)
Definition MonthFromTime (t : Z) : Z :=
  let d := DayWithinYear t in
  let k := if InLeapYear (YearFromTime t) then 1 else 0 in
  if d <? 31 then 0
  else if d <? 59 + k then 1
  else if d <? 90 + k then 2
  else if d <? 120 + k then 3
  else if d <? 151 + k then 4
  else if d <? 181 + k then 5
  else if d <? 212 + k then 6
  else if d <? 243 + k then 7
  else if d <? 273 + k then 8
  else if d <? 304 + k then 9
  else if d <? 334 + k then 10
  else 11.

Definition DateFromTime (t : Z) : Z :=
  let d := DayWithinYear t in
  let k := if InLeapYear (YearFromTime t) then 1 else 0 in
  match MonthFromTime t with
  | 0 => d + 1
  | 1 => d - 30
  | 2 => d - 58 - k
  | 3 => d - 89 - k
  | 4 => d - 119 - k
  | 5 => d - 150 - k
  | 6 => d - 180 - k
  | 7 => d - 211 - k
  | 8 => d - 242 - k
  | 9 => d - 272 - k
  | 10 => d - 303 - k
  | _ => d - 333 - k
  end.

Definition HourFromTime (t : Z) : Z := TimeWithinDay t / 3600000.
Definition MinFromTime (t : Z) : Z := (TimeWithinDay t / 60000) mod 60.
Definition SecFromTime (t : Z) : Z := (TimeWithinDay t / 1000) mod 60.
Definition msFromTime (t : Z) : Z := TimeWithinDay t mod 1000.

Definition digit (n : Z) : ascii := ascii_of_nat (48 + Z.to_nat n).

(** The [w] low decimal digits of [n], most significant first. *)
Fixpoint pad (w : nat) (n : Z) : string :=
  match w with
  | O => EmptyString
  | S w' => String (digit ((n / 10 ^ Z.of_nat w') mod 10)) (pad w' n)
  end.

Definition year_string (y : Z) : string :=
  if (0 <=? y) && (y <=? 9999) then pad 4 y
  else ((if y <? 0 then "-" else "+") +:+ pad 6 (Z.abs y)).

Definition toISOString (t : Z) : string :=
  year_string (YearFromTime t) +:+ "-" +:+ pad 2 (MonthFromTime t + 1) +:+ "-" +:+
    pad 2 (DateFromTime t) +:+ "T" +:+ pad 2 (HourFromTime t) +:+ ":" +:+
    pad 2 (MinFromTime t) +:+ ":" +:+ pad 2 (SecFromTime t) +:+ "." +:+
    pad 3 (msFromTime t) +:+ "Z".

End JsDate.

(** ** Values read off an object by a computed key *)

Inductive jsval :=
| JUndefined
| JNumber (n : Z)
| JString (s : string).

(** The relational operator [<].  The two operands of every comparison in
    the program are the same field of two records, hence of one type; a
    comparison with [undefined] is false. *)
Definition js_lt (a b : jsval) : bool :=
  match a, b with
  | JString x, JString y => JsString.lt x y
  | JNumber x, JNumber y => x <? y
  | _, _ => false
  end.

(** [s.split(sep)] for a one-character separator. *)
Fixpoint split (sep : ascii) (s : string) : list string :=
  match s with
  | EmptyString => [EmptyString]
  | String c s' =>
      if Ascii.eqb c sep then EmptyString :: split sep s'
      else match split sep s' with
           | h :: t => String c h :: t
           | [] => [String c EmptyString]
           end
  end.

(** Destructuring [const [key, dir] = s.split(':')]: a missing second
    component is [undefined]. *)
Definition split_sort (s : string) : string * option string :=
  match split ":" s with
  | k :: d :: _ => (k, Some d)
  | k :: [] => (k, None)
  | [] => (EmptyString, None)
  end.

Definition is_asc (dir : option string) : bool :=
  match dir with
  | Some d => String.eqb d "asc"
  | None => false
  end.

(** ** Regular expressions, matched by derivatives *)

Module Regex.

Inductive regex :=
| Void
| Eps
| Class (p : ascii -> bool)
| Seq (r1 r2 : regex)
| Alt (r1 r2 : regex)
| Star (r : regex).

Definition Plus (r : regex) : regex := Seq r (Star r).

Fixpoint nullable (r : regex) : bool :=
  match r with
  | Void => false
  | Eps => true
  | Class _ => false
  | Seq r1 r2 => nullable r1 && nullable r2
  | Alt r1 r2 => nullable r1 || nullable r2
  | Star _ => true
  end.

Fixpoint deriv (c : ascii) (r : regex) : regex :=
  match r with
  | Void => Void
  | Eps => Void
  | Class p => if p c then Eps else Void
  | Seq r1 r2 =>
      if nullable r1 then Alt (Seq (deriv c r1) r2) (deriv c r2)
      else Seq (deriv c r1) r2
  | Alt r1 r2 => Alt (deriv c r1) (deriv c r2)
  | Star r' => Seq (deriv c r') (Star r')
  end.

(** [/^r$/.test(s)] *)
Fixpoint test (r : regex) (s : string) : bool :=
  match s with
  | EmptyString => nullable r
  | String c s' => test (deriv c r) s'
  end.

Definition chr (a : ascii) : regex := Class (Ascii.eqb a).

End Regex.

(** ** JSON texts

    [JSON.parse] on the grammar of ECMA-404.  A string value is kept as its
    sequence of code units; a number as mantissa and decimal exponent. *)

Module Json.

Inductive value :=
| Null
| Bool (b : bool)
| Num (mantissa exponent : Z)
| Str (units : list N)
| Arr (elements : list value)
| Obj (members : list (list N * value)).

(** [ToBoolean]: what [v || ...] and [if (v)] test. *)
Definition truthy (v : value) : bool :=
  match v with
  | Null => false
  | Bool b => b
  | Num m _ => negb (m =? 0)
  | Str u => match u with [] => false | _ => true end
  | Arr _ => true
  | Obj _ => true
  end.

Definition dquote : ascii := "034"%char.

Definition is_ws (c : ascii) : bool :=
  let n := nat_of_ascii c in
  (n =? 32)%nat || (n =? 9)%nat || (n =? 10)%nat || (n =? 13)%nat.

Definition is_digit (c : ascii) : bool :=
  let n := nat_of_ascii c in (48 <=? n)%nat && (n <=? 57)%nat.

Fixpoint skip_ws (s : list ascii) : list ascii :=
  match s with
  | c :: s' => if is_ws c then skip_ws s' else s
  | [] => []
  end.

(** The rest of [s] after the literal [lit], if [s] starts with it. *)
Fixpoint expect (lit s : list ascii) : option (list ascii) :=
  match lit, s with
  | [], _ => Some s
  | a :: lit', c :: s' => if Ascii.eqb a c then expect lit' s' else None
  | _ :: _, [] => None
  end.

Fixpoint span_digits (s : list ascii) : list ascii * list ascii :=
  match s with
  | c :: s' =>
      if is_digit c then let '(ds, r) := span_digits s' in (c :: ds, r)
      else ([], s)
  | [] => ([], [])
  end.

Definition digits_value (ds : list ascii) : Z :=
  fold_left (fun a c => 10 * a + (Z.of_nat (nat_of_ascii c) - 48)) ds 0.

Definition hex_value (c : ascii) : option N :=
  let n := N_of_ascii c in
  if (48 <=? n)%N && (n <=? 57)%N then Some (n - 48)%N
  else if (65 <=? n)%N && (n <=? 70)%N then Some (n - 55)%N
  else if (97 <=? n)%N && (n <=? 102)%N then Some (n - 87)%N
  else None.

(** A number: an optional minus sign; an integer part that is 0 or starts
    with a non-zero digit; an optional fraction; an optional exponent. *)
Definition parse_number (s : list ascii) : option (value * list ascii) :=
  let '(neg, s1) :=
    match s with
    | c :: r => if Ascii.eqb c "-" then (true, r) else (false, s)
    | [] => (false, s)
    end in
  let '(ip, s2) := span_digits s1 in
  let int_ok :=
    match ip with
    | [] => false
    | c :: [] => true
    | c :: _ :: _ => negb (Ascii.eqb c "0")
    end in
  if negb int_ok then None
  else
    let frac :=
      match s2 with
      | c :: r =>
          if Ascii.eqb c "." then
            let '(fp, s3) := span_digits r in
            match fp with [] => None | _ => Some (fp, s3) end
          else Some ([], s2)
      | [] => Some ([], s2)
      end in
    match frac with
    | None => None
    | Some (fp, s3) =>
        let expo :=
          match s3 with
          | c :: r =>
              if Ascii.eqb c "e" || Ascii.eqb c "E" then
                let '(eneg, r') :=
                  match r with
                  | d :: r0 =>
                      if Ascii.eqb d "-" then (true, r0)
                      else if Ascii.eqb d "+" then (false, r0)
                      else (false, r)
                  | [] => (false, r)
                  end in
                let '(ep, s4) := span_digits r' in
                match ep with
                | [] => None
                | _ => Some ((if eneg then - digits_value ep else digits_value ep), s4)
                end
              else Some (0, s3)
          | [] => Some (0, s3)
          end in
        match expo with
        | None => None
        | Some (e, s4) =>
            let m := digits_value (ip ++ fp) in
            Some (Num (if neg then - m else m) (e - Z.of_nat (length fp)), s4)
        end
    end.

(** The characters of a string after its opening quote. *)
Fixpoint parse_chars (s : list ascii) : option (list N * list ascii) :=
  match s with
  | [] => None
  | c :: r =>
      if Ascii.eqb c dquote then Some ([], r)
      else if Ascii.eqb c "\" then
        match r with
        | e :: r1 =>
            let simple (u : N) :=
              match parse_chars r1 with
              | Some (us, r') => Some (u :: us, r')
              | None => None
              end in
            if Ascii.eqb e dquote then simple 34%N
            else if Ascii.eqb e "\" then simple 92%N
            else if Ascii.eqb e "/" then simple 47%N
            else if Ascii.eqb e "b" then simple 8%N
            else if Ascii.eqb e "f" then simple 12%N
            else if Ascii.eqb e "n" then simple 10%N
            else if Ascii.eqb e "r" then simple 13%N
            else if Ascii.eqb e "t" then simple 9%N
            else if Ascii.eqb e "u" then
              match r1 with
              | h1 :: h2 :: h3 :: h4 :: r2 =>
                  match hex_value h1, hex_value h2, hex_value h3, hex_value h4 with
                  | Some a, Some b, Some c', Some d =>
                      match parse_chars r2 with
                      | Some (us, r') => Some ((4096 * a + 256 * b + 16 * c' + d)%N :: us, r')
                      | None => None
                      end
                  | _, _, _, _ => None
                  end
              | _ => None
              end
            else None
        | [] => None
        end
      else if (N_of_ascii c <? 32)%N then None
      else
        match parse_chars r with
        | Some (us, r') => Some (N_of_ascii c :: us, r')
        | None => None
        end
  end.

(** A value, after optional white space.  [fuel] bounds the nesting of
    calls. *)
Fixpoint parse_value (fuel : nat) (s : list ascii) {struct fuel}
    : option (value * list ascii) :=
  match fuel with
  | O => None
  | S fuel' =>
      match skip_ws s with
      | [] => None
      | c :: r =>
          if Ascii.eqb c "n" then option_map (pair Null) (expect ["u";"l";"l"]%char r)
          else if Ascii.eqb c "t" then option_map (pair (Bool true)) (expect ["r";"u";"e"]%char r)
          else if Ascii.eqb c "f" then
            option_map (pair (Bool false)) (expect ["a";"l";"s";"e"]%char r)
          else if Ascii.eqb c dquote then
            match parse_chars r with
            | Some (us, r') => Some (Str us, r')
            | None => None
            end
          else if Ascii.eqb c "[" then
            match skip_ws r with
            | d :: r' =>
                if Ascii.eqb d "]" then Some (Arr [], r')
                else match parse_elements fuel' r with
                     | Some (vs, r'') => Some (Arr vs, r'')
                     | None => None
                     end
            | [] => None
            end
          else if Ascii.eqb c "{" then
            match skip_ws r with
            | d :: r' =>
                if Ascii.eqb d "}" then Some (Obj [], r')
                else match parse_members fuel' r with
                     | Some (ms, r'') => Some (Obj ms, r'')
                     | None => None
                     end
            | [] => None
            end
          else if Ascii.eqb c "-" || is_digit c then parse_number (c :: r)
          else None
      end
  end

with parse_elements (fuel : nat) (s : list ascii) {struct fuel}
    : option (list value * list ascii) :=
  match fuel with
  | O => None
  | S fuel' =>
      match parse_value fuel' s with
      | Some (v, r) =>
          match skip_ws r with
          | c :: r' =>
              if Ascii.eqb c "," then
                match parse_elements fuel' r' with
                | Some (vs, r'') => Some (v :: vs, r'')
                | None => None
                end
              else if Ascii.eqb c "]" then Some ([v], r')
              else None
          | [] => None
          end
      | None => None
      end
  end

with parse_members (fuel : nat) (s : list ascii) {struct fuel}
    : option (list (list N * value) * list ascii) :=
  match fuel with
  | O => None
  | S fuel' =>
      match skip_ws s with
      | q :: r0 =>
          if Ascii.eqb q dquote then
            match parse_chars r0 with
            | Some (k, r1) =>
                match skip_ws r1 with
                | c :: r2 =>
                    if Ascii.eqb c ":" then
                      match parse_value fuel' r2 with
                      | Some (v, r3) =>
                          match skip_ws r3 with
                          | d :: r4 =>
                              if Ascii.eqb d "," then
                                match parse_members fuel' r4 with
                                | Some (ms, r5) => Some ((k, v) :: ms, r5)
                                | None => None
                                end
                              else if Ascii.eqb d "}" then Some ([(k, v)], r4)
                              else None
                          | [] => None
                          end
                      | None => None
                      end
                    else None
                | [] => None
                end
            | None => None
            end
          else None
      | [] => None
      end
  end.

(** [JSON.parse(text)]; [None] stands for the [SyntaxError] it throws. *)
Definition parse (text : string) : option value :=
  let s := list_ascii_of_string text in
  match parse_value (2 * length s + 2) s with
  | Some (v, r) => match skip_ws r with [] => Some v | _ :: _ => None end
  | None => None
  end.

End Json.

(** Writing a JSON text with apostrophes for its quotation marks. *)
Fixpoint dq (s : string) : string :=
  match s with
  | EmptyString => EmptyString
  | String c s' => String (if Ascii.eqb c "'" then Json.dquote else c) (dq s')
  end.

(** ** Exceptions

    The result of evaluating an expression that may throw, and
    [try { body } catch (e) { handler }]. *)

Inductive outcome (A : Type) :=
| Returned (a : A)
| Thrown.
Arguments Returned {A} a.
Arguments Thrown {A}.

Definition try_catch {A : Type} (body handler : outcome A) : outcome A :=
  match body with
  | Thrown => handler
  | Returned a => Returned a
  end.

(** ** Numbers as text *)

Module JsNumber.

Fixpoint digits10 (fuel : nat) (n : Z) (acc : string) : string :=
  match fuel with
  | O => acc
  | S fuel' =>
      let acc' := String (JsDate.digit (n mod 10)) acc in
      if n / 10 =? 0 then acc' else digits10 fuel' (n / 10) acc'
  end.

(** [String(n)] for an integer [n] below [10^21] in absolute value, where
    JavaScript writes all the digits. *)
Definition toString (n : Z) : string :=
  if n <? 0 then "-" +:+ digits10 (S (Z.to_nat (Z.log2 (- n)))) (- n) EmptyString
  else digits10 (S (Z.to_nat (Z.log2 n))) n EmptyString.

End JsNumber.

(** ** Text of the CSV export and of the markup *)

Module JsText.

Definition dquote : ascii := "034"%char.
Definition newline : ascii := "010"%char.

(** [l.join(sep)] *)
Fixpoint join (sep : string) (l : list string) : string :=
  match l with
  | [] => EmptyString
  | x :: l' =>
      match l' with
      | [] => x
      | _ :: _ => x +:+ sep +:+ join sep l'
      end
  end.

(** [s.replace(/\x22/g, ...)] with two quotation marks as replacement. *)
Fixpoint doubleQuotes (s : string) : string :=
  match s with
  | EmptyString => EmptyString
  | String c s' =>
      if Ascii.eqb c dquote then String dquote (String dquote (doubleQuotes s'))
      else String c (doubleQuotes s')
  end.

(** The cell expression of both export functions (lines 336 and 527): the
    text between quotation marks, its own quotation marks doubled. *)
Definition quoteCell (cell : string) : string :=
  String dquote (doubleQuotes cell +:+ String dquote EmptyString).

(** One row: the quoted cells joined by commas. *)
Definition quoteRow (cells : list string) : string :=
  join "," (map quoteCell cells).

End JsText.

(** ** Variant 1 (script.js, lines 1-439) *)

Module V1.

Import JsString JsArray.

(** A stored user.  [id] is a [Date.now()] reading, [createdAt] the
    result of [toISOString]. *)
Record User := mkUser {
  id : Z;
  name : string;
  email : string;
  role : string;
  createdAt : string
}.

(** The closure variables of section 2 of the script, and the successive
    payloads handed to [localStorage.setItem], newest first. *)
Record State := mkState {
  users : list User;
  currentPage : Z;
  perPage : Z;
  sortBy : string;
  searchQuery : string;
  editingUserId : option Z;
  selectedIds : gset Z;
  saved : list (list User)
}.

Definition set_users (us : list User) (st : State) : State :=
  mkState us (currentPage st) (perPage st) (sortBy st) (searchQuery st)
          (editingUserId st) (selectedIds st) (saved st).
Definition set_currentPage (p : Z) (st : State) : State :=
  mkState (users st) p (perPage st) (sortBy st) (searchQuery st)
          (editingUserId st) (selectedIds st) (saved st).
Definition set_perPage (n : Z) (st : State) : State :=
  mkState (users st) (currentPage st) n (sortBy st) (searchQuery st)
          (editingUserId st) (selectedIds st) (saved st).
Definition set_sortBy (s : string) (st : State) : State :=
  mkState (users st) (currentPage st) (perPage st) s (searchQuery st)
          (editingUserId st) (selectedIds st) (saved st).
Definition set_searchQuery (q : string) (st : State) : State :=
  mkState (users st) (currentPage st) (perPage st) (sortBy st) q
          (editingUserId st) (selectedIds st) (saved st).
Definition set_editingUserId (e : option Z) (st : State) : State :=
  mkState (users st) (currentPage st) (perPage st) (sortBy st) (searchQuery st)
          e (selectedIds st) (saved st).
Definition set_selectedIds (s : gset Z) (st : State) : State :=
  mkState (users st) (currentPage st) (perPage st) (sortBy st) (searchQuery st)
          (editingUserId st) s (saved st).

(** Line 54: [JSON.parse(localStorage.getItem('crud_users')) || []].
    [item] is the result of [getItem], [None] for [null]; [JSON.parse]
    turns its argument into a string first, so [null] reads as the text
    [null].  A [SyntaxError] of [JSON.parse] is not caught. *)
Definition loadUsers (JSON_parse : string -> option Json.value) (item : option string)
    : outcome Json.value :=
  match JSON_parse (match item with Some raw => raw | None => "null" end) with
  | Some v => Returned (if Json.truthy v then v else Json.Arr [])
  | None => Thrown
  end.

(** [saveToLocalStorage] *)
Definition saveToLocalStorage (st : State) : State :=
  mkState (users st) (currentPage st) (perPage st) (sortBy st) (searchQuery st)
          (editingUserId st) (selectedIds st) (users st :: saved st).

(** *** render *)

(** Step 1, the predicate of [users.filter] (lines 83-86). *)
Definition matches (searchQuery : string) (user : User) : bool :=
  includes (toLowerCase (name user)) (toLowerCase searchQuery) ||
  includes (toLowerCase (email user)) (toLowerCase searchQuery).

(** [a[sortKey]]; a key that names no field reads as [undefined]. *)
Definition prop (key : string) (u : User) : jsval :=
  if String.eqb key "id" then JNumber (id u)
  else if String.eqb key "name" then JString (name u)
  else if String.eqb key "email" then JString (email u)
  else if String.eqb key "role" then JString (role u)
  else if String.eqb key "createdAt" then JString (createdAt u)
  else JUndefined.

Definition lower_val (v : jsval) : jsval :=
  match v with
  | JString s => JString (toLowerCase s)
  | _ => v
  end.

(** Step 2, the comparator handed to [sort] (lines 90-102). *)
Definition compareUsers (sortKey : string) (sortOrder : option string) (a b : User) : Z :=
  let valA := prop sortKey a in
  let valB := prop sortKey b in
  let '(valA, valB) :=
    match valA with
    | JString _ => (lower_val valA, lower_val valB)
    | _ => (valA, valB)
    end in
  if js_lt valA valB then (if is_asc sortOrder then -1 else 1)
  else if js_lt valB valA then (if is_asc sortOrder then 1 else -1)
  else 0.

Definition filterAndSort (st : State) : list User :=
  let filteredUsers := List.filter (matches (searchQuery st)) (users st) in
  let '(sortKey, sortOrder) := split_sort (sortBy st) in
  sort (compareUsers sortKey sortOrder) filteredUsers.

(** What [render] writes to the page. *)
Record View := mkView {
  filteredUsers : list User;
  totalPages : Z;
  paginatedUsers : list User;
  countText : Z;
  pageText : Z;
  prevDisabled : bool;
  nextDisabled : bool;
  selectAllChecked : bool
}.

Definition render (st : State) : View :=
  let filteredUsers := filterAndSort st in
  (* step 3 *)
  let totalPages := ceil_div (Z.of_nat (length filteredUsers)) (perPage st) in
  let start := (currentPage st - 1) * perPage st in
  let end_ := start + perPage st in
  let paginatedUsers := slice filteredUsers start end_ in
  (* step 5 *)
  {| filteredUsers := filteredUsers;
     totalPages := totalPages;
     paginatedUsers := paginatedUsers;
     countText := Z.of_nat (length filteredUsers);
     pageText := currentPage st;
     prevDisabled := currentPage st =? 1;
     nextDisabled := totalPages <=? currentPage st;
     selectAllChecked :=
       forallb (fun user => bool_decide (id user ∈ selectedIds st)) paginatedUsers
       && (0 <? Z.of_nat (length paginatedUsers)) |}.

(** The rows of [listBody] are those of the last [render]; every handler
    that changes a variable read by [render] calls it, so the ids carried
    by the row checkboxes are those of the page of the current state. *)
Definition idsOnPage (st : State) : list Z := map id (paginatedUsers (render st)).

(** *** Event handlers *)

Inductive Event :=
| Submit (nameInput emailInput roleSelect : string) (now now' : Z)
| SearchInput (value : string)
| PerPageChange (value : Z)
| SortByChange (value : string)
| PrevClick
| NextClick
| DeleteClick (id : Z) (confirmed : bool)
| EditClick (id : Z)
| CopyClick (id : Z) (now now' : Z)
| EditSubmit (editName editEmail editRole : string)
| CloseModal
| SelectAllChange (checked : bool)
| RowCheckboxChange (id : Z) (checked : bool)
| BulkDeleteClick (confirmed : bool)
| ClearAllClick (confirmed : bool).

(** Lines 160-173.  [now] is the reading of [Date.now()], [now'] that of
    [new Date()]. *)
Definition onSubmit (nameInput emailInput roleSelect : string) (now now' : Z)
    (st : State) : State :=
  let newUser :=
    {| id := now;
       name := trim nameInput;
       email := trim emailInput;
       role := roleSelect;
       createdAt := JsDate.toISOString now' |} in
  saveToLocalStorage (set_users (newUser :: users st) st).

(** Lines 180-195. *)
Definition onSearchInput (value : string) (st : State) : State :=
  set_currentPage 1 (set_searchQuery value st).

Definition onPerPageChange (value : Z) (st : State) : State :=
  set_currentPage 1 (set_perPage value st).

Definition onSortByChange (value : string) (st : State) : State :=
  set_sortBy value st.

(** Lines 198-211. *)
Definition onPrev (st : State) : State :=
  if 1 <? currentPage st then set_currentPage (currentPage st - 1) st else st.

Definition nextTotalPages (st : State) : Z :=
  ceil_div
    (Z.of_nat (length (List.filter
       (fun u => includes (toLowerCase (name u)) (toLowerCase (searchQuery st)))
       (users st))))
    (perPage st).

Definition onNext (st : State) : State :=
  let totalPages := nextTotalPages st in
  if currentPage st <? totalPages then set_currentPage (currentPage st + 1) st else st.

(** Lines 221-228. *)
Definition onDelete (i : Z) (confirmed : bool) (st : State) : State :=
  if confirmed then
    let st := set_users (List.filter (fun user => negb (id user =? i)) (users st)) st in
    let st := set_selectedIds (selectedIds st ∖ {[ i ]}) st in
    saveToLocalStorage st
  else st.

(** Lines 230-240. *)
Definition onEdit (i : Z) (st : State) : State := set_editingUserId (Some i) st.

(** Lines 242-250. *)
Definition onCopy (i : Z) (now now' : Z) (st : State) : State :=
  match List.find (fun u => id u =? i) (users st) with
  | Some user =>
      let copiedUser :=
        {| id := now;
           name := name user;
           email := email user;
           role := role user;
           createdAt := JsDate.toISOString now' |} in
      saveToLocalStorage (set_users (copiedUser :: users st) st)
  | None => st
  end.

(** [users[userIndex].name = ...] on the first user with the edited id. *)
Fixpoint updateFirst (i : Z) (editName editEmail editRole : string)
    (us : list User) : option (list User) :=
  match us with
  | [] => None
  | u :: us' =>
      if id u =? i then
        Some ({| id := id u; name := trim editName; email := trim editEmail;
                 role := editRole; createdAt := createdAt u |} :: us')
      else option_map (cons u) (updateFirst i editName editEmail editRole us')
  end.

Definition closeModal (st : State) : State := set_editingUserId None st.

(** Lines 254-265. *)
Definition onEditSubmit (editName editEmail editRole : string) (st : State) : State :=
  match editingUserId st with
  | Some i =>
      match updateFirst i editName editEmail editRole (users st) with
      | Some us => closeModal (saveToLocalStorage (set_users us st))
      | None => st
      end
  | None => st
  end.

(** Lines 275-301. *)
Definition onSelectAll (checked : bool) (st : State) : State :=
  let ids : gset Z := list_to_set (idsOnPage st) in
  set_selectedIds (if checked then selectedIds st ∪ ids else selectedIds st ∖ ids) st.

Definition onRowCheckbox (i : Z) (checked : bool) (st : State) : State :=
  set_selectedIds (if checked then selectedIds st ∪ {[ i ]} else selectedIds st ∖ {[ i ]}) st.

(** Lines 303-315. *)
Definition onBulkDelete (confirmed : bool) (st : State) : State :=
  if bool_decide (size (selectedIds st) = 0%nat) then st
  else if confirmed then
    let sel := selectedIds st in
    let st := set_users (List.filter (fun user => negb (bool_decide (id user ∈ sel)))
                                     (users st)) st in
    let st := set_selectedIds ∅ st in
    let st := saveToLocalStorage st in
    set_currentPage 1 st
  else st.

(** Lines 318-325. *)
Definition onClearAll (confirmed : bool) (st : State) : State :=
  if confirmed then saveToLocalStorage (set_selectedIds ∅ (set_users [] st))
  else st.

Definition handle (e : Event) (st : State) : State :=
  match e with
  | Submit n m r now now' => onSubmit n m r now now' st
  | SearchInput v => onSearchInput v st
  | PerPageChange v => onPerPageChange v st
  | SortByChange v => onSortByChange v st
  | PrevClick => onPrev st
  | NextClick => onNext st
  | DeleteClick i c => onDelete i c st
  | EditClick i => onEdit i st
  | CopyClick i now now' => onCopy i now now' st
  | EditSubmit n m r => onEditSubmit n m r st
  | CloseModal => closeModal st
  | SelectAllChange c => onSelectAll c st
  | RowCheckboxChange i c => onRowCheckbox i c st
  | BulkDeleteClick c => onBulkDelete c st
  | ClearAllClick c => onClearAll c st
  end.

(** The state after a sequence of events, oldest first. *)
Definition run (es : list Event) (st : State) : State :=
  fold_left (fun s e => handle e s) es st.

(** The state at the end of [DOMContentLoaded], given the loaded users and
    the values of the two select elements. *)
Definition init (loaded : list User) (perPageValue : Z) (sortByValue : string) : State :=
  {| users := loaded; currentPage := 1; perPage := perPageValue;
     sortBy := sortByValue; searchQuery := EmptyString; editingUserId := None;
     selectedIds := ∅; saved := [] |}.

(** *** CSV export (lines 327-350) *)

Definition headers : list string := ["id"; "name"; "email"; "role"; "createdAt"].

(** [headers.map(header => String(user[header]))] *)
Definition cells (user : User) : list string :=
  [JsNumber.toString (id user); name user; email user; role user; createdAt user].

(** The content of the file offered for download; [None] when the handler
    raises its alert and returns instead. *)
Definition exportCsv (st : State) : option string :=
  match users st with
  | [] => None
  | _ :: _ =>
      let csvContent := JsText.join "," headers +:+ String JsText.newline EmptyString in
      let csvRows := map (fun user => JsText.quoteRow (cells user)) (users st) in
      Some (csvContent +:+ JsText.join (String JsText.newline EmptyString) csvRows)
  end.

End V1.

(** ** Variant 2 (script.js, lines 441-606) *)

Module V2.

Import JsString JsArray.

(** [Number.prototype.toString(36)] on an integer. *)
Definition digit36 (n : Z) : ascii :=
  if n <? 10 then ascii_of_nat (48 + Z.to_nat n) else ascii_of_nat (87 + Z.to_nat n).

Fixpoint digits36 (fuel : nat) (n : Z) (acc : string) : string :=
  match fuel with
  | O => acc
  | S fuel' =>
      let acc' := String (digit36 (n mod 36)) acc in
      if n / 36 =? 0 then acc' else digits36 fuel' (n / 36) acc'
  end.

Definition toString36 (n : Z) : string :=
  if n <? 0 then "-" +:+ digits36 (S (Z.to_nat (Z.log2 (- n)))) (- n) EmptyString
  else digits36 (S (Z.to_nat (Z.log2 n))) n EmptyString.

(** [uid()] (line 445).  [now] is the reading of [Date.now()] and [rnd]
    the text of [Math.random().toString(36)]. *)
Definition uid (now : Z) (rnd : string) : string :=
  toString36 now +:+ String.substring 2 6 rnd.

Record Item := mkItem {
  id : string;
  name : string;
  email : string;
  role : string;
  createdAt : Z
}.

(** The [state] object, the closure variable [editingId], and the
    successive payloads handed to [localStorage.setItem], newest first.
    [perPage] holds the number its menu entry denotes. *)
Record State := mkState {
  items : list Item;
  page : Z;
  perPage : Z;
  query : string;
  sort : string;
  selected : gset string;
  editingId : option string;
  saved : list (list Item)
}.

Definition set_items (l : list Item) (st : State) : State :=
  mkState l (page st) (perPage st) (query st) (sort st) (selected st) (editingId st) (saved st).
Definition set_page (p : Z) (st : State) : State :=
  mkState (items st) p (perPage st) (query st) (sort st) (selected st) (editingId st) (saved st).
Definition set_perPage (n : Z) (st : State) : State :=
  mkState (items st) (page st) n (query st) (sort st) (selected st) (editingId st) (saved st).
Definition set_query (q : string) (st : State) : State :=
  mkState (items st) (page st) (perPage st) q (sort st) (selected st) (editingId st) (saved st).
Definition set_sort (s : string) (st : State) : State :=
  mkState (items st) (page st) (perPage st) (query st) s (selected st) (editingId st) (saved st).
Definition set_selected (s : gset string) (st : State) : State :=
  mkState (items st) (page st) (perPage st) (query st) (sort st) s (editingId st) (saved st).
Definition set_editingId (e : option string) (st : State) : State :=
  mkState (items st) (page st) (perPage st) (query st) (sort st) (selected st) e (saved st).

(** [load()] (lines 447-450): the value it assigns to [state.items]. *)
Definition load (JSON_parse : string -> option Json.value) (item : option string)
    : outcome Json.value :=
  try_catch
    (match item with
     | Some raw =>
         if truthy raw then
           match JSON_parse raw with
           | Some v => Returned v
           | None => Thrown
           end
         else Returned (Json.Arr [])
     | None => Returned (Json.Arr [])
     end)
    (Returned (Json.Arr [])).

(** [save()] *)
Definition save (st : State) : State :=
  mkState (items st) (page st) (perPage st) (query st) (sort st) (selected st)
          (editingId st) (items st :: saved st).

(** [seedIfEmpty()] (lines 454-458); each triple holds the readings of
    [Date.now()] and [Math.random().toString(36)] inside [uid()] and the
    later reading of [Date.now()] for one demo item. *)
Definition seedIfEmpty (e1 e2 e3 : Z * string * Z) (st : State) : State :=
  if (0 <? length (items st))%nat then st
  else
    let mk (e : Z * string * Z) (n m r : string) (ago : Z) :=
      {| id := uid (fst (fst e)) (snd (fst e)); name := n; email := m; role := r;
         createdAt := snd e - ago |} in
    save (set_items
            [ mk e1 "Rahim" "rahim@example.com" "admin" 86400000;
              mk e2 "Karim" "karim@example.com" "user" 3600000;
              mk e3 "Tanu" "tanu@example.com" "guest" 100000 ] st).

(** *** queryAndSort (lines 463-473) *)

Definition keep (q : string) (it : Item) : bool :=
  if negb (truthy q) then true
  else includes (toLowerCase (name it)) q || includes (toLowerCase (email it)) q.

(** [(a[key] || '')] for a key other than [createdAt]. *)
Definition text (key : string) (it : Item) : string :=
  if String.eqb key "id" then id it
  else if String.eqb key "name" then name it
  else if String.eqb key "email" then email it
  else if String.eqb key "role" then role it
  else EmptyString.

Definition compareItems (key : string) (dir : option string) (a b : Item) : Z :=
  if String.eqb key "createdAt" then
    (if is_asc dir then createdAt a - createdAt b else createdAt b - createdAt a)
  else
    let A := toLowerCase (text key a) in
    let B := toLowerCase (text key b) in
    if lt A B then (if is_asc dir then -1 else 1)
    else if lt B A then (if is_asc dir then 1 else -1)
    else 0.

Definition queryAndSort (st : State) (items : list Item) : list Item :=
  let q := toLowerCase (trim (query st)) in
  let out := List.filter (keep q) items in
  let '(key, dir) := split_sort (sort st) in
  JsArray.sort (compareItems key dir) out.

(** *** render (lines 476-513) *)

Record View := mkView {
  total : Z;
  pages : Z;
  pageItems : list Item;
  countText : Z;
  pageText : Z;
  selectAllChecked : bool
}.

(** [render] writes the clamped page back into the state. *)
Definition render (st : State) : State * View :=
  let perPage := perPage st in
  let filtered := queryAndSort st (items st) in
  let total := Z.of_nat (length filtered) in
  let pages := Z.max 1 (ceil_div total perPage) in
  let st := if pages <? page st then set_page pages st else st in
  let start := (page st - 1) * perPage in
  let pageItems := slice filtered start (start + perPage) in
  (st,
   {| total := total;
      pages := pages;
      pageItems := pageItems;
      countText := total;
      pageText := page st;
      selectAllChecked :=
        (0 <? Z.of_nat (length pageItems))
        && forallb (fun i => bool_decide (id i ∈ selected st)) pageItems |}).

Definition rendered (st : State) : State := fst (render st).

(** The [data-id] of the rows of the last [render]. *)
Definition idsOnPage (st : State) : list string := map id (pageItems (snd (render st))).

(** *** Actions (lines 519-524) *)

Definition addItem (nameV emailV roleV : string) (now : Z) (rnd : string) (now' : Z)
    (st : State) : State :=
  let data := {| id := uid now rnd; name := nameV; email := emailV; role := roleV;
                 createdAt := now' |} in
  rendered (save (set_items (items st ++ [data]) st)).

(** [Object.assign(i, updates)] on the first item with the given id. *)
Fixpoint assignFirst (i : string) (nameV emailV roleV : string) (l : list Item)
    : option (list Item) :=
  match l with
  | [] => None
  | x :: l' =>
      if String.eqb (id x) i then
        Some ({| id := id x; name := nameV; email := emailV; role := roleV;
                 createdAt := createdAt x |} :: l')
      else option_map (cons x) (assignFirst i nameV emailV roleV l')
  end.

Definition updateItem (i : string) (nameV emailV roleV : string) (st : State) : State :=
  match assignFirst i nameV emailV roleV (items st) with
  | Some l => rendered (save (set_items l st))
  | None => st
  end.

Definition deleteItem (i : string) (st : State) : State :=
  let st := set_items (List.filter (fun x => negb (String.eqb (id x) i)) (items st)) st in
  let st := set_selected (selected st ∖ {[ i ]}) st in
  rendered (save st).

Definition bulkDelete (confirmed : bool) (st : State) : State :=
  if negb confirmed then st
  else
    let sel := selected st in
    let st := set_items (List.filter (fun x => negb (bool_decide (id x ∈ sel)))
                                     (items st)) st in
    let st := set_selected ∅ st in
    rendered (save st).

(** *** Event wiring (lines 530-606) *)

(** [/^[^@\s]+@[^@\s]+\.[^@\s]+$/] *)
Definition validateEmail (v : string) : bool :=
  let other := Regex.Class (fun c => negb (Ascii.eqb c "@") && negb (is_space c)) in
  Regex.test
    (Regex.Seq (Regex.Plus other)
      (Regex.Seq (Regex.chr "@")
        (Regex.Seq (Regex.Plus other)
          (Regex.Seq (Regex.chr ".") (Regex.Plus other)))))
    v.

Inductive Event :=
| Submit (nameValue emailValue roleValue : string) (now : Z) (rnd : string) (now' : Z)
| SearchInput (value : string)
| PerPageChange (value : Z)
| SortByChange (value : string)
| PrevClick
| NextClick
| DeleteClick (id : string) (confirmed : bool)
| EditClick (id : string)
| CopyClick (id : string)
| EditSubmit (editName editEmail editRole : string)
| CancelEdit
| SelectAllChange (checked : bool)
| RowCheckboxChange (id : string) (checked : bool)
| BulkDeleteClick (confirmed : bool)
| ClearAllClick (confirmed : bool).

(** Lines 547-552.  The second component tells whether the handler
    raised its alert. *)
Definition onSubmit (nameValue emailValue roleValue : string) (now : Z) (rnd : string)
    (now' : Z) (st : State) : State * bool :=
  let nv := trim nameValue in
  let ev := trim emailValue in
  if negb (truthy nv) || negb (validateEmail ev) then (st, true)
  else (addItem nv ev roleValue now rnd now' st, false).

(** Lines 556-558. *)
Definition onSearchInput (value : string) (st : State) : State :=
  rendered (set_page 1 (set_query value st)).

Definition onPerPageChange (value : Z) (st : State) : State :=
  rendered (set_page 1 (set_perPage value st)).

Definition onSortByChange (value : string) (st : State) : State :=
  rendered (set_sort value st).

(** Lines 560-561. *)
Definition onPrev (st : State) : State :=
  if 1 <? page st then rendered (set_page (page st - 1) st) else st.

Definition nextPages (st : State) : Z :=
  let total := Z.of_nat (length (queryAndSort st (items st))) in
  Z.max 1 (ceil_div total (perPage st)).

Definition onNext (st : State) : State :=
  if page st <? nextPages st then rendered (set_page (page st + 1) st) else st.

(** Line 564. *)
Definition onClearAll (confirmed : bool) (st : State) : State :=
  if negb confirmed then st
  else rendered (save (set_selected ∅ (set_items [] st))).

(** Lines 568-575.  A click whose row carries no id is ignored; the copy
    action writes to the clipboard and leaves the state alone. *)
Definition onDelete (i : string) (confirmed : bool) (st : State) : State :=
  if negb (truthy i) then st
  else if confirmed then deleteItem i st else st.

Definition openEdit (i : string) (st : State) : State :=
  match List.find (fun x => String.eqb (id x) i) (items st) with
  | Some _ => set_editingId (Some i) st
  | None => st
  end.

Definition onEdit (i : string) (st : State) : State :=
  if negb (truthy i) then st else openEdit i st.

Definition onCopy (i : string) (st : State) : State := st.

(** Lines 578-590. *)
Definition onRowCheckbox (i : string) (checked : bool) (st : State) : State :=
  rendered (set_selected (if checked then selected st ∪ {[ i ]} else selected st ∖ {[ i ]}) st).

Definition onSelectAll (checked : bool) (st : State) : State :=
  let ids : gset string := list_to_set (List.filter truthy (idsOnPage st)) in
  rendered (set_selected (if checked then selected st ∪ ids else selected st ∖ ids) st).

(** Lines 594-595. *)
Definition onCancelEdit (st : State) : State := set_editingId None st.

Definition onEditSubmit (editName editEmail editRole : string) (st : State) : State * bool :=
  match editingId st with
  | Some i =>
      if negb (truthy i) then (st, false)
      else if negb (truthy (trim editName)) || negb (validateEmail (trim editEmail))
      then (st, true)
      else (set_editingId None
              (updateItem i (trim editName) (trim editEmail) editRole st), false)
  | None => (st, false)
  end.

Definition handle (e : Event) (st : State) : State :=
  match e with
  | Submit n m r now rnd now' => fst (onSubmit n m r now rnd now' st)
  | SearchInput v => onSearchInput v st
  | PerPageChange v => onPerPageChange v st
  | SortByChange v => onSortByChange v st
  | PrevClick => onPrev st
  | NextClick => onNext st
  | DeleteClick i c => onDelete i c st
  | EditClick i => onEdit i st
  | CopyClick i => onCopy i st
  | EditSubmit n m r => fst (onEditSubmit n m r st)
  | CancelEdit => onCancelEdit st
  | SelectAllChange c => onSelectAll c st
  | RowCheckboxChange i c => onRowCheckbox i c st
  | BulkDeleteClick c => bulkDelete c st
  | ClearAllClick c => onClearAll c st
  end.

Definition run (es : list Event) (st : State) : State :=
  fold_left (fun s e => handle e s) es st.

(** The [state] object as declared on line 443, holding the loaded items. *)
Definition init (loaded : list Item) : State :=
  {| items := loaded; page := 1; perPage := 5; query := EmptyString;
     sort := "createdAt:desc"; selected := ∅; editingId := None; saved := [] |}.

(** *** escapeHtml (line 516) *)

Definition escapeChar (c : ascii) : string :=
  if Ascii.eqb c "&" then "&amp;"
  else if Ascii.eqb c "<" then "&lt;"
  else if Ascii.eqb c ">" then "&gt;"
  else if Ascii.eqb c JsText.dquote then "&quot;"
  else if Ascii.eqb c "'" then "&#39;"
  else String c EmptyString.

Fixpoint escapeHtml (s : string) : string :=
  match s with
  | EmptyString => EmptyString
  | String c s' => escapeChar c +:+ escapeHtml s'
  end.

(** *** CSV export (line 527) *)

(** A time value [new Date(t)] accepts; [toISOString] throws a [RangeError]
    on any other. *)
Definition validTime (t : Z) : bool := (-8640000000000000 <=? t) && (t <=? 8640000000000000).

(** The cells of one item, the last one failing on an invalid time. *)
Definition cells (i : Item) : outcome (list string) :=
  if validTime (createdAt i) then
    Returned [id i; name i; email i; role i; JsDate.toISOString (createdAt i)]
  else Thrown.

(** [state.items.map(i => [...])], stopping at the first failure. *)
Fixpoint itemRows (l : list Item) : outcome (list (list string)) :=
  match l with
  | [] => Returned []
  | i :: l' =>
      match cells i with
      | Returned r =>
          match itemRows l' with
          | Returned rs => Returned (r :: rs)
          | Thrown => Thrown
          end
      | Thrown => Thrown
      end
  end.

(** The content of the file offered for download. *)
Definition exportCSV (st : State) : outcome string :=
  match itemRows (items st) with
  | Returned rs =>
      let rows := ["id"; "name"; "email"; "role"; "createdAt"] :: rs in
      Returned (JsText.join (String JsText.newline EmptyString) (map JsText.quoteRow rows))
  | Thrown => Thrown
  end.

End V2.

(** ** Vocabulary of the properties *)

(** [q] occurs in [s] as a contiguous part. *)
Definition contains (s q : string) : Prop := exists a b, s = a +:+ q +:+ b.

(** [q] occurs in [s], letter case aside. *)
Definition contains_ci (s q : string) : Prop :=
  contains (JsString.toLowerCase s) (JsString.toLowerCase q).

Section Comparators.
Context {A : Type} (cmp : A -> A -> Z).

(** A consistent comparator, as ECMAScript asks of the argument of [sort]:
    swapping the arguments swaps the sign, and being not after is
    transitive. *)
Record consistent : Prop := {
  cmp_swap : forall a b, Z.sgn (cmp b a) = - Z.sgn (cmp a b);
  cmp_trans : forall a b c, cmp a b <= 0 -> cmp b c <= 0 -> cmp a c <= 0
}.

(** [tie x y]: the comparator does not tell [x] and [y] apart. *)
Definition tie (x y : A) : bool := cmp x y =? 0.

End Comparators.

Arguments cmp_swap {A cmp} _ a b.
Arguments cmp_trans {A cmp} _ a b c.

(** The comparator shape shared by the two sort steps: order by a key under
    a strict order, and swap the two outcomes unless the direction is
    ascending. *)
Definition by_key {A K : Type} (key : A -> K) (ltb : K -> K -> bool) (asc : bool)
    (a b : A) : Z :=
  if ltb (key a) (key b) then (if asc then -1 else 1)
  else if ltb (key b) (key a) then (if asc then 1 else -1)
  else 0.

(** The sort key of a record: the value the comparator of variant 1, and the
    text the comparator of variant 2, compares. *)
Definition V1_key (sortKey : string) (u : V1.User) : jsval :=
  V1.lower_val (V1.prop sortKey u).

Definition V2_key (key : string) (it : V2.Item) : string :=
  JsString.toLowerCase (V2.text key it).

(** ** Sample data *)

Definition rahim1 : V1.User :=
  {| V1.id := 1700000000000; V1.name := "Rahim"; V1.email := "rahim@example.com";
     V1.role := "admin"; V1.createdAt := "2023-11-14T22:13:20.000Z" |}.

Definition rahim2 : V2.Item :=
  {| V2.id := "lozf2gw04fzyo8"; V2.name := "Rahim"; V2.email := "rahim@example.com";
     V2.role := "admin"; V2.createdAt := 1700000000000 |}.

(** Six users whose names do not hold the text [example], while every email
    does. *)
Definition six_users : list V1.User :=
  map (fun n => {| V1.id := 1700000000000 + n; V1.name := "Rahim";
                   V1.email := "rahim@example.com"; V1.role := "user";
                   V1.createdAt := JsDate.toISOString (1700000000000 + n) |})
      [1; 2; 3; 4; 5; 6].

(** Twelve items created one second apart. *)
Definition twelve_items : list V2.Item :=
  map (fun n => {| V2.id := V2.uid (1700000000000 + 1000 * n) "0.4fzyo82mvyr";
                   V2.name := "Karim"; V2.email := "karim@example.com";
                   V2.role := "user"; V2.createdAt := 1700000000000 + 1000 * n |})
      [1; 2; 3; 4; 5; 6; 7; 8; 9; 10; 11; 12].

(** Two users created one millisecond apart, with names that differ in
    letter case only. *)
Definition early_user : V1.User :=
  {| V1.id := 1700000000000; V1.name := "karim"; V1.email := "k1@example.com";
     V1.role := "user"; V1.createdAt := JsDate.toISOString 1700000000000 |}.

Definition late_user : V1.User :=
  {| V1.id := 1700000000001; V1.name := "KARIM"; V1.email := "k2@example.com";
     V1.role := "user"; V1.createdAt := JsDate.toISOString 1700000000001 |}.

(** ** Minting ids *)

(** The ids of the live records. *)
Definition V1_ids (st : V1.State) : list Z := map V1.id (V1.users st).
Definition V2_ids (st : V2.State) : list string := map V2.id (V2.items st).





(** ** Orders *)

(** Lexicographic chaining of two comparisons. *)
Definition lexc (c rest : comparison) : comparison :=
  match c with
  | Eq => rest
  | _ => c
  end.

(** The number a comparator returns for an outcome of the key comparison:
    ascending puts the smaller key first, any other direction the greater. *)
Definition signed (asc : bool) (c : comparison) : Z :=
  match c with
  | Lt => if asc then -1 else 1
  | Gt => if asc then 1 else -1
  | Eq => 0
  end.

(** The first instant of the year 10000; [toISOString] writes the year of an
    earlier instant, from 1970 on, with four digits. *)
Definition year10000 : Z := 253402300800000.

(** ** The language of a regular expression *)

Inductive lang : Regex.regex -> string -> Prop :=
| lang_eps : lang Regex.Eps EmptyString
| lang_class (p : ascii -> bool) (c : ascii) :
    p c = true -> lang (Regex.Class p) (String c EmptyString)
| lang_seq (r1 r2 : Regex.regex) (s1 s2 : string) :
    lang r1 s1 -> lang r2 s2 -> lang (Regex.Seq r1 r2) (s1 +:+ s2)
| lang_alt_l (r1 r2 : Regex.regex) (s : string) :
    lang r1 s -> lang (Regex.Alt r1 r2) s
| lang_alt_r (r1 r2 : Regex.regex) (s : string) :
    lang r2 s -> lang (Regex.Alt r1 r2) s
| lang_star_nil (r : Regex.regex) : lang (Regex.Star r) EmptyString
| lang_star_cons (r : Regex.regex) (s1 s2 : string) :
    lang r s1 -> lang (Regex.Star r) s2 -> lang (Regex.Star r) (s1 +:+ s2).

(** Every character of [s] satisfies [p]. *)
Fixpoint all_chars (p : ascii -> bool) (s : string) : bool :=
  match s with
  | EmptyString => true
  | String c s' => p c && all_chars p s'
  end.

(** A non-empty run of characters other than the at sign and white space. *)
Definition email_part (s : string) : Prop :=
  s <> EmptyString /\
  all_chars (fun c => negb (Ascii.eqb c "@") && negb (JsString.is_space c)) s = true.

(** ** Reading the exported text back *)

Inductive csv_mode := StartCell | InCell | AfterQuote.

(** Put a character in front of the first cell of the first row. *)
Definition push_char (c : ascii) (r : option (list (list string))) : option (list (list string)) :=
  match r with
  | Some ((cell :: row) :: rows) => Some ((String c cell :: row) :: rows)
  | _ => None
  end.

(** Open a new cell in front of the first row. *)
Definition new_cell (r : option (list (list string))) : option (list (list string)) :=
  match r with
  | Some (row :: rows) => Some ((EmptyString :: row) :: rows)
  | _ => None
  end.

(** Open a new row in front of the rows. *)
Definition new_row (r : option (list (list string))) : option (list (list string)) :=
  match r with
  | Some rows => Some ([EmptyString] :: rows)
  | None => None
  end.

(** A reader of quoted CSV: every cell stands between quotation marks, a
    doubled quotation mark inside a cell stands for one, a comma after a
    cell starts the next cell and a line feed the next row. *)
Fixpoint csv_scan (mode : csv_mode) (s : string) : option (list (list string)) :=
  match s with
  | EmptyString =>
      match mode with
      | AfterQuote => Some [[EmptyString]]
      | _ => None
      end
  | String c s' =>
      match mode with
      | StartCell => if Ascii.eqb c JsText.dquote then csv_scan InCell s' else None
      | InCell =>
          if Ascii.eqb c JsText.dquote then csv_scan AfterQuote s'
          else push_char c (csv_scan InCell s')
      | AfterQuote =>
          if Ascii.eqb c JsText.dquote then push_char c (csv_scan InCell s')
          else if Ascii.eqb c "," then new_cell (csv_scan StartCell s')
          else if Ascii.eqb c JsText.newline then new_row (csv_scan StartCell s')
          else None
      end
  end.

Definition csv_decode (s : string) : option (list (list string)) :=
  match s with
  | EmptyString => Some []
  | _ => csv_scan StartCell s
  end.

(** Does [s] start with the literal [lit]? *)
Fixpoint starts (lit s : string) : bool :=
  match lit with
  | EmptyString => true
  | String a lit' =>
      match s with
      | EmptyString => false
      | String c s' => Ascii.eqb a c && starts lit' s'
      end
  end.

(** The text a browser shows for markup: the five entities of [escapeHtml]
    read back as the characters they stand for.  [skip] characters are
    passed over first. *)
Fixpoint unescape (skip : nat) (s : string) : string :=
  match s with
  | EmptyString => EmptyString
  | String c s' =>
      match skip with
      | S k => unescape k s'
      | O =>
          if starts "&amp;" s then String "&" (unescape 4 s')
          else if starts "&lt;" s then String "<" (unescape 3 s')
          else if starts "&gt;" s then String ">" (unescape 3 s')
          else if starts "&quot;" s then String JsText.dquote (unescape 5 s')
          else if starts "&#39;" s then String "'" (unescape 4 s')
          else String c (unescape 0 s')
      end
  end.

Definition unescapeHtml (s : string) : string := unescape 0 s.

(** A character that ends an attribute value or opens or closes a tag. *)
Definition markup_char (c : ascii) : bool :=
  Ascii.eqb c "<" || Ascii.eqb c ">" || Ascii.eqb c JsText.dquote || Ascii.eqb c "'".

(** Put a text in front of the first cell of the first row. *)
Fixpoint push_str (s : string) (r : option (list (list string))) : option (list (list string)) :=
  match s with
  | EmptyString => r
  | String c s' => push_char c (push_str s' r)
  end.

(** ** Edited records *)

(** The record the edit form of variant 1 leaves in place of [u]. *)
Definition V1_edited (editName editEmail editRole : string) (u : V1.User) : V1.User :=
  {| V1.id := V1.id u; V1.name := JsString.trim editName;
     V1.email := JsString.trim editEmail; V1.role := editRole;
     V1.createdAt := V1.createdAt u |}.

(** The item [Object.assign] leaves in place of [x] in variant 2. *)
Definition V2_assigned (nameV emailV roleV : string) (x : V2.Item) : V2.Item :=
  {| V2.id := V2.id x; V2.name := nameV; V2.email := emailV; V2.role := roleV;
     V2.createdAt := V2.createdAt x |}.

(** ** The page cursor *)

(** The cursor of variant 2 points at one of the pages [render] counts. *)
Definition V2_page_in_range (st : V2.State) : Prop :=
  1 <= V2.page st <= V2.pages (snd (V2.render st)).

(** ** Pages *)

(** The page numbers [1 .. n]. *)
Definition page_numbers (n : Z) : list Z := map Z.of_nat (seq 1 (Z.to_nat n)).

(** The rows [render] shows when the cursor stands at [p]. *)
Definition V1_page (st : V1.State) (p : Z) : list V1.User :=
  V1.paginatedUsers (V1.render (V1.set_currentPage p st)).

Definition V2_page (st : V2.State) (p : Z) : list V2.Item :=
  V2.pageItems (snd (V2.render (V2.set_page p st))).

(** ** The selection *)

(** The events whose handlers write to the selection. *)
Definition V1_selection_event (e : V1.Event) : bool :=
  match e with
  | V1.SelectAllChange _ | V1.RowCheckboxChange _ _ | V1.DeleteClick _ _
  | V1.BulkDeleteClick _ | V1.ClearAllClick _ => true
  | _ => false
  end.

Definition V2_selection_event (e : V2.Event) : bool :=
  match e with
  | V2.SelectAllChange _ | V2.RowCheckboxChange _ _ | V2.DeleteClick _ _
  | V2.BulkDeleteClick _ | V2.ClearAllClick _ => true
  | _ => false
  end.

(** A row checkbox belongs to a row of the page on display: its change
    event carries the id of a record of that page. *)
Definition V1_from_page (e : V1.Event) (st : V1.State) : Prop :=
  match e with
  | V1.RowCheckboxChange i _ => In i (V1.idsOnPage st)
  | _ => True
  end.

Fixpoint V1_from_pages (es : list V1.Event) (st : V1.State) : Prop :=
  match es with
  | [] => True
  | e :: es' => V1_from_page e st /\ V1_from_pages es' (V1.handle e st)
  end.

Definition V2_from_page (e : V2.Event) (st : V2.State) : Prop :=
  match e with
  | V2.RowCheckboxChange i _ => In i (V2.idsOnPage st)
  | _ => True
  end.

Fixpoint V2_from_pages (es : list V2.Event) (st : V2.State) : Prop :=
  match es with
  | [] => True
  | e :: es' => V2_from_page e st /\ V2_from_pages es' (V2.handle e st)
  end.

(** Every selected id is the id of a stored record. *)
Definition V1_selection_stored (st : V1.State) : Prop :=
  forall i, i ∈ V1.selectedIds st -> In i (map V1.id (V1.users st)).

Definition V2_selection_stored (st : V2.State) : Prop :=
  forall i, i ∈ V2.selected st -> In i (map V2.id (V2.items st)).

(** ** Start-up and the stored payload *)

(** Lines 530-544 of variant 2: [load(); seedIfEmpty(); ... render()]. *)
Definition V2_start (e1 e2 e3 : Z * string * Z) (loaded : list V2.Item) : V2.State :=
  V2.rendered (V2.seedIfEmpty e1 e2 e3 (V2.init loaded)).

(** The records a reload would read: those of the last write, or, as long
    as nothing has been written, the records [found] at start-up. *)
Definition V1_stored (found : list V1.User) (st : V1.State) : list V1.User :=
  match V1.saved st with
  | payload :: _ => payload
  | [] => found
  end.

Definition V2_stored (found : list V2.Item) (st : V2.State) : list V2.Item :=
  match V2.saved st with
  | payload :: _ => payload
  | [] => found
  end.

(** ** Base-36 numerals *)

(** The value of a digit of a base-36 numeral, and of a numeral read from
    the left on top of [acc], as [parseInt(s, 36)] reads it. *)
Definition digit36_value (c : ascii) : Z :=
  let n := Z.of_nat (nat_of_ascii c) in
  if n <? 58 then n - 48 else n - 87.

Fixpoint value36 (acc : Z) (s : string) : Z :=
  match s with
  | EmptyString => acc
  | String c s' => value36 (36 * acc + digit36_value c) s'
  end.

(** * Properties *)

(** ** Sanity checks of the primitives *)

Example lower_ex : JsString.toLowerCase "Rahim@Example.COM" = "rahim@example.com".
Proof. reflexivity. Qed.

Example includes_ex : JsString.includes "karim" "ari" = true /\ JsString.includes "rahim" "kar" = false.
Proof. split; reflexivity. Qed.

Example trim_ex : JsString.trim "  a b  " = "a b" /\ JsString.trim "   " = EmptyString.
Proof. split; reflexivity. Qed.

Example slice_ex :
  JsArray.slice [1;2;3;4;5;6;7] 5 10 = [6;7] /\
  JsArray.slice [1;2;3;4;5;6;7] (-5) 0 = [] /\
  JsArray.slice [1;2;3;4;5;6;7] 10 15 = [].
Proof. repeat split; reflexivity. Qed.

Example ceil_div_ex : JsArray.ceil_div 12 5 = 3 /\ JsArray.ceil_div 10 5 = 2 /\ JsArray.ceil_div 0 5 = 0.
Proof. repeat split; reflexivity. Qed.

Example iso_ex1 : JsDate.toISOString 0 = "1970-01-01T00:00:00.000Z".
Proof. reflexivity. Qed.

Example iso_ex2 : JsDate.toISOString 1709210096789 = "2024-02-29T12:34:56.789Z".
Proof. reflexivity. Qed.

Example iso_ex3 : JsDate.toISOString 951782400000 = "2000-02-29T00:00:00.000Z".
Proof. reflexivity. Qed.

Example iso_ex4 : JsDate.toISOString (-1) = "1969-12-31T23:59:59.999Z".
Proof. reflexivity. Qed.

Example iso_ex5 : JsDate.toISOString 1762128000000 = "2025-11-03T00:00:00.000Z".
Proof. reflexivity. Qed.

Example iso_ex6 : JsDate.toISOString 4102444799999 = "2099-12-31T23:59:59.999Z".
Proof. reflexivity. Qed.

Example split_ex :
  split_sort "createdAt:desc" = ("createdAt", Some "desc") /\
  split_sort "name" = ("name", None) /\ split_sort EmptyString = (EmptyString, None).
Proof. repeat split; reflexivity. Qed.

Example toString36_ex :
  V2.toString36 0 = "0" /\ V2.toString36 35 = "z" /\ V2.toString36 36 = "10" /\
  V2.toString36 1762128000000 = "mhidiio0".
Proof. repeat split; reflexivity. Qed.

Example uid_ex : V2.uid 1762128000000 "0.4fzyo82mvyr" = "mhidiio04fzyo8".
Proof. reflexivity. Qed.

Example validateEmail_ex :
  V2.validateEmail "rahim@example.com" = true /\
  V2.validateEmail "a@b.c.d" = true /\
  V2.validateEmail "rahim@example" = false /\
  V2.validateEmail "ra him@example.com" = false /\
  V2.validateEmail "a@@b.c" = false /\
  V2.validateEmail "@b.c" = false /\
  V2.validateEmail "a@b." = false /\
  V2.validateEmail EmptyString = false.
Proof. repeat split; reflexivity. Qed.

Example json_parse_ex :
  Json.parse "null" = Some Json.Null /\
  Json.parse " [ ] " = Some (Json.Arr []) /\
  Json.parse "[1, -2.50e3, true]" =
    Some (Json.Arr [Json.Num 1 0; Json.Num (-250) 1; Json.Bool true]) /\
  Json.parse (dq "[{'id':17,'name':'AB'}]") =
    Some (Json.Arr [Json.Obj [([105;100]%N, Json.Num 17 0);
                              ([110;97;109;101]%N, Json.Str [65;66]%N)]]) /\
  Json.parse EmptyString = None /\
  Json.parse "{" = None /\
  Json.parse "[1,]" = None /\
  Json.parse "01" = None /\
  Json.parse "[1] x" = None /\
  Json.parse "undefined" = None.
Proof. repeat split; reflexivity. Qed.

(** ** The select-all indicator *)

Lemma forallb_in_set `{Countable K} {A : Type} (f : A -> K) (s : gset K) (l : list A) :
  forallb (fun x => bool_decide (f x ∈ s)) l = true <-> Forall (fun x => f x ∈ s) l.
Proof.
  induction l as [|x l IH]; simpl.
  - split; [constructor | reflexivity].
  - rewrite andb_true_iff, IH, bool_decide_eq_true, Forall_cons. reflexivity.
Qed.

Lemma length_pos_nonempty {A : Type} (l : list A) :
  (0 <? Z.of_nat (length l)) = true <-> l <> [].
Proof.
  destruct l; simpl.
  - split; [discriminate | congruence].
  - split; [discriminate | intros _; apply Z.ltb_lt; lia].
Qed.

(** C7. In both variants [render] checks the select-all box exactly when the
    page it shows is non-empty and the id of every record on it is in the
    selection set; an empty page is never shown as fully selected. *)
Theorem select_all_iff_page_fully_selected :
  (forall st : V1.State,
      let page := V1.paginatedUsers (V1.render st) in
      V1.selectAllChecked (V1.render st) = true <->
      page <> [] /\ Forall (fun u => V1.id u ∈ V1.selectedIds st) page) /\
  (forall st : V2.State,
      let page := V2.pageItems (snd (V2.render st)) in
      V2.selectAllChecked (snd (V2.render st)) = true <->
      page <> [] /\ Forall (fun i => V2.id i ∈ V2.selected st) page).
Proof.
  split; intros st page.
  - unfold V1.render in *; simpl in *.
    rewrite andb_true_iff, forallb_in_set, length_pos_nonempty. tauto.
  - unfold V2.render in *; simpl in *.
    rewrite andb_true_iff, length_pos_nonempty.
    assert (Hsel : forall b : bool,
               V2.selected (if b then V2.set_page (Z.max 1 (JsArray.ceil_div
                 (Z.of_nat (length (V2.queryAndSort st (V2.items st)))) (V2.perPage st))) st
                            else st) = V2.selected st)
      by (intros []; reflexivity).
    rewrite Hsel, forallb_in_set. tauto.
Qed.

Example select_all_empty_page :
  V1.selectAllChecked (V1.render (V1.init [] 5 "name:asc")) = false /\
  V2.selectAllChecked (snd (V2.render (V2.init []))) = false.
Proof. split; reflexivity. Qed.

(** ** Resetting the page cursor *)

Lemma V2_pages_ge_1 (st : V2.State) : 1 <= V2.pages (snd (V2.render st)).
Proof. unfold V2.render; simpl. lia. Qed.

Lemma V2_rendered_page (st : V2.State) :
  V2.page (V2.rendered st) = Z.min (V2.page st) (V2.pages (snd (V2.render st))).
Proof.
  unfold V2.rendered, V2.render; simpl.
  destruct (Z.ltb_spec (Z.max 1 (JsArray.ceil_div
             (Z.of_nat (length (V2.queryAndSort st (V2.items st)))) (V2.perPage st)))
             (V2.page st)); simpl; lia.
Qed.

Lemma V2_render_page_1 (st : V2.State) :
  V2.page st = 1 -> V2.page (V2.rendered st) = 1 /\ V2.pageText (snd (V2.render st)) = 1.
Proof.
  intros Hp. pose proof (V2_rendered_page st) as H. pose proof (V2_pages_ge_1 st) as H1.
  split; [lia|]. unfold V2.rendered in H. unfold V2.render in *; simpl in *. lia.
Qed.

(** C10. In both variants the handlers of the search box and of the page-size
    menu store the new value, set the page cursor to 1, and only then render:
    the state handed to [render] has page 1, the page shown is 1, and the
    cursor is 1 when the handler returns. *)
Theorem search_and_perPage_reset_page :
  (forall (st : V1.State) (value : string),
      let st' := V1.onSearchInput value st in
      V1.searchQuery st' = value /\ V1.currentPage st' = 1 /\
      V1.pageText (V1.render st') = 1) /\
  (forall (st : V1.State) (value : Z),
      let st' := V1.onPerPageChange value st in
      V1.perPage st' = value /\ V1.currentPage st' = 1 /\
      V1.pageText (V1.render st') = 1) /\
  (forall (st : V2.State) (value : string),
      let pre := V2.set_page 1 (V2.set_query value st) in
      V2.onSearchInput value st = V2.rendered pre /\
      V2.query pre = value /\ V2.page pre = 1 /\
      V2.pageText (snd (V2.render pre)) = 1 /\
      V2.page (V2.onSearchInput value st) = 1) /\
  (forall (st : V2.State) (value : Z),
      let pre := V2.set_page 1 (V2.set_perPage value st) in
      V2.onPerPageChange value st = V2.rendered pre /\
      V2.perPage pre = value /\ V2.page pre = 1 /\
      V2.pageText (snd (V2.render pre)) = 1 /\
      V2.page (V2.onPerPageChange value st) = 1).
Proof.
  repeat split; try reflexivity.
  - apply (V2_render_page_1 (V2.set_page 1 (V2.set_query value st))); reflexivity.
  - apply (V2_render_page_1 (V2.set_page 1 (V2.set_query value st))); reflexivity.
  - apply (V2_render_page_1 (V2.set_page 1 (V2.set_perPage value st))); reflexivity.
  - apply (V2_render_page_1 (V2.set_page 1 (V2.set_perPage value st))); reflexivity.
Qed.

(** ** Deleting records *)

Lemma filter_negb_none {A : Type} (p : A -> bool) (l : list A) (x : A) :
  In x (List.filter (fun y => negb (p y)) l) -> p x = false.
Proof.
  intros H. apply filter_In in H as [_ Hp]. now apply negb_true_iff in Hp.
Qed.

Lemma V2_rendered_items (st : V2.State) : V2.items (V2.rendered st) = V2.items st.
Proof. unfold V2.rendered, V2.render; simpl. now destruct (_ <? _). Qed.

Lemma V2_rendered_selected (st : V2.State) : V2.selected (V2.rendered st) = V2.selected st.
Proof. unfold V2.rendered, V2.render; simpl. now destruct (_ <? _). Qed.

Lemma V2_rendered_saved (st : V2.State) : V2.saved (V2.rendered st) = V2.saved st.
Proof. unfold V2.rendered, V2.render; simpl. now destruct (_ <? _). Qed.

(** C8. After a confirmed single delete, bulk delete or clear-all, in either
    variant, no stored record carries a deleted id and the selection set holds
    no deleted id.  The ids deleted are: the id clicked; the ids selected when
    the bulk delete starts; every id, for clear-all. *)
Theorem delete_family_prunes_store_and_selection :
  (forall (st : V1.State) (i : Z),
      let st' := V1.onDelete i true st in
      (forall u, In u (V1.users st') -> V1.id u <> i) /\ i ∉ V1.selectedIds st') /\
  (forall (st : V1.State) (i : Z),
      i ∈ V1.selectedIds st ->
      let st' := V1.onBulkDelete true st in
      (forall u, In u (V1.users st') -> V1.id u <> i) /\ i ∉ V1.selectedIds st') /\
  (forall (st : V1.State) (i : Z),
      let st' := V1.onClearAll true st in
      (forall u, In u (V1.users st') -> V1.id u <> i) /\ i ∉ V1.selectedIds st') /\
  (forall (st : V2.State) (i : string),
      let st' := V2.deleteItem i st in
      (forall x, In x (V2.items st') -> V2.id x <> i) /\ i ∉ V2.selected st') /\
  (forall (st : V2.State) (i : string),
      i ∈ V2.selected st ->
      let st' := V2.bulkDelete true st in
      (forall x, In x (V2.items st') -> V2.id x <> i) /\ i ∉ V2.selected st') /\
  (forall (st : V2.State) (i : string),
      let st' := V2.onClearAll true st in
      (forall x, In x (V2.items st') -> V2.id x <> i) /\ i ∉ V2.selected st').
Proof.
  repeat apply conj.
  - intros st i; cbv zeta; simpl. split.
    + intros u Hu. apply filter_negb_none in Hu. now apply Z.eqb_neq in Hu.
    + intros [_ Hn]%elem_of_difference. apply Hn, elem_of_singleton. reflexivity.
  - intros st i Hi. cbv zeta. unfold V1.onBulkDelete.
    destruct (bool_decide_reflect (size (V1.selectedIds st) = 0%nat)) as [Hz|_].
    + apply size_empty_iff in Hz. set_solver.
    + simpl. split; [|set_solver].
      intros u Hu Heq. apply filter_negb_none in Hu.
      apply bool_decide_eq_false in Hu. congruence.
  - intros st i; cbv zeta; simpl. split; [tauto | set_solver].
  - intros st i; cbv zeta. unfold V2.deleteItem.
    rewrite V2_rendered_items, V2_rendered_selected; simpl. split.
    + intros x Hx. apply filter_negb_none in Hx. now apply String.eqb_neq in Hx.
    + intros [_ Hn]%elem_of_difference. apply Hn, elem_of_singleton. reflexivity.
  - intros st i Hi; cbv zeta. unfold V2.bulkDelete, negb.
    rewrite V2_rendered_items, V2_rendered_selected; simpl. split.
    + intros x Hx Heq. apply filter_negb_none in Hx.
      apply bool_decide_eq_false in Hx. congruence.
    + set_solver.
  - intros st i; cbv zeta. unfold V2.onClearAll, negb.
    rewrite V2_rendered_items, V2_rendered_selected; simpl.
    split; [tauto | set_solver].
Qed.

(** ** The filter step *)

Lemma append_nil_l (s : string) : EmptyString +:+ s = s.
Proof. reflexivity. Qed.

Lemma append_cons (c : ascii) (s t : string) : String c s +:+ t = String c (s +:+ t).
Proof. reflexivity. Qed.

Lemma prefix_true_iff (q s : string) :
  String.prefix q s = true <-> exists b, s = q +:+ b.
Proof.
  revert s; induction q as [|c q IH]; intros s.
  - split; [intros _; exists s; reflexivity | intros _; now destruct s].
  - destruct s as [|d s]; simpl.
    + split; [discriminate | intros [b Hb]; discriminate].
    + destruct (ascii_dec c d) as [->|Hne].
      * rewrite IH. split; intros [b Hb]; exists b; rewrite append_cons in *; congruence.
      * split; [discriminate | intros [b Hb]; rewrite append_cons in Hb; congruence].
Qed.

Lemma includes_true_iff (s q : string) :
  JsString.includes s q = true <-> contains s q.
Proof.
  unfold contains. induction s as [|c s IH]; cbn [JsString.includes].
  - rewrite orb_false_r, prefix_true_iff. split.
    + intros [b Hb]. exists EmptyString, b. exact Hb.
    + intros [a [b Hab]]. destruct a; [exists b; exact Hab | discriminate].
  - rewrite orb_true_iff, IH, prefix_true_iff. split.
    + intros [[b Hb] | [a [b Hab]]].
      * exists EmptyString, b. exact Hb.
      * exists (String c a), b. rewrite append_cons. now rewrite Hab.
    + intros [a [b Hab]]. destruct a as [|c' a].
      * left. exists b. exact Hab.
      * right. exists a, b. rewrite append_cons in Hab. congruence.
Qed.

Lemma contains_empty (s : string) : contains s EmptyString.
Proof. exists EmptyString, s. reflexivity. Qed.

Lemma toLowerCase_idem (s : string) :
  JsString.toLowerCase (JsString.toLowerCase s) = JsString.toLowerCase s.
Proof.
  induction s as [|c s IH]; simpl; [reflexivity|]. rewrite IH. f_equal.
  assert (H : forall n, (n < 256)%nat ->
     JsString.lower_ascii (JsString.lower_ascii (ascii_of_nat n)) =
     JsString.lower_ascii (ascii_of_nat n)).
  { intros n Hn. do 256 (destruct n as [|n]; [reflexivity|]). lia. }
  rewrite <- (ascii_nat_embedding c). apply H, nat_ascii_bounded.
Qed.

Lemma V1_matches_iff (q : string) (u : V1.User) :
  V1.matches q u = true <->
  q = EmptyString \/ contains_ci (V1.name u) q \/ contains_ci (V1.email u) q.
Proof.
  unfold V1.matches, contains_ci. rewrite orb_true_iff, !includes_true_iff. split.
  - tauto.
  - intros [-> | H]; [left; apply contains_empty | exact H].
Qed.

Lemma V2_keep_iff (query : string) (it : V2.Item) :
  let q := JsString.trim query in
  V2.keep (JsString.toLowerCase q) it = true <->
  q = EmptyString \/ contains_ci (V2.name it) q \/ contains_ci (V2.email it) q.
Proof.
  cbv zeta. unfold V2.keep, contains_ci.
  destruct (JsString.trim query) as [|c q] eqn:Hq; simpl JsString.truthy.
  - simpl. tauto.
  - cbn [JsString.toLowerCase JsString.truthy negb].
    rewrite orb_true_iff, !includes_true_iff. split; [tauto|].
    intros [H | H]; [discriminate | exact H].
Qed.

(** ** Sorting with a consistent comparator *)

Section SortFacts.
Context {A : Type} (cmp : A -> A -> Z).

Lemma insert_perm (x : A) (l : list A) : Permutation (JsArray.insert cmp x l) (x :: l).
Proof.
  induction l as [|y l IH]; simpl; [reflexivity|].
  destruct (0 <? cmp x y); [|reflexivity].
  rewrite IH. apply perm_swap.
Qed.

Lemma sort_perm (l : list A) : Permutation (JsArray.sort cmp l) l.
Proof.
  induction l as [|x l IH]; simpl; [reflexivity|].
  rewrite insert_perm. now constructor.
Qed.

Lemma sort_In (l : list A) (x : A) : In x (JsArray.sort cmp l) <-> In x l.
Proof.
  split; apply Permutation_in; [apply sort_perm | symmetry; apply sort_perm].
Qed.

Lemma sort_length (l : list A) : length (JsArray.sort cmp l) = length l.
Proof. apply Permutation_length, sort_perm. Qed.

Hypothesis Hc : consistent cmp.

Lemma tie_sym (x y : A) : cmp x y = 0 -> cmp y x = 0.
Proof. intros H. pose proof (cmp_swap Hc x y) as Hs. rewrite H in Hs. simpl in Hs. lia. Qed.

Lemma tie_trans (x y z : A) : cmp x y = 0 -> cmp y z = 0 -> cmp x z = 0.
Proof.
  intros Hxy Hyz.
  assert (H1 : cmp x z <= 0) by (apply (cmp_trans Hc x y z); lia).
  assert (H2 : cmp z x <= 0).
  { apply (cmp_trans Hc z y x); [rewrite (tie_sym y z Hyz) | rewrite (tie_sym x y Hxy)]; lia. }
  pose proof (cmp_swap Hc x z) as Hs. lia.
Qed.

Lemma insert_tie_filter (y x : A) (l : list A) :
  List.filter (tie cmp y) (JsArray.insert cmp x l) = List.filter (tie cmp y) (x :: l).
Proof.
  induction l as [|z l IH]; [reflexivity|].
  cbn [JsArray.insert]. destruct (Z.ltb_spec 0 (cmp x z)) as [Hlt|Hge]; [|reflexivity].
  cbn [List.filter] in *. rewrite IH.
  destruct (tie cmp y z) eqn:Hz, (tie cmp y x) eqn:Hx; try reflexivity.
  apply Z.eqb_eq in Hz, Hx.
  pose proof (tie_trans x y z (tie_sym y x Hx) Hz). lia.
Qed.

(** Stability: the records that tie with any given record come out in the
    order in which they went in. *)
Lemma sort_stable (y : A) (l : list A) :
  List.filter (tie cmp y) (JsArray.sort cmp l) = List.filter (tie cmp y) l.
Proof.
  induction l as [|x l IH]; [reflexivity|].
  cbn [JsArray.sort]. rewrite insert_tie_filter. cbn [List.filter]. now rewrite IH.
Qed.

Lemma insert_sorted (x : A) (l : list A) :
  StronglySorted (fun a b => cmp a b <= 0) l ->
  StronglySorted (fun a b => cmp a b <= 0) (JsArray.insert cmp x l).
Proof.
  induction 1 as [|z l Hs IH Hz]; cbn [JsArray.insert].
  - repeat constructor.
  - destruct (Z.ltb_spec 0 (cmp x z)) as [Hlt|Hge].
    + constructor; [exact IH|].
      eapply Permutation_Forall; [symmetry; apply insert_perm|].
      constructor; [|exact Hz].
      pose proof (cmp_swap Hc x z). lia.
    + constructor; [constructor; assumption|].
      constructor; [exact Hge|].
      eapply Forall_impl; [exact Hz|].
      intros w Hw. simpl in Hw. apply (cmp_trans Hc x z w); assumption.
Qed.

Lemma sort_sorted (l : list A) :
  StronglySorted (fun a b => cmp a b <= 0) (JsArray.sort cmp l).
Proof.
  induction l as [|x l IH]; cbn [JsArray.sort]; [constructor|].
  now apply insert_sorted.
Qed.

End SortFacts.

(** ** The order of strings *)

Lemma ascii_compare_refl (c : ascii) : Ascii.compare c c = Eq.
Proof. apply N.compare_refl. Qed.

Lemma string_compare_refl (s : string) : String.compare s s = Eq.
Proof. induction s as [|c s IH]; simpl; [reflexivity|]. now rewrite ascii_compare_refl. Qed.

Lemma string_compare_eq (a b : string) : String.compare a b = Eq <-> a = b.
Proof. split; [apply String.compare_eq_iff | intros ->; apply string_compare_refl]. Qed.

Lemma string_compare_lt_trans (a b c : string) :
  String.compare a b = Lt -> String.compare b c = Lt -> String.compare a c = Lt.
Proof.
  revert b c; induction a as [|x a IH]; intros [|y b] [|z c]; simpl; try congruence.
  unfold Ascii.compare.
  destruct (N.compare_spec (N_of_ascii x) (N_of_ascii y)) as [Hxy|Hxy|Hxy];
    destruct (N.compare_spec (N_of_ascii y) (N_of_ascii z)) as [Hyz|Hyz|Hyz];
    try congruence; intros H1 H2.
  - rewrite <- Hyz, <- Hxy, N.compare_refl. eauto.
  - rewrite Hxy. now apply N.compare_lt_iff in Hyz as ->.
  - rewrite <- Hyz. now apply N.compare_lt_iff in Hxy as ->.
  - assert (H : (N_of_ascii x < N_of_ascii z)%N) by lia.
    now apply N.compare_lt_iff in H as ->.
Qed.

Lemma str_lt_asym (a b : string) : JsString.lt a b = true -> JsString.lt b a = false.
Proof.
  unfold JsString.lt, String.ltb. rewrite (String.compare_antisym b a).
  now destruct (String.compare a b).
Qed.

Lemma str_lt_negtrans (a b c : string) :
  JsString.lt b a = false -> JsString.lt c b = false -> JsString.lt c a = false.
Proof.
  unfold JsString.lt, String.ltb. intros Hba Hcb.
  destruct (String.compare c a) eqn:Hca; try reflexivity.
  destruct (String.compare c b) eqn:Hcb'; try discriminate.
  - apply string_compare_eq in Hcb' as ->. now rewrite Hca in Hba.
  - rewrite String.compare_antisym in Hcb'.
    destruct (String.compare b c) eqn:Hbc; try discriminate.
    now rewrite (string_compare_lt_trans b c a Hbc Hca) in Hba.
Qed.

Lemma str_lt_total (a b : string) :
  JsString.lt a b = false -> JsString.lt b a = false -> a = b.
Proof.
  unfold JsString.lt, String.ltb. rewrite (String.compare_antisym b a).
  destruct (String.compare a b) eqn:H; try discriminate.
  intros _ _. now apply string_compare_eq.
Qed.

Lemma str_lt_irrefl (a : string) : JsString.lt a a = false.
Proof. unfold JsString.lt, String.ltb. now rewrite string_compare_refl. Qed.

(** ** Comparators that order records by a key *)

Section KeyComparator.
Context {A K : Type} (key : A -> K) (ltb : K -> K -> bool) (asc : bool).

Hypothesis ltb_asym : forall a b, ltb (key a) (key b) = true -> ltb (key b) (key a) = false.
Hypothesis ltb_negtrans : forall a b c,
  ltb (key b) (key a) = false -> ltb (key c) (key b) = false -> ltb (key c) (key a) = false.

Lemma by_key_consistent : consistent (by_key key ltb asc).
Proof.
  split.
  - intros a b. unfold by_key.
    destruct (ltb (key a) (key b)) eqn:Hab, (ltb (key b) (key a)) eqn:Hba;
      try (rewrite (ltb_asym _ _ Hab) in Hba; discriminate);
      destruct asc; reflexivity.
  - intros a b c. unfold by_key.
    pose proof (ltb_negtrans a b c) as H1. pose proof (ltb_negtrans c b a) as H2.
    destruct (ltb (key a) (key b)) eqn:Hab, (ltb (key b) (key a)) eqn:Hba;
      try (rewrite (ltb_asym _ _ Hab) in Hba; discriminate);
    destruct (ltb (key b) (key c)) eqn:Hbc, (ltb (key c) (key b)) eqn:Hcb;
      try (rewrite (ltb_asym _ _ Hbc) in Hcb; discriminate);
    destruct (ltb (key a) (key c)) eqn:Hac, (ltb (key c) (key a)) eqn:Hca;
      try (rewrite (ltb_asym _ _ Hac) in Hca; discriminate);
    destruct asc; try lia;
      try (specialize (H1 eq_refl eq_refl); discriminate);
      try (specialize (H2 eq_refl eq_refl); discriminate).
Qed.

Lemma by_key_flip (a b : A) :
  by_key key ltb (negb asc) a b = - by_key key ltb asc a b.
Proof.
  unfold by_key.
  destruct (ltb (key a) (key b)), (ltb (key b) (key a)), asc; reflexivity.
Qed.

Lemma by_key_tie (a b : A) :
  by_key key ltb asc a b = 0 <->
  ltb (key a) (key b) = false /\ ltb (key b) (key a) = false.
Proof.
  unfold by_key. destruct (ltb (key a) (key b)), (ltb (key b) (key a)), asc;
    split; try lia; try tauto; intros [? ?]; discriminate.
Qed.

End KeyComparator.

(** ** The comparators of the two sort steps *)

Lemma V1_compare_by_key (sortKey : string) (sortOrder : option string) (a b : V1.User) :
  V1.compareUsers sortKey sortOrder a b =
  by_key (V1_key sortKey) js_lt (is_asc sortOrder) a b.
Proof.
  unfold V1.compareUsers, by_key, V1_key, V1.prop.
  repeat (destruct (String.eqb sortKey _); [reflexivity|]). reflexivity.
Qed.

Lemma V1_key_shape (sortKey : string) :
  (forall u, exists n, V1_key sortKey u = JNumber n) \/
  (forall u, exists s, V1_key sortKey u = JString s) \/
  (forall u, V1_key sortKey u = JUndefined).
Proof.
  unfold V1_key, V1.prop.
  destruct (String.eqb sortKey "id"); [left; eauto|].
  repeat (destruct (String.eqb sortKey _); [right; left; simpl; eauto|]).
  right; right; reflexivity.
Qed.

Lemma V1_compare_consistent (sortKey : string) (sortOrder : option string) :
  consistent (V1.compareUsers sortKey sortOrder).
Proof.
  assert (Hc : consistent (by_key (V1_key sortKey) js_lt (is_asc sortOrder))).
  { apply by_key_consistent.
    - intros a b.
      destruct (V1_key_shape sortKey) as [H | [H | H]].
      + destruct (H a) as [x ->], (H b) as [y ->]. simpl. lia.
      + destruct (H a) as [x ->], (H b) as [y ->]. simpl. apply str_lt_asym.
      + rewrite !H. discriminate.
    - intros a b c.
      destruct (V1_key_shape sortKey) as [H | [H | H]].
      + destruct (H a) as [x ->], (H b) as [y ->], (H c) as [z ->]. simpl. lia.
      + destruct (H a) as [x ->], (H b) as [y ->], (H c) as [z ->]. simpl.
        apply str_lt_negtrans.
      + rewrite !H. reflexivity. }
  destruct Hc as [H1 H2].
  split; intros; rewrite !V1_compare_by_key; auto.
  apply (H2 a b c); rewrite <- V1_compare_by_key; assumption.
Qed.

Lemma V2_compare_text (key : string) (dir : option string) (a b : V2.Item) :
  key <> "createdAt" ->
  V2.compareItems key dir a b = by_key (V2_key key) JsString.lt (is_asc dir) a b.
Proof.
  intros Hk. unfold V2.compareItems. apply String.eqb_neq in Hk. now rewrite Hk.
Qed.

Lemma V2_compare_createdAt (dir : option string) (a b : V2.Item) :
  V2.compareItems "createdAt" dir a b =
  if is_asc dir then V2.createdAt a - V2.createdAt b else V2.createdAt b - V2.createdAt a.
Proof. reflexivity. Qed.

Lemma V2_compare_consistent (key : string) (dir : option string) :
  consistent (V2.compareItems key dir).
Proof.
  destruct (String.eqb_spec key "createdAt") as [-> | Hk].
  - split; intros; rewrite !V2_compare_createdAt in *; destruct (is_asc dir); lia.
  - assert (Hc : consistent (by_key (V2_key key) JsString.lt (is_asc dir))).
    { apply by_key_consistent; intros; [apply str_lt_asym | eapply str_lt_negtrans]; eauto. }
    destruct Hc as [H1 H2].
    split; intros; rewrite !V2_compare_text by assumption; auto.
    apply (H2 a b c); rewrite <- V2_compare_text by assumption; assumption.
Qed.

(** ** Which records the filter step keeps *)

Lemma V1_filterAndSort_In (st : V1.State) (u : V1.User) :
  In u (V1.filterAndSort st) <-> In u (V1.users st) /\ V1.matches (V1.searchQuery st) u = true.
Proof.
  unfold V1.filterAndSort. destruct (split_sort (V1.sortBy st)) as [k o].
  rewrite sort_In. apply filter_In.
Qed.

Lemma V2_queryAndSort_In (st : V2.State) (l : list V2.Item) (it : V2.Item) :
  In it (V2.queryAndSort st l) <->
  In it l /\ V2.keep (JsString.toLowerCase (JsString.trim (V2.query st))) it = true.
Proof.
  unfold V2.queryAndSort. destruct (split_sort (V2.sort st)) as [k o].
  rewrite sort_In. apply filter_In.
Qed.

(** C5, as the claim states it, fails in variant 2: for the query made of one
    space the filter keeps Rahim, although the query is not empty and occurs
    neither in the name nor in the email. *)
Lemma filter_claim_fails_on_blank_query :
  let st := V2.set_query " " (V2.init [rahim2]) in
  V2.queryAndSort st (V2.items st) = [rahim2] /\
  ~ (V2.query st = EmptyString \/
     contains_ci (V2.name rahim2) (V2.query st) \/
     contains_ci (V2.email rahim2) (V2.query st)).
Proof.
  split; [reflexivity|].
  unfold contains_ci. rewrite <- !includes_true_iff.
  intros [H | [H | H]]; discriminate H.
Qed.

(** C5, amended. The filter step keeps a record if and only if the query [q]
    is empty, or the name holds [q], or the email holds [q], letter case
    aside, and looks at no other field; in variant 1 [q] is the text of the
    search box, in variant 2 that text with the white space at both ends
    removed.  With Rahim alone in the store and the query [kar], both
    variants keep nothing. *)
Theorem filter_keeps_iff_name_or_email_holds_query :
  (forall (st : V1.State) (u : V1.User),
      let q := V1.searchQuery st in
      In u (V1.filterAndSort st) <->
      In u (V1.users st) /\
      (q = EmptyString \/ contains_ci (V1.name u) q \/ contains_ci (V1.email u) q)) /\
  (forall (st : V2.State) (it : V2.Item),
      let q := JsString.trim (V2.query st) in
      In it (V2.queryAndSort st (V2.items st)) <->
      In it (V2.items st) /\
      (q = EmptyString \/ contains_ci (V2.name it) q \/ contains_ci (V2.email it) q)) /\
  V1.filterAndSort (V1.set_searchQuery "kar" (V1.init [rahim1] 5 "name:asc")) = [] /\
  (let st := V2.set_query "kar" (V2.init [rahim2]) in V2.queryAndSort st (V2.items st) = []).
Proof.
  repeat apply conj; try reflexivity.
  - intros st u q. rewrite V1_filterAndSort_In, V1_matches_iff. reflexivity.
  - intros st it q. rewrite V2_queryAndSort_In.
    rewrite (V2_keep_iff (V2.query st) it). reflexivity.
Qed.

(** ** The page bound of the next-page button *)

(** C9. In variant 1 the next-page handler counts the records whose name
    holds the query, while [render] counts those whose name or email holds
    it.  With six users matched by email only and five rows per page,
    [render] shows page 1 of 2 with the button enabled, the handler computes
    0 pages, and a click leaves the cursor where it is. *)
Theorem next_page_bound_differs_from_render :
  let st := V1.set_searchQuery "example" (V1.init six_users 5 "name:asc") in
  V1.totalPages (V1.render st) = 2 /\
  V1.nextDisabled (V1.render st) = false /\
  V1.nextTotalPages st = 0 /\
  V1.onNext st = st.
Proof. vm_compute. repeat split; reflexivity. Qed.


(** ** Creating a record *)

Lemma V1_onSubmit_always_creates (st : V1.State) (n e r : string) (now now' : Z) :
  let st' := V1.onSubmit n e r now now' st in
  V1.users st' =
    {| V1.id := now; V1.name := JsString.trim n; V1.email := JsString.trim e;
       V1.role := r; V1.createdAt := JsDate.toISOString now' |} :: V1.users st /\
  V1.saved st' = V1.users st' :: V1.saved st.
Proof. split; reflexivity. Qed.

(** C3, as the claim states it, fails in variant 1: submitting an empty name
    and a text that is no email adds a record and writes the store. *)
Lemma create_claim_fails_in_variant_1 :
  let st := V1.init [] 5 "name:asc" in
  let st' := V1.onSubmit "" "no email" "user" 1700000000000 1700000000001 st in
  length (V1.users st') = S (length (V1.users st)) /\
  length (V1.saved st') = S (length (V1.saved st)).
Proof. split; reflexivity. Qed.

(** C3, amended. In variant 2, a create request whose name is empty after
    trimming, or whose trimmed email fails the shape test, raises the alert
    and changes nothing: the items, the rest of the state and the log of
    writes are as before.  A request that passes appends one item and writes
    the store once.  Variant 1 checks nothing in the script: every submit
    puts a record in front of the list and writes the store. *)
Theorem create_rejects_invalid_input :
  (forall (st : V2.State) (n e r : string) (now : Z) (rnd : string) (now' : Z),
      JsString.trim n = EmptyString \/ V2.validateEmail (JsString.trim e) = false ->
      V2.onSubmit n e r now rnd now' st = (st, true)) /\
  (forall (st : V2.State) (n e r : string) (now : Z) (rnd : string) (now' : Z),
      JsString.trim n <> EmptyString -> V2.validateEmail (JsString.trim e) = true ->
      let st' := fst (V2.onSubmit n e r now rnd now' st) in
      snd (V2.onSubmit n e r now rnd now' st) = false /\
      V2.items st' =
        V2.items st ++ [ {| V2.id := V2.uid now rnd; V2.name := JsString.trim n;
                            V2.email := JsString.trim e; V2.role := r;
                            V2.createdAt := now' |} ] /\
      V2.saved st' = V2.items st' :: V2.saved st) /\
  (forall (st : V1.State) (n e r : string) (now now' : Z),
      let st' := V1.onSubmit n e r now now' st in
      V1.users st' =
        {| V1.id := now; V1.name := JsString.trim n; V1.email := JsString.trim e;
           V1.role := r; V1.createdAt := JsDate.toISOString now' |} :: V1.users st /\
      V1.saved st' = V1.users st' :: V1.saved st).
Proof.
  repeat apply conj.
  - intros st n e r now rnd now' H. unfold V2.onSubmit.
    destruct H as [-> | ->]; simpl; [reflexivity|].
    now rewrite orb_true_r.
  - intros st n e r now rnd now' Hn He. unfold V2.onSubmit. rewrite He.
    destruct (JsString.trim n) as [|c n'] eqn:Hn'; [congruence|].
    cbn [JsString.truthy negb orb fst snd]. unfold V2.addItem.
    rewrite V2_rendered_items, V2_rendered_saved. repeat split; reflexivity.
  - intros. apply V1_onSubmit_always_creates.
Qed.

Lemma create_rejects_invalid_input_witness :
  (JsString.trim "  " = EmptyString \/ V2.validateEmail (JsString.trim "rahim@example.com") = false) /\
  V2.onSubmit "  " "rahim@example.com" "admin" 1700000000000 "0.4fzyo82mvyr" 1700000000001
    (V2.init [rahim2]) = (V2.init [rahim2], true).
Proof.
  split; [left; reflexivity|].
  apply (proj1 create_rejects_invalid_input). left; reflexivity.
Defined.

(** ** Loading the stored records *)

Lemma V1_load_unparseable (JSON_parse : string -> option Json.value) (raw : string) :
  JSON_parse raw = None -> V1.loadUsers JSON_parse (Some raw) = Thrown.
Proof. intros H. unfold V1.loadUsers. now rewrite H. Qed.

Lemma V1_load_missing : V1.loadUsers Json.parse None = Returned (Json.Arr []).
Proof. reflexivity. Qed.

Lemma V2_load_returns (JSON_parse : string -> option Json.value) (item : option string) :
  exists v, V2.load JSON_parse item = Returned v.
Proof.
  unfold V2.load, try_catch. destruct item as [raw|]; [|eauto].
  destruct (JsString.truthy raw); [|eauto]. destruct (JSON_parse raw); eauto.
Qed.

Lemma V2_load_missing (JSON_parse : string -> option Json.value) :
  V2.load JSON_parse None = Returned (Json.Arr []).
Proof. reflexivity. Qed.

Lemma V2_load_unparseable (JSON_parse : string -> option Json.value) (raw : string) :
  JSON_parse raw = None -> V2.load JSON_parse (Some raw) = Returned (Json.Arr []).
Proof.
  intros H. unfold V2.load, try_catch. rewrite H. now destruct (JsString.truthy raw).
Qed.

Lemma V2_load_parseable (JSON_parse : string -> option Json.value) (raw : string)
    (v : Json.value) :
  raw <> EmptyString -> JSON_parse raw = Some v -> V2.load JSON_parse (Some raw) = Returned v.
Proof.
  intros Hr H. unfold V2.load, try_catch. rewrite H. destruct raw; [congruence | reflexivity].
Qed.

(** C2. On the corrupt payload made of one opening brace, the initialisation
    of [users] in variant 1 (line 54) does not produce the empty sequence: the
    [SyntaxError] of [JSON.parse] leaves the handler uncaught.  [load] of
    variant 2 returns the empty sequence there. *)
Theorem load_of_corrupt_payload_throws_in_variant_1 :
  Json.parse "{" = None /\
  V1.loadUsers Json.parse (Some "{") = Thrown /\
  V2.load Json.parse (Some "{") = Returned (Json.Arr []).
Proof. repeat split; reflexivity. Qed.

(** ** The pagination step *)

(** [ceil_div a b] is the least [n] with [a <= n * b]. *)
Lemma ceil_div_spec (a b : Z) :
  0 < b -> (JsArray.ceil_div a b - 1) * b < a <= JsArray.ceil_div a b * b.
Proof.
  intros Hb. unfold JsArray.ceil_div.
  pose proof (Z.div_mod (- a) b ltac:(lia)) as Hd.
  pose proof (Z.mod_pos_bound (- a) b Hb) as Hm. nia.
Qed.

Lemma ceil_div_nonneg (a b : Z) : 0 <= a -> 0 < b -> 0 <= JsArray.ceil_div a b.
Proof. intros Ha Hb. pose proof (ceil_div_spec a b Hb). nia. Qed.

(** Inside the array, [slice] takes [end - start] elements from [start] on. *)
Lemma slice_inside {A : Type} (l : list A) (start n : Z) :
  0 <= start -> 0 <= n ->
  JsArray.slice l start (start + n) = take (Z.to_nat n) (drop (Z.to_nat start) l).
Proof.
  intros Hs Hn. unfold JsArray.slice, JsArray.rel_index.
  destruct (Z.ltb_spec start 0); [lia|]. destruct (Z.ltb_spec (start + n) 0); [lia|].
  set (len := Z.of_nat (length l)).
  destruct (Z.le_gt_cases len start) as [Hle|Hgt].
  - rewrite !drop_ge by lia. now rewrite !take_nil.
  - rewrite (Z.min_l start len) by lia.
    destruct (Z.le_gt_cases (start + n) len) as [Hle'|Hgt'].
    + rewrite Z.min_l by lia. f_equal. lia.
    + rewrite Z.min_r by lia.
      rewrite !take_ge; [reflexivity| |]; rewrite length_drop; lia.
Qed.




(** Five rows per page, twelve records, requested page 10: page 3 of 3 with
    the last two records. *)
Example pagination_scenario :
  let st := V2.set_page 10 (V2.init twelve_items) in
  V2.pages (snd (V2.render st)) = 3 /\
  V2.page (V2.rendered st) = 3 /\
  map V2.createdAt (V2.pageItems (snd (V2.render st))) = [1700000002000; 1700000001000].
Proof. vm_compute. repeat split; reflexivity. Qed.

(** ** Uniqueness of ids *)


Lemma V1_updateFirst_ids (i : Z) (n e r : string) (us us' : list V1.User) :
  V1.updateFirst i n e r us = Some us' -> map V1.id us' = map V1.id us.
Proof.
  revert us'; induction us as [|u us IH]; simpl; intros us' H; [discriminate|].
  destruct (V1.id u =? i).
  - injection H as <-. reflexivity.
  - destruct (V1.updateFirst i n e r us) as [l|]; [|discriminate].
    injection H as <-. simpl. f_equal. now apply IH.
Qed.

Lemma V2_assignFirst_ids (i : string) (n e r : string) (l l' : list V2.Item) :
  V2.assignFirst i n e r l = Some l' -> map V2.id l' = map V2.id l.
Proof.
  revert l'; induction l as [|x l IH]; simpl; intros l' H; [discriminate|].
  destruct (String.eqb (V2.id x) i).
  - injection H as <-. reflexivity.
  - destruct (V2.assignFirst i n e r l) as [l0|]; [|discriminate].
    injection H as <-. simpl. f_equal. now apply IH.
Qed.






(** ** The order of ISO timestamps *)

Ltac zdiv := Z.div_mod_to_equations; lia.

Lemma DayFromYear_step (y : Z) :
  JsDate.DayFromYear (y + 1) - JsDate.DayFromYear y = if JsDate.InLeapYear y then 366 else 365.
Proof.
  unfold JsDate.DayFromYear, JsDate.InLeapYear.
  destruct (Z.eqb_spec (y mod 4) 0), (Z.eqb_spec (y mod 100) 0), (Z.eqb_spec (y mod 400) 0);
    simpl; zdiv.
Qed.

Lemma DayFromYear_mono (y1 y2 : Z) :
  y1 < y2 -> JsDate.DayFromYear y1 < JsDate.DayFromYear y2.
Proof. unfold JsDate.DayFromYear. zdiv. Qed.

(** [YearFromDay d] is the year that holds day [d]. *)
Lemma YearFromDay_spec (d : Z) :
  JsDate.DayFromYear (JsDate.YearFromDay d) <= d < JsDate.DayFromYear (JsDate.YearFromDay d + 1).
Proof.
  unfold JsDate.YearFromDay.
  destruct (Z.leb_spec (JsDate.DayFromYear (1970 + d * 400 / 146097 + 1)) d) as [H1|H1].
  - split; [exact H1|]. unfold JsDate.DayFromYear in *. zdiv.
  - destruct (Z.leb_spec (JsDate.DayFromYear (1970 + d * 400 / 146097)) d) as [H2|H2].
    + split; assumption.
    + replace (1970 + d * 400 / 146097 - 1 + 1) with (1970 + d * 400 / 146097) by lia.
      split; [|exact H2]. unfold JsDate.DayFromYear in *. zdiv.
Qed.

Lemma YearFromDay_mono (d1 d2 : Z) :
  d1 <= d2 -> JsDate.YearFromDay d1 <= JsDate.YearFromDay d2.
Proof.
  intros Hd. pose proof (YearFromDay_spec d1) as H1. pose proof (YearFromDay_spec d2) as H2.
  destruct (Z.le_gt_cases (JsDate.YearFromDay d1) (JsDate.YearFromDay d2)) as [H|H]; [exact H|].
  assert (Hm : JsDate.DayFromYear (JsDate.YearFromDay d2 + 1)
               <= JsDate.DayFromYear (JsDate.YearFromDay d1)).
  { destruct (Z.eq_dec (JsDate.YearFromDay d2 + 1) (JsDate.YearFromDay d1)) as [->|Hne];
      [lia|]. apply Z.lt_le_incl, DayFromYear_mono. lia. }
  lia.
Qed.

Lemma YearFromDay_range (d : Z) :
  0 <= d < 2932897 -> 1970 <= JsDate.YearFromDay d <= 9999.
Proof.
  intros Hd. pose proof (YearFromDay_spec d) as H.
  split.
  - destruct (Z.le_gt_cases 1970 (JsDate.YearFromDay d)) as [Hy|Hy]; [exact Hy|].
    assert (JsDate.DayFromYear (JsDate.YearFromDay d + 1) <= JsDate.DayFromYear 1970).
    { destruct (Z.eq_dec (JsDate.YearFromDay d + 1) 1970) as [->|Hne]; [lia|].
      apply Z.lt_le_incl, DayFromYear_mono. lia. }
    change (JsDate.DayFromYear 1970) with 0 in *. lia.
  - destruct (Z.le_gt_cases (JsDate.YearFromDay d) 9999) as [Hy|Hy]; [exact Hy|].
    assert (JsDate.DayFromYear 10000 <= JsDate.DayFromYear (JsDate.YearFromDay d)).
    { destruct (Z.eq_dec 10000 (JsDate.YearFromDay d)) as [<-|Hne]; [lia|].
      apply Z.lt_le_incl, DayFromYear_mono. lia. }
    change (JsDate.DayFromYear 10000) with 2932897 in *. lia.
Qed.

Lemma DayWithinYear_range (t : Z) :
  0 <= JsDate.DayWithinYear t <
  (if JsDate.InLeapYear (JsDate.YearFromTime t) then 366 else 365).
Proof.
  unfold JsDate.DayWithinYear, JsDate.YearFromTime.
  pose proof (YearFromDay_spec (JsDate.Day t)) as H.
  pose proof (DayFromYear_step (JsDate.YearFromDay (JsDate.Day t))) as Hs.
  destruct (JsDate.InLeapYear _); lia.
Qed.

Ltac split_ltb :=
  repeat match goal with
         | |- context [?a <? ?b] => destruct (Z.ltb_spec a b)
         end.

Lemma date_fields_bounds (t : Z) :
  0 <= JsDate.MonthFromTime t <= 11 /\ 1 <= JsDate.DateFromTime t <= 31.
Proof.
  pose proof (DayWithinYear_range t) as Hd.
  unfold JsDate.DateFromTime, JsDate.MonthFromTime.
  revert Hd. generalize (JsDate.DayWithinYear t) as d.
  destruct (JsDate.InLeapYear (JsDate.YearFromTime t)); intros d Hd;
    split_ltb; cbv iota beta; lia.
Qed.

Lemma date_fields_lt (t1 t2 : Z) :
  JsDate.YearFromTime t1 = JsDate.YearFromTime t2 ->
  JsDate.DayWithinYear t1 < JsDate.DayWithinYear t2 ->
  lexc (JsDate.MonthFromTime t1 + 1 ?= JsDate.MonthFromTime t2 + 1)
       (JsDate.DateFromTime t1 ?= JsDate.DateFromTime t2) = Lt.
Proof.
  intros Hy.
  pose proof (DayWithinYear_range t1) as H1. pose proof (DayWithinYear_range t2) as H2.
  unfold JsDate.DateFromTime, JsDate.MonthFromTime. rewrite Hy in *.
  revert H1 H2.
  generalize (JsDate.DayWithinYear t1) as d1. generalize (JsDate.DayWithinYear t2) as d2.
  destruct (JsDate.InLeapYear (JsDate.YearFromTime t2)); intros d2 d1 H1 H2 Hlt;
    split_ltb; cbv iota beta; try lia;
    first [ reflexivity
          | cbn [Z.add Pos.add Pos.succ Z.compare Pos.compare Pos.compare_cont lexc];
            apply Z.compare_lt_iff; lia ].
Qed.

Lemma time_fields_bounds (t : Z) :
  0 <= JsDate.HourFromTime t < 24 /\ 0 <= JsDate.MinFromTime t < 60 /\
  0 <= JsDate.SecFromTime t < 60 /\ 0 <= JsDate.msFromTime t < 1000.
Proof.
  unfold JsDate.HourFromTime, JsDate.MinFromTime, JsDate.SecFromTime, JsDate.msFromTime,
    JsDate.TimeWithinDay, JsDate.msPerDay. zdiv.
Qed.

Lemma time_fields_lt (t1 t2 : Z) :
  JsDate.TimeWithinDay t1 < JsDate.TimeWithinDay t2 ->
  lexc (JsDate.HourFromTime t1 ?= JsDate.HourFromTime t2)
    (lexc (JsDate.MinFromTime t1 ?= JsDate.MinFromTime t2)
      (lexc (JsDate.SecFromTime t1 ?= JsDate.SecFromTime t2)
        (JsDate.msFromTime t1 ?= JsDate.msFromTime t2))) = Lt.
Proof.
  unfold JsDate.HourFromTime, JsDate.MinFromTime, JsDate.SecFromTime, JsDate.msFromTime.
  generalize (JsDate.TimeWithinDay t1) as a. generalize (JsDate.TimeWithinDay t2) as b.
  intros b a Hlt.
  destruct (Z.compare_spec (a / 3600000) (b / 3600000)) as [Hh|Hh|Hh]; cbn [lexc];
    [|reflexivity|exfalso; zdiv].
  destruct (Z.compare_spec ((a / 60000) mod 60) ((b / 60000) mod 60)) as [Hm|Hm|Hm];
    cbn [lexc]; [|reflexivity|exfalso; zdiv].
  destruct (Z.compare_spec ((a / 1000) mod 60) ((b / 1000) mod 60)) as [Hs|Hs|Hs];
    cbn [lexc]; [|reflexivity|exfalso; zdiv].
  apply Z.compare_lt_iff. zdiv.
Qed.

(** *** Zero-padded decimal fields *)

Lemma digit_compare (a b : Z) :
  0 <= a < 10 -> 0 <= b < 10 ->
  Ascii.compare (JsDate.digit a) (JsDate.digit b) = (a ?= b).
Proof.
  intros Ha Hb. unfold Ascii.compare, JsDate.digit, ascii_of_nat.
  rewrite !N_ascii_embedding by lia.
  rewrite <- N2Z.inj_compare, !nat_N_Z, !Nat2Z.inj_add, !Z2Nat.id by lia. change (Z.of_nat 48) with 48.
  apply Z.add_compare_mono_l.
Qed.

Lemma lexc_digits (p da db ra rb : Z) :
  0 <= ra < p -> 0 <= rb < p ->
  (ra + p * da ?= rb + p * db) = lexc (da ?= db) (ra ?= rb).
Proof.
  intros Ha Hb.
  destruct (Z.compare_spec da db) as [->|H|H]; cbn [lexc].
  - rewrite (Z.add_comm ra), (Z.add_comm rb). apply Z.add_compare_mono_l.
  - apply Z.compare_lt_iff. nia.
  - apply Z.compare_gt_iff. nia.
Qed.

Lemma pad_compare (w : nat) (a b : Z) (s s' : string) :
  String.compare (JsDate.pad w a +:+ s) (JsDate.pad w b +:+ s') =
  lexc (a mod 10 ^ Z.of_nat w ?= b mod 10 ^ Z.of_nat w) (String.compare s s').
Proof.
  induction w as [|w IH].
  - cbn [JsDate.pad]. rewrite !append_nil_l. change (10 ^ Z.of_nat 0) with 1.
    now rewrite !Z.mod_1_r.
  - cbn [JsDate.pad]. rewrite !append_cons. cbn [String.compare].
    rewrite digit_compare by (apply Z.mod_pos_bound; lia).
    rewrite IH, Nat2Z.inj_succ, Z.pow_succ_r by lia.
    assert (Hp : 0 < 10 ^ Z.of_nat w) by (apply Z.pow_pos_nonneg; lia).
    rewrite (Z.mul_comm 10), !Z.rem_mul_r by lia.
    rewrite lexc_digits by (apply Z.mod_pos_bound; lia).
    destruct ((a / 10 ^ Z.of_nat w) mod 10 ?= (b / 10 ^ Z.of_nat w) mod 10); reflexivity.
Qed.

Lemma pad_compare_small (w : nat) (a b : Z) (s s' : string) :
  0 <= a < 10 ^ Z.of_nat w -> 0 <= b < 10 ^ Z.of_nat w ->
  String.compare (JsDate.pad w a +:+ s) (JsDate.pad w b +:+ s') =
  lexc (a ?= b) (String.compare s s').
Proof. intros Ha Hb. now rewrite pad_compare, !Z.mod_small. Qed.

Lemma cons_compare (c : ascii) (s s' : string) :
  String.compare (String c s) (String c s') = String.compare s s'.
Proof. cbn [String.compare]. now rewrite ascii_compare_refl. Qed.

Lemma toLowerCase_app (s t : string) :
  JsString.toLowerCase (s +:+ t) = JsString.toLowerCase s +:+ JsString.toLowerCase t.
Proof.
  induction s as [|c s IH]; [reflexivity|].
  rewrite append_cons. cbn [JsString.toLowerCase]. now rewrite IH, append_cons.
Qed.

Lemma toLowerCase_pad (w : nat) (n : Z) :
  JsString.toLowerCase (JsDate.pad w n) = JsDate.pad w n.
Proof.
  induction w as [|w IH]; [reflexivity|].
  cbn [JsDate.pad JsString.toLowerCase]. rewrite IH. f_equal.
  pose proof (Z.mod_pos_bound (n / 10 ^ Z.of_nat w) 10 ltac:(lia)) as Hd.
  revert Hd. generalize ((n / 10 ^ Z.of_nat w) mod 10) as d. intros d Hd.
  assert (Hc : d = 0 \/ d = 1 \/ d = 2 \/ d = 3 \/ d = 4 \/ d = 5 \/ d = 6 \/ d = 7 \/
               d = 8 \/ d = 9) by lia.
  repeat (destruct Hc as [-> | Hc]; [reflexivity|]). now subst d.
Qed.

(** *** The text of an instant and the order of two texts *)

Lemma lexc_assoc (a b c : comparison) : lexc (lexc a b) c = lexc a (lexc b c).
Proof. now destruct a. Qed.

Lemma lexc_Eq_r (a : comparison) : lexc a Eq = a.
Proof. now destruct a. Qed.

Lemma Day_range (t : Z) : 0 <= t < year10000 -> 0 <= JsDate.Day t < 2932897.
Proof. unfold year10000, JsDate.Day, JsDate.msPerDay. zdiv. Qed.

Lemma toISOString_lower (t : Z) :
  0 <= t < year10000 ->
  JsString.toLowerCase (JsDate.toISOString t) =
  JsDate.pad 4 (JsDate.YearFromTime t) +:+ "-" +:+
  JsDate.pad 2 (JsDate.MonthFromTime t + 1) +:+ "-" +:+
  JsDate.pad 2 (JsDate.DateFromTime t) +:+ "t" +:+
  JsDate.pad 2 (JsDate.HourFromTime t) +:+ ":" +:+
  JsDate.pad 2 (JsDate.MinFromTime t) +:+ ":" +:+
  JsDate.pad 2 (JsDate.SecFromTime t) +:+ "." +:+
  JsDate.pad 3 (JsDate.msFromTime t) +:+ "z".
Proof.
  intros Ht. pose proof (YearFromDay_range _ (Day_range t Ht)) as Hy.
  unfold JsDate.toISOString, JsDate.year_string. fold (JsDate.YearFromTime t) in Hy.
  destruct (Z.leb_spec 0 (JsDate.YearFromTime t)); [|lia].
  destruct (Z.leb_spec (JsDate.YearFromTime t) 9999); [|lia].
  cbn [andb]. rewrite !toLowerCase_app, !toLowerCase_pad. reflexivity.
Qed.

Lemma toISOString_compare_fields (t1 t2 : Z) :
  0 <= t1 < year10000 -> 0 <= t2 < year10000 ->
  String.compare (JsString.toLowerCase (JsDate.toISOString t1))
                 (JsString.toLowerCase (JsDate.toISOString t2)) =
  lexc (JsDate.YearFromTime t1 ?= JsDate.YearFromTime t2)
    (lexc (lexc (JsDate.MonthFromTime t1 + 1 ?= JsDate.MonthFromTime t2 + 1)
                (JsDate.DateFromTime t1 ?= JsDate.DateFromTime t2))
      (lexc (JsDate.HourFromTime t1 ?= JsDate.HourFromTime t2)
        (lexc (JsDate.MinFromTime t1 ?= JsDate.MinFromTime t2)
          (lexc (JsDate.SecFromTime t1 ?= JsDate.SecFromTime t2)
            (JsDate.msFromTime t1 ?= JsDate.msFromTime t2))))).
Proof.
  intros H1 H2. rewrite !toISOString_lower by assumption.
  pose proof (YearFromDay_range _ (Day_range t1 H1)) as Hy1.
  pose proof (YearFromDay_range _ (Day_range t2 H2)) as Hy2.
  fold (JsDate.YearFromTime t1) in Hy1. fold (JsDate.YearFromTime t2) in Hy2.
  pose proof (date_fields_bounds t1) as [Hm1 Hd1].
  pose proof (date_fields_bounds t2) as [Hm2 Hd2].
  pose proof (time_fields_bounds t1) as (Hh1 & Hi1 & Hs1 & Hl1).
  pose proof (time_fields_bounds t2) as (Hh2 & Hi2 & Hs2 & Hl2).
  rewrite lexc_assoc.
  repeat (rewrite pad_compare_small by (simpl; lia);
          rewrite ?append_cons, ?append_nil_l, ?cons_compare).
  cbn [String.compare]. now rewrite lexc_Eq_r.
Qed.

(** The texts of two instants of the years 1970 to 9999, letter case aside,
    compare as the instants do. *)
Lemma toISOString_compare (t1 t2 : Z) :
  0 <= t1 < year10000 -> 0 <= t2 < year10000 ->
  String.compare (JsString.toLowerCase (JsDate.toISOString t1))
                 (JsString.toLowerCase (JsDate.toISOString t2)) = (t1 ?= t2).
Proof.
  assert (Hlt : forall a b, 0 <= a < year10000 -> 0 <= b < year10000 -> a < b ->
    String.compare (JsString.toLowerCase (JsDate.toISOString a))
                   (JsString.toLowerCase (JsDate.toISOString b)) = Lt).
  { intros a b Ha Hb Hab. rewrite toISOString_compare_fields by assumption.
    assert (Hd : JsDate.Day a <= JsDate.Day b)
      by (unfold JsDate.Day, JsDate.msPerDay; zdiv).
    pose proof (YearFromDay_mono _ _ Hd) as Hy.
    fold (JsDate.YearFromTime a) (JsDate.YearFromTime b) in Hy.
    destruct (Z.compare_spec (JsDate.YearFromTime a) (JsDate.YearFromTime b))
      as [Hye|Hyl|Hyg]; cbn [lexc]; [|reflexivity|lia].
    destruct (Z.eq_dec (JsDate.Day a) (JsDate.Day b)) as [Hde|Hdn].
    - assert (Hm : JsDate.MonthFromTime a = JsDate.MonthFromTime b)
        by (unfold JsDate.MonthFromTime, JsDate.DayWithinYear, JsDate.YearFromTime;
            now rewrite Hde).
      assert (Hdt : JsDate.DateFromTime a = JsDate.DateFromTime b)
        by (unfold JsDate.DateFromTime, JsDate.MonthFromTime, JsDate.DayWithinYear,
              JsDate.YearFromTime; now rewrite Hde).
      rewrite Hm, Hdt, !Z.compare_refl. cbn [lexc].
      apply time_fields_lt.
      unfold JsDate.Day, JsDate.TimeWithinDay, JsDate.msPerDay in *. zdiv.
    - rewrite date_fields_lt; [reflexivity | exact Hye |].
      unfold JsDate.DayWithinYear. rewrite Hye. lia. }
  intros H1 H2. destruct (Z.compare_spec t1 t2) as [->|H|H].
  - apply string_compare_refl.
  - now apply Hlt.
  - rewrite String.compare_antisym, (Hlt t2 t1) by assumption. reflexivity.
Qed.

(** ** The sort step *)

Lemma by_key_signed {A : Type} (key : A -> string) (asc : bool) (a b : A) :
  by_key key JsString.lt asc a b = signed asc (String.compare (key a) (key b)).
Proof.
  unfold by_key, JsString.lt, String.ltb. rewrite (String.compare_antisym (key b) (key a)).
  destruct (String.compare (key a) (key b)); reflexivity.
Qed.

Lemma V1_filterAndSort_eq (st : V1.State) :
  V1.filterAndSort st =
  JsArray.sort (V1.compareUsers (fst (split_sort (V1.sortBy st)))
                                (snd (split_sort (V1.sortBy st))))
               (List.filter (V1.matches (V1.searchQuery st)) (V1.users st)).
Proof. unfold V1.filterAndSort. now destruct (split_sort (V1.sortBy st)). Qed.

Lemma V2_queryAndSort_eq (st : V2.State) (l : list V2.Item) :
  V2.queryAndSort st l =
  JsArray.sort (V2.compareItems (fst (split_sort (V2.sort st))) (snd (split_sort (V2.sort st))))
               (List.filter (V2.keep (JsString.toLowerCase (JsString.trim (V2.query st)))) l).
Proof. unfold V2.queryAndSort. now destruct (split_sort (V2.sort st)). Qed.

Lemma V1_compare_text (o : option string) (a b : V1.User) :
  V1.compareUsers "name" o a b =
    signed (is_asc o) (String.compare (JsString.toLowerCase (V1.name a))
                                      (JsString.toLowerCase (V1.name b))) /\
  V1.compareUsers "email" o a b =
    signed (is_asc o) (String.compare (JsString.toLowerCase (V1.email a))
                                      (JsString.toLowerCase (V1.email b))) /\
  V1.compareUsers "role" o a b =
    signed (is_asc o) (String.compare (JsString.toLowerCase (V1.role a))
                                      (JsString.toLowerCase (V1.role b))) /\
  V1.compareUsers "createdAt" o a b =
    signed (is_asc o) (String.compare (JsString.toLowerCase (V1.createdAt a))
                                      (JsString.toLowerCase (V1.createdAt b))).
Proof.
  repeat split.
  - apply (by_key_signed (fun u => JsString.toLowerCase (V1.name u))).
  - apply (by_key_signed (fun u => JsString.toLowerCase (V1.email u))).
  - apply (by_key_signed (fun u => JsString.toLowerCase (V1.role u))).
  - apply (by_key_signed (fun u => JsString.toLowerCase (V1.createdAt u))).
Qed.

Lemma V1_compare_createdAt (o : option string) (a b : V1.User) (ta tb : Z) :
  0 <= ta < year10000 -> 0 <= tb < year10000 ->
  V1.createdAt a = JsDate.toISOString ta -> V1.createdAt b = JsDate.toISOString tb ->
  V1.compareUsers "createdAt" o a b = signed (is_asc o) (ta ?= tb).
Proof.
  intros Ha Hb Ea Eb. destruct (V1_compare_text o a b) as (_ & _ & _ & H).
  now rewrite H, Ea, Eb, toISOString_compare.
Qed.

Lemma V2_compare_text_fields (o : option string) (a b : V2.Item) :
  V2.compareItems "name" o a b =
    signed (is_asc o) (String.compare (JsString.toLowerCase (V2.name a))
                                      (JsString.toLowerCase (V2.name b))) /\
  V2.compareItems "email" o a b =
    signed (is_asc o) (String.compare (JsString.toLowerCase (V2.email a))
                                      (JsString.toLowerCase (V2.email b))) /\
  V2.compareItems "role" o a b =
    signed (is_asc o) (String.compare (JsString.toLowerCase (V2.role a))
                                      (JsString.toLowerCase (V2.role b))).
Proof.
  repeat split.
  - apply (by_key_signed (fun u => JsString.toLowerCase (V2.name u))).
  - apply (by_key_signed (fun u => JsString.toLowerCase (V2.email u))).
  - apply (by_key_signed (fun u => JsString.toLowerCase (V2.role u))).
Qed.

Lemma V2_compare_createdAt_sgn (o : option string) (a b : V2.Item) :
  Z.sgn (V2.compareItems "createdAt" o a b) =
  signed (is_asc o) (V2.createdAt a ?= V2.createdAt b).
Proof.
  rewrite V2_compare_createdAt.
  destruct (Z.compare_spec (V2.createdAt a) (V2.createdAt b)), (is_asc o); simpl; lia.
Qed.

Lemma V1_compare_flip (k : string) (o o' : option string) (a b : V1.User) :
  is_asc o' = negb (is_asc o) ->
  V1.compareUsers k o' a b = - V1.compareUsers k o a b.
Proof. intros H. rewrite !V1_compare_by_key, H. apply by_key_flip. Qed.

Lemma V2_compare_flip (k : string) (o o' : option string) (a b : V2.Item) :
  is_asc o' = negb (is_asc o) ->
  V2.compareItems k o' a b = - V2.compareItems k o a b.
Proof.
  intros H. destruct (String.eqb_spec k "createdAt") as [-> | Hk].
  - rewrite !V2_compare_createdAt, H. destruct (is_asc o); simpl; lia.
  - rewrite !V2_compare_text, H by assumption. apply by_key_flip.
Qed.

Lemma V1_tie_any_direction (k : string) (o o' : option string) (a b : V1.User) :
  tie (V1.compareUsers k o) a b = tie (V1.compareUsers k o') a b.
Proof.
  unfold tie. destruct (Bool.bool_dec (is_asc o') (is_asc o)) as [He|Hne].
  - now rewrite !V1_compare_by_key, He.
  - rewrite (V1_compare_flip k o o') by (destruct (is_asc o), (is_asc o'); simpl; congruence).
    destruct (Z.eqb_spec (V1.compareUsers k o a b) 0), (Z.eqb_spec (- V1.compareUsers k o a b) 0);
      lia || reflexivity.
Qed.

Lemma V2_tie_any_direction (k : string) (o o' : option string) (a b : V2.Item) :
  tie (V2.compareItems k o) a b = tie (V2.compareItems k o') a b.
Proof.
  unfold tie. destruct (Bool.bool_dec (is_asc o') (is_asc o)) as [He|Hne].
  - destruct (String.eqb_spec k "createdAt") as [-> | Hk].
    + now rewrite !V2_compare_createdAt, He.
    + now rewrite !V2_compare_text, He by assumption.
  - rewrite (V2_compare_flip k o o') by (destruct (is_asc o), (is_asc o'); simpl; congruence).
    destruct (Z.eqb_spec (V2.compareItems k o a b) 0), (Z.eqb_spec (- V2.compareItems k o a b) 0);
      lia || reflexivity.
Qed.

(** C6. In both variants the sort step rearranges the filtered records into
    an order the comparator accepts and is stable: the records that tie with
    any given record keep the order they had.  The comparator orders the text
    fields by their lower-case form and creation times chronologically (in
    variant 1 through the ISO text of an instant of the years 1970 to 9999, in
    variant 2 through the difference of the two numbers).  Direction [desc]
    negates the comparator and leaves the ties, hence the tie-break order, as
    they are. *)
Theorem sort_step_is_stable :
  (forall st : V1.State,
      let c := V1.compareUsers (fst (split_sort (V1.sortBy st)))
                               (snd (split_sort (V1.sortBy st))) in
      let input := List.filter (V1.matches (V1.searchQuery st)) (V1.users st) in
      let out := V1.filterAndSort st in
      Permutation out input /\
      StronglySorted (fun a b => c a b <= 0) out /\
      forall x, List.filter (tie c x) out = List.filter (tie c x) input) /\
  (forall st : V2.State,
      let c := V2.compareItems (fst (split_sort (V2.sort st)))
                               (snd (split_sort (V2.sort st))) in
      let input := List.filter (V2.keep (JsString.toLowerCase (JsString.trim (V2.query st))))
                               (V2.items st) in
      let out := V2.queryAndSort st (V2.items st) in
      Permutation out input /\
      StronglySorted (fun a b => c a b <= 0) out /\
      forall x, List.filter (tie c x) out = List.filter (tie c x) input) /\
  (forall (o : option string) (a b : V1.User),
      V1.compareUsers "name" o a b =
        signed (is_asc o) (String.compare (JsString.toLowerCase (V1.name a))
                                          (JsString.toLowerCase (V1.name b))) /\
      V1.compareUsers "email" o a b =
        signed (is_asc o) (String.compare (JsString.toLowerCase (V1.email a))
                                          (JsString.toLowerCase (V1.email b))) /\
      V1.compareUsers "role" o a b =
        signed (is_asc o) (String.compare (JsString.toLowerCase (V1.role a))
                                          (JsString.toLowerCase (V1.role b)))) /\
  (forall (o : option string) (a b : V1.User) (ta tb : Z),
      0 <= ta < year10000 -> 0 <= tb < year10000 ->
      V1.createdAt a = JsDate.toISOString ta -> V1.createdAt b = JsDate.toISOString tb ->
      V1.compareUsers "createdAt" o a b = signed (is_asc o) (ta ?= tb)) /\
  (forall (o : option string) (a b : V2.Item),
      V2.compareItems "name" o a b =
        signed (is_asc o) (String.compare (JsString.toLowerCase (V2.name a))
                                          (JsString.toLowerCase (V2.name b))) /\
      V2.compareItems "email" o a b =
        signed (is_asc o) (String.compare (JsString.toLowerCase (V2.email a))
                                          (JsString.toLowerCase (V2.email b))) /\
      V2.compareItems "role" o a b =
        signed (is_asc o) (String.compare (JsString.toLowerCase (V2.role a))
                                          (JsString.toLowerCase (V2.role b)))) /\
  (forall (o : option string) (a b : V2.Item),
      Z.sgn (V2.compareItems "createdAt" o a b) =
      signed (is_asc o) (V2.createdAt a ?= V2.createdAt b)) /\
  (forall (k : string) (a b : V1.User),
      V1.compareUsers k (Some "desc") a b = - V1.compareUsers k (Some "asc") a b /\
      tie (V1.compareUsers k (Some "desc")) a b = tie (V1.compareUsers k (Some "asc")) a b) /\
  (forall (k : string) (a b : V2.Item),
      V2.compareItems k (Some "desc") a b = - V2.compareItems k (Some "asc") a b /\
      tie (V2.compareItems k (Some "desc")) a b = tie (V2.compareItems k (Some "asc")) a b).
Proof.
  repeat apply conj.
  - intros st c input out. subst out. rewrite V1_filterAndSort_eq. fold c input.
    pose proof (V1_compare_consistent (fst (split_sort (V1.sortBy st)))
                  (snd (split_sort (V1.sortBy st)))) as Hc. fold c in Hc.
    split; [apply sort_perm|]. split; [now apply sort_sorted|].
    intros x. now apply sort_stable.
  - intros st c input out. subst out. rewrite V2_queryAndSort_eq. fold c input.
    pose proof (V2_compare_consistent (fst (split_sort (V2.sort st)))
                  (snd (split_sort (V2.sort st)))) as Hc. fold c in Hc.
    split; [apply sort_perm|]. split; [now apply sort_sorted|].
    intros x. now apply sort_stable.
  - intros o a b. destruct (V1_compare_text o a b) as (H1 & H2 & H3 & _). auto.
  - intros o a b ta tb. apply V1_compare_createdAt.
  - apply V2_compare_text_fields.
  - apply V2_compare_createdAt_sgn.
  - intros k a b. split; [now apply V1_compare_flip | apply V1_tie_any_direction].
  - intros k a b. split; [now apply V2_compare_flip | apply V2_tie_any_direction].
Qed.

Lemma sort_step_is_stable_witness :
  (0 <= 1700000000000 < year10000 /\ 0 <= 1700000000001 < year10000 /\
   V1.createdAt early_user = JsDate.toISOString 1700000000000 /\
   V1.createdAt late_user = JsDate.toISOString 1700000000001) /\
  V1.compareUsers "createdAt" (Some "desc") early_user late_user =
  signed (is_asc (Some "desc")) (1700000000000 ?= 1700000000001).
Proof.
  assert (H1 : 0 <= 1700000000000 < year10000) by (unfold year10000; lia).
  assert (H2 : 0 <= 1700000000001 < year10000) by (unfold year10000; lia).
  split; [repeat split; try apply H1; try apply H2|].
  destruct sort_step_is_stable as (_ & _ & _ & H & _).
  exact (H (Some "desc") early_user late_user _ _ H1 H2 eq_refl eq_refl).
Defined.

(** Two records whose names differ in letter case only tie under the name
    key and keep their order, whichever the direction. *)
Example stable_sort_scenario :
  JsArray.sort (V1.compareUsers "name" (Some "asc")) [late_user; rahim1; early_user]
    = [late_user; early_user; rahim1] /\
  JsArray.sort (V1.compareUsers "name" (Some "desc")) [late_user; rahim1; early_user]
    = [rahim1; late_user; early_user] /\
  JsArray.sort (V1.compareUsers "createdAt" (Some "desc")) [early_user; late_user]
    = [late_user; early_user].
Proof. vm_compute. repeat split; reflexivity. Qed.

(** ** Minting and copying *)

(** A clock reading later than every live id is carried by no live record. *)
Lemma later_reading_is_fresh (now : Z) (st : V1.State) :
  (forall i, In i (V1_ids st) -> i < now) -> ~ In now (V1_ids st).
Proof. intros H Hin. specialize (H now Hin). lia. Qed.





Lemma delete_family_prunes_store_and_selection_witness :
  let st := V1.set_selectedIds {[ 1700000000000 ]} (V1.init [rahim1; late_user] 5 "name:asc") in
  1700000000000 ∈ V1.selectedIds st /\
  (forall u, In u (V1.users (V1.onBulkDelete true st)) -> V1.id u <> 1700000000000) /\
  1700000000000 ∉ V1.selectedIds (V1.onBulkDelete true st).
Proof.
  assert (H : 1700000000000 ∈ V1.selectedIds
                (V1.set_selectedIds {[ 1700000000000 ]} (V1.init [rahim1; late_user] 5 "name:asc")))
    by (cbn [V1.selectedIds V1.set_selectedIds]; apply elem_of_singleton; reflexivity).
  split; [exact H|].
  exact (proj1 (proj2 delete_family_prunes_store_and_selection) _ _ H).
Defined.

(** *** The stably sorted permutation is unique

    Whatever algorithm the engine runs, a result that is in comparator order
    and keeps every class of tying records in its input order is the list
    computed by [JsArray.sort]. *)

Section StableUnique.
Context {A : Type} (cmp : A -> A -> Z).
Hypothesis Hc : consistent cmp.

Lemma cmp_refl (a : A) : cmp a a = 0.
Proof. pose proof (cmp_swap Hc a a). lia. Qed.

Lemma tie_refl (a : A) : tie cmp a a = true.
Proof. unfold tie. now rewrite cmp_refl. Qed.

Lemma tie_filter_tail (x a : A) (t1 t2 : list A) :
  List.filter (tie cmp x) (a :: t1) = List.filter (tie cmp x) (a :: t2) ->
  List.filter (tie cmp x) t1 = List.filter (tie cmp x) t2.
Proof. cbn [List.filter]. destruct (tie cmp x a); congruence. Qed.

Lemma filter_head_In (p : A -> bool) (l k : list A) (a : A) :
  List.filter p l = a :: k -> In a l.
Proof.
  intros H. assert (Hin : In a (List.filter p l)) by (rewrite H; now left).
  now apply filter_In in Hin.
Qed.

Lemma stable_sorted_unique (l1 l2 : list A) :
  StronglySorted (fun a b => cmp a b <= 0) l1 ->
  StronglySorted (fun a b => cmp a b <= 0) l2 ->
  (forall x, List.filter (tie cmp x) l1 = List.filter (tie cmp x) l2) ->
  l1 = l2.
Proof.
  intros H1; revert l2; induction H1 as [|a t1 Hs1 IH Ha]; intros l2 H2 Hf.
  - destruct l2 as [|b t2]; [reflexivity|].
    specialize (Hf b). cbn [List.filter] in Hf.
    rewrite tie_refl in Hf. discriminate Hf.
  - destruct H2 as [|b t2 Hs2 Hb].
    + specialize (Hf a). cbn [List.filter] in Hf.
      rewrite tie_refl in Hf. discriminate Hf.
    + assert (Hab : a = b).
      { pose proof (Hf a) as Hfa. pose proof (Hf b) as Hfb.
        cbn [List.filter] in Hfa, Hfb.
        rewrite tie_refl in Hfa. rewrite tie_refl in Hfb.
        destruct (tie cmp a b) eqn:Htab; [congruence|].
        destruct (tie cmp b a) eqn:Htba.
        { apply Z.eqb_eq in Htba. apply (tie_sym cmp Hc) in Htba.
          apply Z.eqb_neq in Htab. contradiction. }
        symmetry in Hfa. apply filter_head_In in Hfa. apply filter_head_In in Hfb.
        rewrite List.Forall_forall in Ha, Hb.
        specialize (Ha b Hfb). specialize (Hb a Hfa).
        pose proof (cmp_swap Hc a b). apply Z.eqb_neq in Htab. lia. }
      subst b. f_equal. apply IH; [assumption|].
      intros x. eapply tie_filter_tail, Hf.
Qed.

Lemma sort_is_the_stable_sort (l l' : list A) :
  StronglySorted (fun a b => cmp a b <= 0) l' ->
  (forall x, List.filter (tie cmp x) l' = List.filter (tie cmp x) l) ->
  l' = JsArray.sort cmp l.
Proof.
  intros Hs Hf. apply stable_sorted_unique; [assumption | now apply sort_sorted |].
  intros x. now rewrite Hf, sort_stable.
Qed.

End StableUnique.

(** ** The email shape *)

Lemma append_nil_r (s : string) : s +:+ EmptyString = s.
Proof. induction s as [|c s IH]; [reflexivity|]. now rewrite append_cons, IH. Qed.

Lemma append_assoc (a b c : string) : (a +:+ b) +:+ c = a +:+ (b +:+ c).
Proof. induction a as [|x a IH]; [reflexivity|]. now rewrite !append_cons, IH. Qed.

Lemma append_empty (a b : string) : a +:+ b = EmptyString -> a = EmptyString /\ b = EmptyString.
Proof. destruct a; [now rewrite append_nil_l | rewrite append_cons; discriminate]. Qed.

Lemma nullable_spec (r : Regex.regex) : Regex.nullable r = true <-> lang r EmptyString.
Proof.
  induction r as [| |p|r1 IH1 r2 IH2|r1 IH1 r2 IH2|r IH]; simpl.
  - split; [discriminate | inversion 1].
  - split; [constructor | reflexivity].
  - split; [discriminate | inversion 1].
  - rewrite andb_true_iff, IH1, IH2. split.
    + intros [H1 H2]. change EmptyString with (EmptyString +:+ EmptyString). now constructor.
    + inversion 1 as [| |? ? s1 s2 H1 H2 Heq| | | |]; subst.
      apply append_empty in H3 as [-> ->]. now split.
  - rewrite orb_true_iff, IH1, IH2. split.
    + intros [H|H]; [now apply lang_alt_l | now apply lang_alt_r].
    + inversion 1; subst; tauto.
  - split; [constructor | reflexivity].
Qed.

Lemma lang_star_cons_char (r : Regex.regex) (c : ascii) (s : string) :
  lang (Regex.Star r) (String c s) ->
  exists s1 s2, s = s1 +:+ s2 /\ lang r (String c s1) /\ lang (Regex.Star r) s2.
Proof.
  intros H. remember (Regex.Star r) as r' eqn:Hr. remember (String c s) as t eqn:Ht.
  induction H as [| | | | | |r0 s1 s2 H1 _ H2 IH2]; try discriminate.
  injection Hr as ->. destruct s1 as [|d s1].
  - rewrite append_nil_l in Ht. now apply IH2.
  - rewrite append_cons in Ht. injection Ht as -> <-. exists s1, s2. auto.
Qed.

Lemma deriv_spec (r : Regex.regex) (c : ascii) (s : string) :
  lang (Regex.deriv c r) s <-> lang r (String c s).
Proof.
  revert s; induction r as [| |p|r1 IH1 r2 IH2|r1 IH1 r2 IH2|r IH]; intros s; simpl.
  - split; inversion 1.
  - split; inversion 1.
  - destruct (p c) eqn:Hp; split.
    + inversion 1; subst. now constructor.
    + inversion 1; subst. constructor.
    + inversion 1.
    + inversion 1; subst. congruence.
  - assert (Hseq : lang (Regex.Seq (Regex.deriv c r1) r2) s ->
                   lang (Regex.Seq r1 r2) (String c s)).
    { inversion 1 as [| |? ? s1 s2 H1 H2| | | |]; subst.
      rewrite <- append_cons. constructor; [now apply IH1 | assumption]. }
    assert (Hinv : lang (Regex.Seq r1 r2) (String c s) ->
                   lang (Regex.Seq (Regex.deriv c r1) r2) s \/
                   (lang r1 EmptyString /\ lang r2 (String c s))).
    { inversion 1 as [| |? ? s1 s2 H1 H2 Heq| | | |]; subst.
      destruct s1 as [|d s1].
      - rewrite append_nil_l in H3. subst s2. now right.
      - rewrite append_cons in H3. injection H3 as -> <-.
        left. constructor; [now apply IH1 | assumption]. }
    destruct (Regex.nullable r1) eqn:Hn.
    + split.
      * inversion 1; subst; [now apply Hseq|].
        rewrite <- (append_nil_l (String c s)). constructor;
          [now apply nullable_spec | now apply IH2].
      * intros H. apply Hinv in H as [H | [_ H]];
          [now apply lang_alt_l | apply lang_alt_r; now apply IH2].
    + split; [exact Hseq|].
      intros H. apply Hinv in H as [H | [H _]]; [exact H|].
      apply nullable_spec in H. congruence.
  - split.
    + inversion 1; subst; [apply lang_alt_l; now apply IH1 | apply lang_alt_r; now apply IH2].
    + inversion 1; subst; [apply lang_alt_l; now apply IH1 | apply lang_alt_r; now apply IH2].
  - split.
    + inversion 1 as [| |? ? s1 s2 H1 H2| | | |]; subst.
      rewrite <- append_cons. constructor; [now apply IH | assumption].
    + intros H. apply lang_star_cons_char in H as (s1 & s2 & -> & H1 & H2).
      constructor; [now apply IH | assumption].
Qed.

(** [Regex.test] decides membership in the language. *)
Lemma test_spec (r : Regex.regex) (s : string) : Regex.test r s = true <-> lang r s.
Proof.
  revert r; induction s as [|c s IH]; intros r; simpl.
  - apply nullable_spec.
  - rewrite IH. apply deriv_spec.
Qed.

Lemma lang_seq_inv (r1 r2 : Regex.regex) (s : string) :
  lang (Regex.Seq r1 r2) s <-> exists s1 s2, s = s1 +:+ s2 /\ lang r1 s1 /\ lang r2 s2.
Proof.
  split.
  - inversion 1; subst; eauto.
  - intros (s1 & s2 & -> & H1 & H2). now constructor.
Qed.

Lemma lang_chr (a : ascii) (s : string) :
  lang (Regex.chr a) s <-> s = String a EmptyString.
Proof.
  unfold Regex.chr. split.
  - inversion 1 as [|p c Hp| | | | |]; subst. apply Ascii.eqb_eq in Hp. now subst.
  - intros ->. constructor. apply Ascii.eqb_refl.
Qed.

Lemma lang_star_class (p : ascii -> bool) (w : string) :
  lang (Regex.Star (Regex.Class p)) w <-> all_chars p w = true.
Proof.
  split.
  - intros H. remember (Regex.Star (Regex.Class p)) as r eqn:Hr.
    induction H as [| | | | | |r0 s1 s2 H1 _ _ IH2]; try discriminate; [reflexivity|].
    injection Hr as ->. inversion H1 as [|q c Hc| | | | |]; subst.
    rewrite append_cons, append_nil_l. cbn [all_chars]. rewrite Hc. now apply IH2.
  - induction w as [|c w IH]; cbn [all_chars]; intros H; [constructor|].
    apply andb_true_iff in H as [Hc Hw].
    change (String c w) with (String c EmptyString +:+ w).
    constructor; [now constructor | now apply IH].
Qed.

Lemma lang_plus_class (p : ascii -> bool) (w : string) :
  lang (Regex.Plus (Regex.Class p)) w <-> w <> EmptyString /\ all_chars p w = true.
Proof.
  unfold Regex.Plus. rewrite lang_seq_inv. split.
  - intros (s1 & s2 & -> & H1 & H2). inversion H1 as [|q c Hc| | | | |]; subst.
    rewrite append_cons, append_nil_l. split; [discriminate|].
    cbn [all_chars]. rewrite Hc. now apply lang_star_class.
  - intros [Hne H]. destruct w as [|c w]; [congruence|].
    cbn [all_chars] in H. apply andb_true_iff in H as [Hc Hw].
    exists (String c EmptyString), w. repeat split; [now constructor|].
    now apply lang_star_class.
Qed.

(** X21. The test of line 604 accepts exactly the texts made of three non-empty
    parts free of at signs and white space, the first two joined by an at
    sign and the last two by a dot. *)
Lemma validateEmail_shape (v : string) :
  V2.validateEmail v = true <->
  exists a b c, v = a +:+ "@" +:+ b +:+ "." +:+ c /\
                email_part a /\ email_part b /\ email_part c.
Proof.
  unfold V2.validateEmail, email_part. rewrite test_spec. split.
  - intros H.
    apply lang_seq_inv in H as (a & r1 & -> & Ha & H).
    apply lang_seq_inv in H as (x & r2 & -> & Hx & H).
    apply lang_seq_inv in H as (b & r3 & -> & Hb & H).
    apply lang_seq_inv in H as (y & c & -> & Hy & Hc).
    apply lang_chr in Hx, Hy. subst x y.
    apply lang_plus_class in Ha, Hb, Hc.
    exists a, b, c. repeat split; tauto.
  - intros (a & b & c & -> & Ha & Hb & Hc).
    apply lang_plus_class in Ha, Hb, Hc.
    constructor; [exact Ha|].
    constructor; [now apply lang_chr|].
    constructor; [exact Hb|].
    constructor; [now apply lang_chr | exact Hc].
Qed.

(** ** The fuel of the JSON parser *)

Lemma skip_ws_length (s : list ascii) : (length (Json.skip_ws s) <= length s)%nat.
Proof.
  induction s as [|c s IH]; simpl; [lia|]. destruct (Json.is_ws c); simpl; lia.
Qed.

Lemma skip_ws_cons_length (s r : list ascii) (c : ascii) :
  Json.skip_ws s = c :: r -> (length r < length s)%nat.
Proof. intros H. pose proof (skip_ws_length s) as Hl. rewrite H in Hl. simpl in Hl. lia. Qed.

Lemma expect_length (lit s r : list ascii) :
  Json.expect lit s = Some r -> (length r <= length s)%nat.
Proof.
  revert s; induction lit as [|a lit IH]; intros [|c s]; simpl; intros H;
    try discriminate; try (injection H as <-; simpl; lia).
  destruct (Ascii.eqb a c); [|discriminate]. apply IH in H. lia.
Qed.

Lemma span_digits_length (s ds r : list ascii) :
  Json.span_digits s = (ds, r) -> (length ds + length r = length s)%nat.
Proof.
  revert ds r; induction s as [|c s IH]; simpl; intros ds r H.
  - injection H as <- <-. reflexivity.
  - destruct (Json.is_digit c).
    + destruct (Json.span_digits s) as [ds' r'] eqn:Hs. injection H as <- <-.
      specialize (IH _ _ eq_refl). simpl. lia.
    + injection H as <- <-. reflexivity.
Qed.

Lemma parse_chars_length (s r : list ascii) (us : list N) :
  Json.parse_chars s = Some (us, r) -> (length r < length s)%nat.
Proof.
  remember (length s) as n eqn:Hn. revert s us r Hn.
  induction n as [n IH] using lt_wf_ind. intros s us r Hn H.
  destruct s as [|c s]; [discriminate|]. simpl in Hn. cbn [Json.parse_chars] in H.
  destruct (Ascii.eqb c Json.dquote); [injection H as _ <-; lia|].
  destruct (Ascii.eqb c "\").
  - destruct s as [|e r1]; [discriminate|]. simpl in Hn.
    assert (Hsimple : forall u,
      match Json.parse_chars r1 with
      | Some (us0, r') => Some (u :: us0, r')
      | None => None
      end = Some (us, r) -> (length r < n)%nat).
    { intros u Hu. destruct (Json.parse_chars r1) as [[us0 r']|] eqn:Hp; [|discriminate].
      injection Hu as _ <-. apply (IH (length r1)) in Hp; [lia | lia | reflexivity]. }
    repeat (match type of H with
            | (if ?b then _ else _) = _ => destruct b; [now apply Hsimple in H|]
            end).
    destruct (Ascii.eqb e "u"); [|discriminate].
    destruct r1 as [|h1 [|h2 [|h3 [|h4 r2]]]]; try discriminate.
    destruct (Json.hex_value h1), (Json.hex_value h2), (Json.hex_value h3),
      (Json.hex_value h4); try discriminate.
    destruct (Json.parse_chars r2) as [[us0 r']|] eqn:Hp; [|discriminate].
    injection H as _ <-. simpl in Hn.
    apply (IH (length r2)) in Hp; [lia | lia | reflexivity].
  - destruct (N_of_ascii c <? 32)%N; [discriminate|].
    destruct (Json.parse_chars s) as [[us0 r']|] eqn:Hp; [|discriminate].
    injection H as _ <-. apply (IH (length s)) in Hp; [lia | lia | reflexivity].
Qed.

Lemma parse_number_length (s r : list ascii) (v : Json.value) :
  Json.parse_number s = Some (v, r) -> (length r < length s)%nat.
Proof.
  unfold Json.parse_number.
  set (neg_s1 := match s with
                 | c :: r0 => if Ascii.eqb c "-" then (true, r0) else (false, s)
                 | [] => (false, s)
                 end).
  assert (H1 : (length (snd neg_s1) <= length s)%nat).
  { subst neg_s1. destruct s as [|c r0]; [simpl; lia|].
    destruct (Ascii.eqb c "-"); simpl; lia. }
  destruct neg_s1 as [neg s1]. simpl in H1.
  destruct (Json.span_digits s1) as [ip s2] eqn:Hip.
  apply span_digits_length in Hip.
  destruct ip as [|d ip]; [discriminate|]. simpl in Hip.
  match goal with |- (if ?b then _ else _) = _ -> _ => destruct b; [discriminate|] end.
  match goal with
  | |- match ?f with _ => _ end = _ -> _ => destruct f as [[fp s3]|] eqn:Hf; [|discriminate]
  end.
  assert (H3 : (length s3 <= length s2)%nat).
  { revert Hf. destruct s2 as [|c r0]; [intros H; injection H as _ <-; lia|].
    destruct (Ascii.eqb c ".").
    - destruct (Json.span_digits r0) as [fp' s3'] eqn:Hfp.
      apply span_digits_length in Hfp. destruct fp'; [discriminate|].
      intros H; injection H as _ <-. simpl in *. lia.
    - intros H; injection H as _ <-. lia. }
  clear Hf.
  match goal with
  | |- match ?f with _ => _ end = _ -> _ => destruct f as [[e s4]|] eqn:He; [|discriminate]
  end.
  assert (H4 : (length s4 <= length s3)%nat).
  { revert He. destruct s3 as [|c r0]; [intros H; injection H as _ <-; lia|].
    destruct (_ || _); [|intros H; injection H as _ <-; lia].
    set (er := match r0 with
               | d0 :: r1 =>
                   if Ascii.eqb d0 "-" then (true, r1)
                   else if Ascii.eqb d0 "+" then (false, r1)
                   else (false, r0)
               | [] => (false, r0)
               end).
    assert (Her : (length (snd er) <= length r0)%nat).
    { subst er. destruct r0 as [|d0 r1]; [simpl; lia|].
      destruct (Ascii.eqb d0 "-"); [simpl; lia|].
      destruct (Ascii.eqb d0 "+"); simpl; lia. }
    destruct er as [eneg r']. simpl in Her.
    destruct (Json.span_digits r') as [ep s4'] eqn:Hep.
    apply span_digits_length in Hep. destruct ep; [discriminate|].
    intros H; injection H as _ <-. simpl in *. lia. }
  intros H; injection H as _ <-. lia.
Qed.

Lemma option_map_pair_length {A : Type} (a : A) (o : option (list ascii)) (s : list ascii)
    (r : list ascii) (v : A) :
  (forall r', o = Some r' -> (length r' <= length s)%nat) ->
  option_map (pair a) o = Some (v, r) -> (length r <= length s)%nat.
Proof. intros Ho H. destruct o as [r'|]; [|discriminate]. injection H as _ <-. auto. Qed.

Lemma parse_lengths (fuel : nat) :
  (forall s v r, Json.parse_value fuel s = Some (v, r) -> (length r < length s)%nat) /\
  (forall s vs r, Json.parse_elements fuel s = Some (vs, r) -> (length r < length s)%nat) /\
  (forall s ms r, Json.parse_members fuel s = Some (ms, r) -> (length r < length s)%nat).
Proof.
  induction fuel as [|fuel (IHv & IHe & IHm)]; [repeat split; discriminate|].
  repeat apply conj.
  - intros s v r. cbn [Json.parse_value].
    destruct (Json.skip_ws s) as [|c r0] eqn:Hs; [discriminate|].
    apply skip_ws_cons_length in Hs.
    repeat match goal with
           | |- (if ?b then option_map _ (Json.expect ?lit r0) else _) = _ -> _ =>
               destruct b;
               [intros H; apply (option_map_pair_length _ _ r0) in H;
                [lia | intros r' Hr'; now apply expect_length in Hr'] |]
           end.
    destruct (Ascii.eqb c Json.dquote).
    { destruct (Json.parse_chars r0) as [[us r']|] eqn:Hp; [|discriminate].
      apply parse_chars_length in Hp. intros H; injection H as _ <-. lia. }
    destruct (Ascii.eqb c "[").
    { destruct (Json.skip_ws r0) as [|d r'] eqn:Hs'; [discriminate|].
      apply skip_ws_cons_length in Hs'.
      destruct (Ascii.eqb d "]"); [intros H; injection H as _ <-; lia|].
      destruct (Json.parse_elements fuel r0) as [[vs r'']|] eqn:Hp; [|discriminate].
      apply IHe in Hp. intros H; injection H as _ <-. lia. }
    destruct (Ascii.eqb c "{").
    { destruct (Json.skip_ws r0) as [|d r'] eqn:Hs'; [discriminate|].
      apply skip_ws_cons_length in Hs'.
      destruct (Ascii.eqb d "}"); [intros H; injection H as _ <-; lia|].
      destruct (Json.parse_members fuel r0) as [[ms r'']|] eqn:Hp; [|discriminate].
      apply IHm in Hp. intros H; injection H as _ <-. lia. }
    destruct (_ || _); [|discriminate].
    intros H. apply parse_number_length in H.
    pose proof (skip_ws_length s). simpl in H. lia.
  - intros s vs r. cbn [Json.parse_elements].
    destruct (Json.parse_value fuel s) as [[v r0]|] eqn:Hp; [|discriminate].
    apply IHv in Hp.
    destruct (Json.skip_ws r0) as [|c r'] eqn:Hs; [discriminate|].
    apply skip_ws_cons_length in Hs.
    destruct (Ascii.eqb c ",").
    { destruct (Json.parse_elements fuel r') as [[vs' r'']|] eqn:Hp'; [|discriminate].
      apply IHe in Hp'. intros H; injection H as _ <-. lia. }
    destruct (Ascii.eqb c "]"); [|discriminate].
    intros H; injection H as _ <-. lia.
  - intros s ms r. cbn [Json.parse_members].
    destruct (Json.skip_ws s) as [|q r0] eqn:Hs; [discriminate|].
    apply skip_ws_cons_length in Hs.
    destruct (Ascii.eqb q Json.dquote); [|discriminate].
    destruct (Json.parse_chars r0) as [[k r1]|] eqn:Hk; [|discriminate].
    apply parse_chars_length in Hk.
    destruct (Json.skip_ws r1) as [|c r2] eqn:Hs1; [discriminate|].
    apply skip_ws_cons_length in Hs1.
    destruct (Ascii.eqb c ":"); [|discriminate].
    destruct (Json.parse_value fuel r2) as [[v r3]|] eqn:Hp; [|discriminate].
    apply IHv in Hp.
    destruct (Json.skip_ws r3) as [|d r4] eqn:Hs3; [discriminate|].
    apply skip_ws_cons_length in Hs3.
    destruct (Ascii.eqb d ",").
    { destruct (Json.parse_members fuel r4) as [[ms' r5]|] eqn:Hp'; [|discriminate].
      apply IHm in Hp'. intros H; injection H as _ <-. lia. }
    destruct (Ascii.eqb d "}"); [|discriminate].
    intros H; injection H as _ <-. lia.
Qed.

(** Beyond twice the length of the text, more fuel changes nothing. *)
Lemma parse_fuel (fuel : nat) :
  (forall s fuel', (2 * length s + 1 <= fuel)%nat -> (fuel <= fuel')%nat ->
     Json.parse_value fuel' s = Json.parse_value fuel s) /\
  (forall s fuel', (2 * length s + 2 <= fuel)%nat -> (fuel <= fuel')%nat ->
     Json.parse_elements fuel' s = Json.parse_elements fuel s) /\
  (forall s fuel', (2 * length s + 2 <= fuel)%nat -> (fuel <= fuel')%nat ->
     Json.parse_members fuel' s = Json.parse_members fuel s).
Proof.
  induction fuel as [|fuel (IHv & IHe & IHm)]; [repeat split; intros; lia|].
  repeat apply conj.
  - intros s [|fuel'] Hs Hf; [lia|]. cbn [Json.parse_value].
    destruct (Json.skip_ws s) as [|c r0] eqn:Hw; [reflexivity|].
    apply skip_ws_cons_length in Hw.
    rewrite (IHe r0 fuel'), (IHm r0 fuel') by lia. reflexivity.
  - intros s [|fuel'] Hs Hf; [lia|]. cbn [Json.parse_elements].
    rewrite (IHv s fuel') by lia.
    destruct (Json.parse_value fuel s) as [[v r0]|] eqn:Hp; [|reflexivity].
    apply (proj1 (parse_lengths fuel)) in Hp.
    destruct (Json.skip_ws r0) as [|c r'] eqn:Hw; [reflexivity|].
    apply skip_ws_cons_length in Hw.
    rewrite (IHe r' fuel') by lia. reflexivity.
  - intros s [|fuel'] Hs Hf; [lia|]. cbn [Json.parse_members].
    destruct (Json.skip_ws s) as [|q r0] eqn:Hw; [reflexivity|].
    apply skip_ws_cons_length in Hw.
    destruct (Ascii.eqb q Json.dquote); [|reflexivity].
    destruct (Json.parse_chars r0) as [[k r1]|] eqn:Hk; [|reflexivity].
    apply parse_chars_length in Hk.
    destruct (Json.skip_ws r1) as [|c r2] eqn:Hw1; [reflexivity|].
    apply skip_ws_cons_length in Hw1.
    destruct (Ascii.eqb c ":"); [|reflexivity].
    rewrite (IHv r2 fuel') by lia.
    destruct (Json.parse_value fuel r2) as [[v r3]|] eqn:Hp; [|reflexivity].
    apply (proj1 (parse_lengths fuel)) in Hp.
    destruct (Json.skip_ws r3) as [|d r4] eqn:Hw3; [reflexivity|].
    apply skip_ws_cons_length in Hw3.
    rewrite (IHm r4 fuel') by lia. reflexivity.
Qed.

(** The fuel [Json.parse] hands out is enough: no larger amount changes the
    result. *)
Lemma parse_fuel_enough (text : string) (fuel : nat) :
  let s := list_ascii_of_string text in
  (2 * length s + 2 <= fuel)%nat ->
  Json.parse_value fuel s = Json.parse_value (2 * length s + 2) s.
Proof. intros s H. apply (proj1 (parse_fuel (2 * length s + 2))); lia. Qed.

(** ** The page cursor never drops below 1 *)

Lemma V2_rendered_page_ge_1 (st : V2.State) :
  1 <= V2.page st -> 1 <= V2.page (V2.rendered st).
Proof.
  intros H. rewrite V2_rendered_page. pose proof (V2_pages_ge_1 st). lia.
Qed.

Lemma V2_handle_page_ge_1 (e : V2.Event) (st : V2.State) :
  1 <= V2.page st -> 1 <= V2.page (V2.handle e st).
Proof.
  intros H. destruct e; cbn [V2.handle].
  - unfold V2.onSubmit. destruct (_ || _); [exact H|].
    now apply V2_rendered_page_ge_1.
  - apply V2_rendered_page_ge_1. simpl. lia.
  - apply V2_rendered_page_ge_1. simpl. lia.
  - now apply V2_rendered_page_ge_1.
  - unfold V2.onPrev. destruct (Z.ltb_spec 1 (V2.page st)); [|exact H].
    apply V2_rendered_page_ge_1. simpl. lia.
  - unfold V2.onNext. destruct (_ <? _); [|exact H].
    apply V2_rendered_page_ge_1. simpl. lia.
  - unfold V2.onDelete. destruct (negb _); [exact H|]. destruct confirmed; [|exact H].
    now apply V2_rendered_page_ge_1.
  - unfold V2.onEdit, V2.openEdit. destruct (negb _); [exact H|]. now destruct (find _ _).
  - exact H.
  - unfold V2.onEditSubmit. destruct (V2.editingId st) as [i|]; [|exact H].
    destruct (negb (JsString.truthy i)); [exact H|]. destruct (_ || _); [exact H|].
    cbn [fst]. unfold V2.updateItem. destruct (V2.assignFirst _ _ _ _ _); [|exact H].
    change (1 <= V2.page (V2.rendered (V2.save (V2.set_items l st)))).
    now apply V2_rendered_page_ge_1.
  - exact H.
  - now apply V2_rendered_page_ge_1.
  - now apply V2_rendered_page_ge_1.
  - unfold V2.bulkDelete. destruct (negb _); [exact H|]. now apply V2_rendered_page_ge_1.
  - unfold V2.onClearAll. destruct (negb _); [exact H|]. now apply V2_rendered_page_ge_1.
Qed.

(** In variant 2 every state reached from the initial one has its cursor at
    1 or above, so that [render] always shows a page between 1 and the last. *)
Lemma V2_reachable_page_ge_1 (es : list V2.Event) (loaded : list V2.Item) :
  1 <= V2.page (V2.run es (V2.init loaded)).
Proof.
  assert (H : forall st, 1 <= V2.page st -> 1 <= V2.page (V2.run es st)).
  { induction es as [|e es IH]; intros st Hst; [exact Hst|].
    apply IH. now apply V2_handle_page_ge_1. }
  apply H. simpl. lia.
Qed.

(** [render] of variant 1 leaves the cursor alone and shows it as it is. *)
Lemma V1_render_shows_cursor (st : V1.State) :
  V1.pageText (V1.render st) = V1.currentPage st.
Proof. reflexivity. Qed.
Example csv_ex :
  V1.exportCsv (V1.init [] 5 "name:asc") = None /\
  V1.exportCsv (V1.init [rahim1] 5 "name:asc") =
    Some (JsText.join (String JsText.newline EmptyString)
            ["id,name,email,role,createdAt";
             dq "'1700000000000','Rahim','rahim@example.com','admin','2023-11-14T22:13:20.000Z'"]) /\
  V2.exportCSV (V2.init [rahim2]) =
    Returned (JsText.join (String JsText.newline EmptyString)
            [dq "'id','name','email','role','createdAt'";
             dq "'lozf2gw04fzyo8','Rahim','rahim@example.com','admin','2023-11-14T22:13:20.000Z'"]) /\
  csv_decode (JsText.quoteRow ["a,b"; String JsText.dquote "x"; EmptyString]) =
    Some [["a,b"; String JsText.dquote "x"; EmptyString]] /\
  V2.escapeHtml "<b>Tom & Jerry's</b>" = "&lt;b&gt;Tom &amp; Jerry&#39;s&lt;/b&gt;" /\
  unescapeHtml (V2.escapeHtml "<b>Tom &amp; Jerry's</b>") = "<b>Tom &amp; Jerry's</b>".
Proof. repeat split; reflexivity. Qed.

(** ** The CSV export can be read back *)

Lemma push_str_some (s cell : string) (row : list string) (rows : list (list string)) :
  push_str s (Some ((cell :: row) :: rows)) = Some (((s +:+ cell) :: row) :: rows).
Proof.
  induction s as [|c s IH]; [reflexivity|].
  cbn [push_str]. rewrite IH. reflexivity.
Qed.

Lemma csv_scan_cell (s rest : string) :
  csv_scan InCell (JsText.doubleQuotes s +:+ String JsText.dquote rest) =
  push_str s (csv_scan AfterQuote rest).
Proof.
  induction s as [|c s IH].
  - rewrite append_nil_l. cbn [JsText.doubleQuotes csv_scan push_str].
    now rewrite Ascii.eqb_refl.
  - cbn [JsText.doubleQuotes push_str]. destruct (Ascii.eqb c JsText.dquote) eqn:Hc.
    + apply Ascii.eqb_eq in Hc. subst c. rewrite !append_cons.
      cbn [csv_scan]. rewrite !Ascii.eqb_refl. now rewrite IH.
    + rewrite append_cons. cbn [csv_scan]. rewrite Hc. now rewrite IH.
Qed.

Lemma join_one (sep x : string) : JsText.join sep [x] = x.
Proof. reflexivity. Qed.

Lemma join_more (sep x y : string) (l : list string) :
  JsText.join sep (x :: y :: l) = x +:+ sep +:+ JsText.join sep (y :: l).
Proof. reflexivity. Qed.

Lemma quoteRow_one (c : string) : JsText.quoteRow [c] = JsText.quoteCell c.
Proof. reflexivity. Qed.

Lemma quoteRow_more (c c' : string) (cs : list string) :
  JsText.quoteRow (c :: c' :: cs) = JsText.quoteCell c +:+ "," +:+ JsText.quoteRow (c' :: cs).
Proof. reflexivity. Qed.

Lemma csv_scan_quoteCell (c t : string) :
  csv_scan StartCell (JsText.quoteCell c +:+ t) = push_str c (csv_scan AfterQuote t).
Proof.
  unfold JsText.quoteCell. rewrite append_cons. cbn [csv_scan]. rewrite Ascii.eqb_refl.
  now rewrite append_assoc, append_cons, append_nil_l, csv_scan_cell.
Qed.

Lemma csv_scan_row (c : string) (cs : list string) (t : string) (rows : list (list string)) :
  csv_scan AfterQuote t = Some ([EmptyString] :: rows) ->
  csv_scan StartCell (JsText.quoteRow (c :: cs) +:+ t) = Some ((c :: cs) :: rows).
Proof.
  intros Ht. revert c; induction cs as [|c' cs IH]; intros c.
  - rewrite quoteRow_one, csv_scan_quoteCell, Ht, push_str_some.
    now rewrite append_nil_r.
  - rewrite quoteRow_more, !append_assoc, csv_scan_quoteCell.
    rewrite append_cons, append_nil_l. cbn [csv_scan].
    change (Ascii.eqb "," JsText.dquote) with false.
    change (Ascii.eqb "," ",") with true. cbn iota.
    rewrite IH. cbn [new_cell]. rewrite push_str_some. now rewrite append_nil_r.
Qed.

Lemma csv_scan_rows (r : list string) (rs : list (list string)) :
  Forall (fun row => row <> []) (r :: rs) ->
  csv_scan StartCell
    (JsText.join (String JsText.newline EmptyString) (map JsText.quoteRow (r :: rs))) =
  Some (r :: rs).
Proof.
  revert r; induction rs as [|r' rs IH]; intros r Hne.
  - apply Forall_cons in Hne as [Hr _]. destruct r as [|c cs]; [congruence|].
    cbn [map]. rewrite join_one, <- (append_nil_r (JsText.quoteRow (c :: cs))).
    now apply csv_scan_row.
  - apply Forall_cons in Hne as [Hr Hrs]. destruct r as [|c cs]; [congruence|].
    cbn [map]. rewrite join_more, append_cons, append_nil_l.
    apply csv_scan_row. cbn [csv_scan].
    change (Ascii.eqb JsText.newline JsText.dquote) with false.
    change (Ascii.eqb JsText.newline ",") with false.
    rewrite Ascii.eqb_refl. cbn iota.
    change (JsText.quoteRow r' :: map JsText.quoteRow rs) with (map JsText.quoteRow (r' :: rs)).
    rewrite (IH r' Hrs). reflexivity.
Qed.

Lemma quoteRow_starts (c : string) (cs : list string) :
  exists rest, JsText.quoteRow (c :: cs) = String JsText.dquote rest.
Proof.
  destruct cs as [|c' cs].
  - rewrite quoteRow_one. unfold JsText.quoteCell. eauto.
  - rewrite quoteRow_more. unfold JsText.quoteCell. rewrite append_cons. eauto.
Qed.

(** Rows of at least one cell each, quoted and joined as the export
    functions do, are read back as they were. *)
Lemma csv_decode_quoted (rows : list (list string)) :
  Forall (fun row => row <> []) rows ->
  csv_decode (JsText.join (String JsText.newline EmptyString) (map JsText.quoteRow rows)) =
  Some rows.
Proof.
  intros Hne. destruct rows as [|r rs]; [reflexivity|].
  rewrite <- (csv_scan_rows r rs Hne).
  destruct r as [|c cs]; [apply Forall_cons in Hne as [Hr _]; congruence|].
  destruct (quoteRow_starts c cs) as [rest Hrest].
  cbn [map]. destruct rs as [|r' rs].
  - rewrite join_one, Hrest. reflexivity.
  - cbn [map]. rewrite join_more, Hrest, append_cons. reflexivity.
Qed.

(** X1. The export of variant 1 raises its alert instead of producing a
    file when there is no user; otherwise the file is the header line
    followed by text that a reader of quoted CSV turns back into the five
    cells of every user, in order, whatever commas, quotation marks or line
    feeds the fields hold. *)
Theorem V1_exportCsv_reads_back (st : V1.State) :
  (V1.users st = [] -> V1.exportCsv st = None) /\
  (V1.users st <> [] ->
   exists body,
     V1.exportCsv st =
       Some ("id,name,email,role,createdAt" +:+ String JsText.newline body) /\
     csv_decode body = Some (map V1.cells (V1.users st))).
Proof.
  split.
  - intros H. unfold V1.exportCsv. now rewrite H.
  - intros H. unfold V1.exportCsv. destruct (V1.users st) as [|u us] eqn:Hu; [congruence|].
    exists (JsText.join (String JsText.newline EmptyString)
              (map (fun user => JsText.quoteRow (V1.cells user)) (u :: us))).
    split; [reflexivity|].
    rewrite <- (map_map V1.cells JsText.quoteRow). apply csv_decode_quoted.
    apply Forall_map, Forall_forall. intros x _. discriminate.
Qed.

Lemma V1_exportCsv_reads_back_witness :
  V1.users (V1.init [rahim1; late_user] 5 "name:asc") <> [] /\
  exists body,
    V1.exportCsv (V1.init [rahim1; late_user] 5 "name:asc") =
      Some ("id,name,email,role,createdAt" +:+ String JsText.newline body) /\
    csv_decode body = Some (map V1.cells [rahim1; late_user]).
Proof.
  assert (H : V1.users (V1.init [rahim1; late_user] 5 "name:asc") <> []) by discriminate.
  split; [exact H|].
  exact (proj2 (V1_exportCsv_reads_back (V1.init [rahim1; late_user] 5 "name:asc")) H).
Defined.

Lemma V2_itemRows_valid (l : list V2.Item) :
  Forall (fun i => V2.validTime (V2.createdAt i) = true) l ->
  V2.itemRows l =
  Returned (map (fun i => [V2.id i; V2.name i; V2.email i; V2.role i;
                           JsDate.toISOString (V2.createdAt i)]) l).
Proof.
  induction 1 as [|i l Hi _ IH]; [reflexivity|].
  cbn [V2.itemRows map]. unfold V2.cells. now rewrite Hi, IH.
Qed.

Lemma V2_itemRows_thrown (l : list V2.Item) :
  V2.itemRows l = Thrown <-> Exists (fun i => V2.validTime (V2.createdAt i) = false) l.
Proof.
  induction l as [|i l IH]; cbn [V2.itemRows].
  - split; [discriminate | intros H; inversion H].
  - unfold V2.cells. destruct (V2.validTime (V2.createdAt i)) eqn:Hi.
    + destruct (V2.itemRows l) as [rs|].
      * split; [discriminate|]. intros H. apply Exists_cons in H as [H|H]; [congruence|].
        now apply IH in H.
      * split; [|reflexivity]. intros _. apply Exists_cons_tl. now apply IH.
    + split; [|reflexivity]. intros _. now apply Exists_cons_hd.
Qed.

(** X2. The export of variant 2 quotes the header too.  When every creation
    time is one a [Date] accepts, the file is read back by a reader of quoted
    CSV as the header followed by the five cells of every item, in order,
    the creation time as ISO text; with no item it is the header alone. *)
Theorem V2_exportCSV_reads_back (st : V2.State) :
  Forall (fun i => V2.validTime (V2.createdAt i) = true) (V2.items st) ->
  exists text,
    V2.exportCSV st = Returned text /\
    csv_decode text =
      Some (["id"; "name"; "email"; "role"; "createdAt"] ::
            map (fun i => [V2.id i; V2.name i; V2.email i; V2.role i;
                           JsDate.toISOString (V2.createdAt i)]) (V2.items st)).
Proof.
  intros Hv. unfold V2.exportCSV. rewrite (V2_itemRows_valid _ Hv).
  eexists. split; [reflexivity|]. apply csv_decode_quoted.
  constructor; [discriminate|]. apply Forall_map, Forall_forall. intros x _. discriminate.
Qed.

Lemma V2_exportCSV_reads_back_witness :
  Forall (fun i => V2.validTime (V2.createdAt i) = true) (V2.items (V2.init twelve_items)) /\
  exists text,
    V2.exportCSV (V2.init twelve_items) = Returned text /\
    csv_decode text =
      Some (["id"; "name"; "email"; "role"; "createdAt"] ::
            map (fun i => [V2.id i; V2.name i; V2.email i; V2.role i;
                           JsDate.toISOString (V2.createdAt i)]) twelve_items).
Proof.
  assert (H : Forall (fun i => V2.validTime (V2.createdAt i) = true)
                (V2.items (V2.init twelve_items)))
    by (repeat constructor).
  split; [exact H|]. exact (V2_exportCSV_reads_back (V2.init twelve_items) H).
Defined.

(** X3. The export of variant 2 fails, with the [RangeError] of
    [toISOString], exactly when some item carries a creation time outside
    the range of [Date]. *)
Theorem V2_exportCSV_throws_iff (st : V2.State) :
  V2.exportCSV st = Thrown <->
  Exists (fun i => V2.validTime (V2.createdAt i) = false) (V2.items st).
Proof.
  unfold V2.exportCSV. rewrite <- V2_itemRows_thrown.
  destruct (V2.itemRows (V2.items st)); split; congruence.
Qed.

(** ** escapeHtml *)

Lemma all_chars_app (p : ascii -> bool) (s t : string) :
  all_chars p (s +:+ t) = all_chars p s && all_chars p t.
Proof.
  induction s as [|c s IH]; [reflexivity|].
  rewrite append_cons. cbn [all_chars]. now rewrite IH, andb_assoc.
Qed.

Lemma escapeChar_safe (c : ascii) :
  all_chars (fun x => negb (markup_char x)) (V2.escapeChar c) = true.
Proof.
  unfold V2.escapeChar.
  repeat match goal with
         | |- context [if ?b then _ else _] => destruct b eqn:?; [reflexivity|]
         end.
  cbn [all_chars]. unfold markup_char.
  repeat match goal with H : _ = false |- _ => rewrite H; clear H end. reflexivity.
Qed.

(** X4. The text [escapeHtml] returns holds no angle bracket, no quotation
    mark and no apostrophe: placed in markup or in a quoted attribute it can
    neither open a tag nor end the attribute. *)
Theorem escapeHtml_has_no_markup_char (s : string) :
  all_chars (fun c => negb (markup_char c)) (V2.escapeHtml s) = true.
Proof.
  induction s as [|c s IH]; [reflexivity|].
  cbn [V2.escapeHtml]. now rewrite all_chars_app, escapeChar_safe, IH.
Qed.

Lemma starts_other_head (lit : string) (a c : ascii) (s : string) :
  c <> a -> starts (String a lit) (String c s) = false.
Proof.
  intros H. cbn [starts]. destruct (Ascii.eqb_spec a c) as [->|]; [congruence | reflexivity].
Qed.

Lemma unescape_escapeChar (c : ascii) (rest : string) :
  unescape 0 (V2.escapeChar c +:+ rest) = String c (unescape 0 rest).
Proof.
  unfold V2.escapeChar.
  destruct (Ascii.eqb_spec c "&") as [->|H1]; [reflexivity|].
  destruct (Ascii.eqb_spec c "<") as [->|H2]; [reflexivity|].
  destruct (Ascii.eqb_spec c ">") as [->|H3]; [reflexivity|].
  destruct (Ascii.eqb_spec c JsText.dquote) as [->|H4]; [reflexivity|].
  destruct (Ascii.eqb_spec c "'") as [->|H5]; [reflexivity|].
  rewrite append_cons, append_nil_l. cbn [unescape].
  now rewrite !starts_other_head.
Qed.

(** X5. Reading the five entities back gives the text [escapeHtml] was
    given: what the page shows is what was stored, ampersands and entity
    look-alikes included. *)
Theorem unescapeHtml_escapeHtml (s : string) : unescapeHtml (V2.escapeHtml s) = s.
Proof.
  unfold unescapeHtml. induction s as [|c s IH]; [reflexivity|].
  cbn [V2.escapeHtml]. now rewrite unescape_escapeChar, IH.
Qed.

(** ** Editing a record *)

Lemma V1_updateFirst_some (i : Z) (n e r : string) (us us' : list V1.User) :
  V1.updateFirst i n e r us = Some us' <->
  exists l1 u l2,
    us = l1 ++ u :: l2 /\ V1.id u = i /\ (forall x, In x l1 -> V1.id x <> i) /\
    us' = l1 ++ V1_edited n e r u :: l2.
Proof.
  revert us'; induction us as [|a us IH]; intros us'; cbn [V1.updateFirst].
  - split; [discriminate|]. intros (l1 & u & l2 & H & _). now destruct l1.
  - destruct (Z.eqb_spec (V1.id a) i) as [Ha|Ha].
    + split.
      * intros H. injection H as <-. exists [], a, us. repeat split; auto; intros x [].
      * intros (l1 & u & l2 & H & Hu & Hl1 & ->). destruct l1 as [|b l1].
        -- injection H as -> ->. reflexivity.
        -- injection H as -> ->. exfalso. apply (Hl1 b); [now left | exact Ha].
    + destruct (V1.updateFirst i n e r us) as [l|] eqn:Hu; cbn [option_map].
      * split.
        -- intros H. injection H as <-.
           destruct (proj1 (IH l) eq_refl) as (l1 & u & l2 & -> & Hid & Hl1 & ->).
           exists (a :: l1), u, l2. repeat split; auto.
           intros x [<-|Hx]; [exact Ha | now apply Hl1].
        -- intros (l1 & u & l2 & H & Hid & Hl1 & ->). destruct l1 as [|b l1].
           ++ injection H as -> ->. congruence.
           ++ injection H as -> ->. f_equal. cbn [app]. f_equal.
              assert (Hs : Some l = Some (l1 ++ V1_edited n e r u :: l2)).
              { apply IH. exists l1, u, l2. repeat split; auto.
                intros x Hx. apply Hl1. now right. }
              now injection Hs.
      * split; [discriminate|].
        intros (l1 & u & l2 & H & Hid & Hl1 & ->). destruct l1 as [|b l1].
        -- injection H as -> ->. congruence.
        -- injection H as -> ->.
           assert (Hs : None = Some (l1 ++ V1_edited n e r u :: l2)).
           { apply IH. exists l1, u, l2. repeat split; auto.
             intros x Hx. apply Hl1. now right. }
           discriminate Hs.
Qed.

Lemma V1_updateFirst_none (i : Z) (n e r : string) (us : list V1.User) :
  V1.updateFirst i n e r us = None <-> forall x, In x us -> V1.id x <> i.
Proof.
  induction us as [|a us IH]; cbn [V1.updateFirst].
  - split; [intros _ x [] | reflexivity].
  - destruct (Z.eqb_spec (V1.id a) i) as [Ha|Ha].
    + split; [discriminate|]. intros H. exfalso. apply (H a); [now left | exact Ha].
    + destruct (V1.updateFirst i n e r us) as [l|]; cbn [option_map].
      * split; [discriminate|]. intros H.
        assert (Hn : Some l = None) by (apply IH; intros x Hx; apply H; now right).
        discriminate Hn.
      * split; [|reflexivity]. intros _ x [<-|Hx]; [exact Ha|].
        now apply (proj1 IH eq_refl).
Qed.

Lemma V2_assignFirst_some (i : string) (n e r : string) (l l' : list V2.Item) :
  V2.assignFirst i n e r l = Some l' <->
  exists l1 x l2,
    l = l1 ++ x :: l2 /\ V2.id x = i /\ (forall y, In y l1 -> V2.id y <> i) /\
    l' = l1 ++ V2_assigned n e r x :: l2.
Proof.
  revert l'; induction l as [|a l IH]; intros l'; cbn [V2.assignFirst].
  - split; [discriminate|]. intros (l1 & u & l2 & H & _). now destruct l1.
  - destruct (String.eqb_spec (V2.id a) i) as [Ha|Ha].
    + split.
      * intros H. injection H as <-. exists [], a, l. repeat split; auto; intros x [].
      * intros (l1 & u & l2 & H & Hu & Hl1 & ->). destruct l1 as [|b l1].
        -- injection H as -> ->. reflexivity.
        -- injection H as -> ->. exfalso. apply (Hl1 b); [now left | exact Ha].
    + destruct (V2.assignFirst i n e r l) as [l0|] eqn:Hu; cbn [option_map].
      * split.
        -- intros H. injection H as <-.
           destruct (proj1 (IH l0) eq_refl) as (l1 & u & l2 & -> & Hid & Hl1 & ->).
           exists (a :: l1), u, l2. repeat split; auto.
           intros x [<-|Hx]; [exact Ha | now apply Hl1].
        -- intros (l1 & u & l2 & H & Hid & Hl1 & ->). destruct l1 as [|b l1].
           ++ injection H as -> ->. congruence.
           ++ injection H as -> ->. f_equal. cbn [app]. f_equal.
              assert (Hs : Some l0 = Some (l1 ++ V2_assigned n e r u :: l2)).
              { apply IH. exists l1, u, l2. repeat split; auto.
                intros x Hx. apply Hl1. now right. }
              now injection Hs.
      * split; [discriminate|].
        intros (l1 & u & l2 & H & Hid & Hl1 & ->). destruct l1 as [|b l1].
        -- injection H as -> ->. congruence.
        -- injection H as -> ->.
           assert (Hs : None = Some (l1 ++ V2_assigned n e r u :: l2)).
           { apply IH. exists l1, u, l2. repeat split; auto.
             intros x Hx. apply Hl1. now right. }
           discriminate Hs.
Qed.

Lemma V2_assignFirst_none (i : string) (n e r : string) (l : list V2.Item) :
  V2.assignFirst i n e r l = None <-> forall x, In x l -> V2.id x <> i.
Proof.
  induction l as [|a l IH]; cbn [V2.assignFirst].
  - split; [intros _ x [] | reflexivity].
  - destruct (String.eqb_spec (V2.id a) i) as [Ha|Ha].
    + split; [discriminate|]. intros H. exfalso. apply (H a); [now left | exact Ha].
    + destruct (V2.assignFirst i n e r l) as [l0|]; cbn [option_map].
      * split; [discriminate|]. intros H.
        assert (Hn : Some l0 = None) by (apply IH; intros x Hx; apply H; now right).
        discriminate Hn.
      * split; [|reflexivity]. intros _ x [<-|Hx]; [exact Ha|].
        now apply (proj1 IH eq_refl).
Qed.

(** X6. The edit form of variant 1 rewrites exactly the first user that
    carries the id under edit: name and email trimmed, role as chosen, id
    and creation time kept; every other user, the order of the list and the
    view state stay as they are, the store is written once and the modal
    closes.  With no id under edit, or none of the users carrying it,
    nothing happens. *)
Theorem V1_edit_rewrites_first_match (st : V1.State) (n e r : string) :
  (V1.editingUserId st = None -> V1.onEditSubmit n e r st = st) /\
  (forall i, V1.editingUserId st = Some i ->
             (forall x, In x (V1.users st) -> V1.id x <> i) ->
             V1.onEditSubmit n e r st = st) /\
  (forall i l1 u l2,
      V1.editingUserId st = Some i ->
      V1.users st = l1 ++ u :: l2 -> V1.id u = i ->
      (forall x, In x l1 -> V1.id x <> i) ->
      let st' := V1.onEditSubmit n e r st in
      V1.users st' = l1 ++ V1_edited n e r u :: l2 /\
      V1.editingUserId st' = None /\
      V1.saved st' = V1.users st' :: V1.saved st /\
      V1.currentPage st' = V1.currentPage st /\ V1.perPage st' = V1.perPage st /\
      V1.sortBy st' = V1.sortBy st /\ V1.searchQuery st' = V1.searchQuery st /\
      V1.selectedIds st' = V1.selectedIds st).
Proof.
  repeat apply conj.
  - intros H. unfold V1.onEditSubmit. now rewrite H.
  - intros i Hi Hno. unfold V1.onEditSubmit. rewrite Hi.
    now rewrite (proj2 (V1_updateFirst_none i n e r (V1.users st)) Hno).
  - intros i l1 u l2 Hi Hus Hu Hl1 st'. subst st'. unfold V1.onEditSubmit. rewrite Hi.
    assert (Hs : V1.updateFirst i n e r (V1.users st) = Some (l1 ++ V1_edited n e r u :: l2)).
    { apply V1_updateFirst_some. exists l1, u, l2. auto. }
    rewrite Hs. repeat split; reflexivity.
Qed.

Lemma V1_edit_rewrites_first_match_witness :
  let st := V1.set_editingUserId (Some 1700000000001)
              (V1.init [rahim1; late_user; early_user] 5 "name:asc") in
  V1.users (V1.onEditSubmit " Karim " "karim@example.com " "admin" st) =
  [rahim1] ++ V1_edited " Karim " "karim@example.com " "admin" late_user :: [early_user].
Proof.
  apply (proj2 (proj2 (V1_edit_rewrites_first_match
           (V1.set_editingUserId (Some 1700000000001)
              (V1.init [rahim1; late_user; early_user] 5 "name:asc"))
           " Karim " "karim@example.com " "admin")) 1700000000001 [rahim1] late_user [early_user]).
  - reflexivity.
  - reflexivity.
  - reflexivity.
  - intros x [<-|[]]. discriminate.
Defined.

(** X7. The edit form of variant 2 does nothing without an id under edit;
    with one, an empty trimmed name or an email of the wrong shape raises
    the alert and leaves the state as it is.  Valid fields are assigned to
    the first item that carries the id, whose id and creation time are
    kept; the other items keep their place, the store is written once and
    the id under edit is dropped.  When no item carries the id only the id
    under edit is dropped. *)
Theorem V2_edit_validates_and_rewrites_first_match (st : V2.State) (n e r : string) :
  (V2.editingId st = None -> V2.onEditSubmit n e r st = (st, false)) /\
  (forall i, V2.editingId st = Some i -> i <> EmptyString ->
             JsString.trim n = EmptyString \/ V2.validateEmail (JsString.trim e) = false ->
             V2.onEditSubmit n e r st = (st, true)) /\
  (forall i, V2.editingId st = Some i -> i <> EmptyString ->
             JsString.trim n <> EmptyString -> V2.validateEmail (JsString.trim e) = true ->
             (forall x, In x (V2.items st) -> V2.id x <> i) ->
             V2.onEditSubmit n e r st = (V2.set_editingId None st, false)) /\
  (forall i l1 x l2,
      V2.editingId st = Some i -> i <> EmptyString ->
      JsString.trim n <> EmptyString -> V2.validateEmail (JsString.trim e) = true ->
      V2.items st = l1 ++ x :: l2 -> V2.id x = i ->
      (forall y, In y l1 -> V2.id y <> i) ->
      let st' := fst (V2.onEditSubmit n e r st) in
      snd (V2.onEditSubmit n e r st) = false /\
      V2.items st' =
        l1 ++ V2_assigned (JsString.trim n) (JsString.trim e) r x :: l2 /\
      V2.editingId st' = None /\
      V2.saved st' = V2.items st' :: V2.saved st /\
      V2.selected st' = V2.selected st).
Proof.
  assert (Htruthy : forall s, s <> EmptyString -> JsString.truthy s = true)
    by (intros [|c s] H; [congruence | reflexivity]).
  repeat apply conj.
  - intros H. unfold V2.onEditSubmit. now rewrite H.
  - intros i Hi Hne Hbad. unfold V2.onEditSubmit. rewrite Hi, (Htruthy i Hne). cbn [negb].
    destruct Hbad as [-> | ->]; cbn [JsString.truthy negb orb]; [reflexivity|].
    now rewrite orb_true_r.
  - intros i Hi Hne Hn He Hno. unfold V2.onEditSubmit.
    rewrite Hi, (Htruthy i Hne), (Htruthy _ Hn), He. cbn [negb orb].
    unfold V2.updateItem.
    now rewrite (proj2 (V2_assignFirst_none i _ _ r (V2.items st)) Hno).
  - intros i l1 x l2 Hi Hne Hn He Hit Hx Hl1 st'. subst st'. unfold V2.onEditSubmit.
    rewrite Hi, (Htruthy i Hne), (Htruthy _ Hn), He. cbn [negb orb fst snd].
    unfold V2.updateItem.
    assert (Hs : V2.assignFirst i (JsString.trim n) (JsString.trim e) r (V2.items st) =
                 Some (l1 ++ V2_assigned (JsString.trim n) (JsString.trim e) r x :: l2)).
    { apply V2_assignFirst_some. exists l1, x, l2. auto. }
    rewrite Hs.
    change (V2.items (V2.set_editingId None ?s)) with (V2.items s).
    change (V2.saved (V2.set_editingId None ?s)) with (V2.saved s).
    change (V2.selected (V2.set_editingId None ?s)) with (V2.selected s).
    rewrite V2_rendered_items, V2_rendered_saved, V2_rendered_selected.
    repeat split; reflexivity.
Qed.

Lemma V2_edit_validates_and_rewrites_first_match_witness :
  let st := V2.set_editingId (Some "lozf2gw04fzyo8") (V2.init [rahim2]) in
  V2.onEditSubmit "Rahim" "rahim at example" "user" st = (st, true).
Proof.
  apply (proj1 (proj2 (V2_edit_validates_and_rewrites_first_match
           (V2.set_editingId (Some "lozf2gw04fzyo8") (V2.init [rahim2]))
           "Rahim" "rahim at example" "user")) "lozf2gw04fzyo8").
  - reflexivity.
  - discriminate.
  - right. reflexivity.
Defined.

(** ** Deleting and copying by id *)

Lemma filter_all_true {A : Type} (p : A -> bool) (l : list A) :
  (forall x, In x l -> p x = true) -> List.filter p l = l.
Proof.
  induction l as [|a l IH]; intros H; [reflexivity|].
  cbn [List.filter]. rewrite (H a) by now left. f_equal. apply IH.
  intros x Hx. apply H. now right.
Qed.

Lemma filter_drops_unique {A K : Type} (key : A -> K) (p : A -> bool) (l1 l2 : list A) (u : A) :
  List.NoDup (map key (l1 ++ u :: l2)) ->
  p u = false -> (forall x, key x <> key u -> p x = true) ->
  List.filter p (l1 ++ u :: l2) = l1 ++ l2.
Proof.
  intros Hnd Hu Hp.
  assert (Hother : forall x, In x l1 \/ In x l2 -> key x <> key u).
  { intros x Hx Heq. rewrite map_app in Hnd. cbn [map] in Hnd.
    apply List.NoDup_remove_2 in Hnd. apply Hnd. rewrite <- Heq.
    apply in_or_app. destruct Hx as [Hx|Hx]; [left | right]; now apply in_map. }
  rewrite List.filter_app. cbn [List.filter]. rewrite Hu.
  rewrite !filter_all_true; [reflexivity | |]; intros x Hx; apply Hp, Hother; auto.
Qed.

(** X8. Deleting by id.  In both variants a confirmed delete of an id that
    no record carries leaves the list of records as it is; when ids are
    unique, deleting the id of a live record takes out that record alone and
    keeps the others in their order. *)
Theorem delete_takes_out_the_record :
  (forall (st : V1.State) (i : Z),
      (forall x, In x (V1.users st) -> V1.id x <> i) ->
      V1.users (V1.onDelete i true st) = V1.users st) /\
  (forall (st : V1.State) (l1 l2 : list V1.User) (u : V1.User),
      List.NoDup (V1_ids st) -> V1.users st = l1 ++ u :: l2 ->
      V1.users (V1.onDelete (V1.id u) true st) = l1 ++ l2) /\
  (forall (st : V2.State) (i : string),
      (forall x, In x (V2.items st) -> V2.id x <> i) ->
      V2.items (V2.deleteItem i st) = V2.items st) /\
  (forall (st : V2.State) (l1 l2 : list V2.Item) (x : V2.Item),
      List.NoDup (V2_ids st) -> V2.items st = l1 ++ x :: l2 ->
      V2.items (V2.deleteItem (V2.id x) st) = l1 ++ l2).
Proof.
  repeat apply conj.
  - intros st i Hno. cbn. apply filter_all_true. intros x Hx.
    apply negb_true_iff, Z.eqb_neq. now apply Hno.
  - intros st l1 l2 u Hnd Hus. cbn. unfold V1_ids in Hnd. rewrite Hus in *.
    apply (filter_drops_unique V1.id); [exact Hnd | |].
    + now rewrite Z.eqb_refl.
    + intros x Hx. now apply negb_true_iff, Z.eqb_neq.
  - intros st i Hno. unfold V2.deleteItem. rewrite V2_rendered_items. cbn.
    apply filter_all_true. intros x Hx. apply negb_true_iff, String.eqb_neq. now apply Hno.
  - intros st l1 l2 x Hnd Hit. unfold V2.deleteItem. rewrite V2_rendered_items. cbn.
    unfold V2_ids in Hnd. rewrite Hit in *.
    apply (filter_drops_unique V2.id); [exact Hnd | |].
    + now rewrite String.eqb_refl.
    + intros y Hy. now apply negb_true_iff, String.eqb_neq.
Qed.

Lemma delete_takes_out_the_record_witness :
  let st := V1.init [rahim1; late_user] 5 "name:asc" in
  (List.NoDup (V1_ids st) /\ V1.users st = [rahim1] ++ late_user :: []) /\
  V1.users (V1.onDelete (V1.id late_user) true st) = [rahim1] ++ [].
Proof.
  assert (H1 : List.NoDup (V1_ids (V1.init [rahim1; late_user] 5 "name:asc"))).
  { repeat constructor; simpl; intros H; repeat destruct H as [H|H]; try discriminate H;
      exact H. }
  split; [split; [exact H1 | reflexivity]|].
  exact (proj1 (proj2 delete_takes_out_the_record) _ [rahim1] [] late_user H1 eq_refl).
Defined.

(** X9. Copying in variant 1 an id that no user carries changes nothing and
    writes nothing. *)
Theorem V1_copy_of_absent_id_is_ignored (st : V1.State) (i now now' : Z) :
  (forall x, In x (V1.users st) -> V1.id x <> i) -> V1.onCopy i now now' st = st.
Proof.
  intros Hno. unfold V1.onCopy.
  destruct (find _ _) as [x|] eqn:Hf; [|reflexivity].
  apply find_some in Hf as [Hin Hx]. apply Z.eqb_eq in Hx. now apply Hno in Hin.
Qed.

Lemma V1_copy_of_absent_id_is_ignored_witness :
  let st := V1.init [rahim1] 5 "name:asc" in
  V1.onCopy 5 1700000000600 1700000000600 st = st.
Proof.
  apply V1_copy_of_absent_id_is_ignored. intros x [<-|[]]. discriminate.
Defined.

(** ** Rendering twice, and the range of the cursor *)


Lemma V2_rendered_cases (st : V2.State) :
  V2.rendered st =
  if V2.pages (snd (V2.render st)) <? V2.page st
  then V2.set_page (V2.pages (snd (V2.render st))) st else st.
Proof. unfold V2.rendered, V2.render. cbn [fst snd V2.pages]. reflexivity. Qed.

Lemma V2_render_rendered (st : V2.State) :
  V2.render (V2.rendered st) = (V2.rendered st, snd (V2.render st)).
Proof.
  rewrite V2_rendered_cases. unfold V2.render. cbn [fst snd V2.pages].
  set (pg := Z.max 1 (JsArray.ceil_div
                        (Z.of_nat (length (V2.queryAndSort st (V2.items st)))) (V2.perPage st))).
  destruct (Z.ltb_spec pg (V2.page st)) as [Hlt|Hge].
  - cbn. fold pg. rewrite Z.ltb_irrefl. reflexivity.
  - fold pg. destruct (Z.ltb_spec pg (V2.page st)) as [Hlt|_]; [lia|]. reflexivity.
Qed.

(** X10. [render] of variant 2 is idempotent: rendering again right after
    a render leaves the state, the clamped cursor included, as it is and
    shows the same page, whatever the state was before the first render. *)
Theorem V2_render_is_idempotent (st : V2.State) :
  V2.rendered (V2.rendered st) = V2.rendered st /\
  snd (V2.render (V2.rendered st)) = snd (V2.render st).
Proof.
  unfold V2.rendered at 1. rewrite V2_render_rendered. split; reflexivity.
Qed.




Lemma V2_render_page_items (st : V2.State) :
  0 < V2.perPage st -> 1 <= V2.page st ->
  V2.pageItems (snd (V2.render st)) =
  take (Z.to_nat (V2.perPage st))
       (drop (Z.to_nat ((V2.page (V2.rendered st) - 1) * V2.perPage st))
             (V2.queryAndSort st (V2.items st))).
Proof.
  intros Hpp Hlo.
  assert (Hslice : V2.pageItems (snd (V2.render st)) =
      JsArray.slice (V2.queryAndSort st (V2.items st))
        ((V2.page (V2.rendered st) - 1) * V2.perPage st)
        ((V2.page (V2.rendered st) - 1) * V2.perPage st + V2.perPage st)).
  { unfold V2.rendered, V2.render; simpl. destruct (_ <? V2.page st); reflexivity. }
  rewrite Hslice. pose proof (V2_rendered_page_ge_1 st Hlo). apply slice_inside; nia.
Qed.

Lemma take_drop_nonempty {A : Type} (l : list A) (n k : nat) :
  (0 < n)%nat -> (k < length l)%nat -> take n (drop k l) <> [].
Proof.
  intros Hn Hk H. apply (f_equal (@length A)) in H.
  rewrite length_take, length_drop in H. simpl in H. lia.
Qed.

(** X12. With a positive page size and the cursor in range, [render] of
    variant 2 shows an empty page only when no record passes the filter:
    no delete, edit or search can leave the user on a page without rows
    while matching records exist. *)
Theorem V2_page_is_empty_only_without_matches (st : V2.State) :
  0 < V2.perPage st -> V2_page_in_range st ->
  (V2.pageItems (snd (V2.render st)) = [] <-> V2.queryAndSort st (V2.items st) = []).
Proof.
  intros Hpp [Hlo Hhi].
  assert (Hpages : V2.pages (snd (V2.render st)) =
            Z.max 1 (JsArray.ceil_div (Z.of_nat (length (V2.queryAndSort st (V2.items st))))
                                      (V2.perPage st))) by reflexivity.
  pose proof (ceil_div_spec (Z.of_nat (length (V2.queryAndSort st (V2.items st))))
                (V2.perPage st) Hpp) as Hceil.
  rewrite (V2_render_page_items st Hpp Hlo).
  assert (Hp : V2.page (V2.rendered st) = V2.page st).
  { rewrite V2_rendered_page. lia. }
  rewrite Hp. split.
  - intros Hempty. destruct (V2.queryAndSort st (V2.items st)) as [|x l] eqn:Hq; [reflexivity|].
    exfalso. revert Hempty. apply take_drop_nonempty; [lia|].
    rewrite Hpages in Hhi. cbn [length] in *.
    assert (Hc : 1 <= JsArray.ceil_div (Z.of_nat (S (length l))) (V2.perPage st)) by nia.
    nia.
  - intros ->. now rewrite drop_nil, take_nil.
Qed.

Lemma V2_page_is_empty_only_without_matches_witness :
  let st := V2.init twelve_items in
  (0 < V2.perPage st /\ V2_page_in_range st) /\
  (V2.pageItems (snd (V2.render st)) = [] <-> V2.queryAndSort st (V2.items st) = []).
Proof.
  assert (H1 : 0 < V2.perPage (V2.init twelve_items)) by reflexivity.
  assert (H2 : V2_page_in_range (V2.init twelve_items))
    by (split; vm_compute; discriminate).
  split; [split; assumption|].
  exact (V2_page_is_empty_only_without_matches (V2.init twelve_items) H1 H2).
Defined.

(** ** Paging in variant 1 *)

Lemma ceil_div_mono (a a' b : Z) :
  0 < b -> a <= a' -> JsArray.ceil_div a b <= JsArray.ceil_div a' b.
Proof.
  intros Hb Ha. pose proof (ceil_div_spec a b Hb). pose proof (ceil_div_spec a' b Hb). nia.
Qed.

Lemma filter_length_le {A : Type} (p q : A -> bool) (l : list A) :
  (forall x, p x = true -> q x = true) ->
  (length (List.filter p l) <= length (List.filter q l))%nat.
Proof.
  intros H. induction l as [|a l IH]; [reflexivity|].
  cbn [List.filter]. destruct (p a) eqn:Hp.
  - rewrite (H a Hp). cbn [length]. lia.
  - destruct (q a); cbn [length]; lia.
Qed.

Lemma V1_totalPages_render (st : V1.State) :
  V1.totalPages (V1.render st) =
  JsArray.ceil_div
    (Z.of_nat (length (List.filter (V1.matches (V1.searchQuery st)) (V1.users st))))
    (V1.perPage st).
Proof.
  unfold V1.render; cbn [V1.totalPages]. rewrite V1_filterAndSort_eq, sort_length. reflexivity.
Qed.

Lemma V1_next_bound_le (st : V1.State) :
  0 < V1.perPage st -> V1.nextTotalPages st <= V1.totalPages (V1.render st).
Proof.
  intros Hpp. rewrite V1_totalPages_render. unfold V1.nextTotalPages.
  apply ceil_div_mono; [exact Hpp|]. apply Nat2Z.inj_le, filter_length_le.
  intros x Hx. unfold V1.matches. now rewrite Hx.
Qed.

Lemma includes_empty (s : string) : JsString.includes s EmptyString = true.
Proof. apply includes_true_iff, contains_empty. Qed.

Lemma V1_handle_page_ge_1 (e : V1.Event) (st : V1.State) :
  1 <= V1.currentPage st -> 1 <= V1.currentPage (V1.handle e st).
Proof.
  intros H. destruct e; cbn [V1.handle]; try exact H; try (cbn; lia).
  - unfold V1.onPrev. destruct (Z.ltb_spec 1 (V1.currentPage st)); cbn; lia.
  - unfold V1.onNext. destruct (_ <? _); cbn; lia.
  - unfold V1.onDelete. now destruct confirmed.
  - unfold V1.onCopy. now destruct (find _ _).
  - unfold V1.onEditSubmit. destruct (V1.editingUserId st); [|exact H].
    now destruct (V1.updateFirst _ _ _ _ _).
  - unfold V1.onBulkDelete. destruct (bool_decide _); [exact H|].
    destruct confirmed; [cbn; lia | exact H].
  - unfold V1.onClearAll. now destruct confirmed.
Qed.

(** X13. Paging in variant 1.  The cursor never drops below 1, whatever
    the events; with a positive page size a click on Next never moves the
    cursor past the last page [render] counts; and as long as nothing is
    typed in the search box the bound the Next handler computes is the
    number of pages [render] counts. *)
Theorem V1_paging_stays_within_the_pages :
  (forall (es : list V1.Event) (loaded : list V1.User) (perPageValue : Z) (sortByValue : string),
      1 <= V1.currentPage (V1.run es (V1.init loaded perPageValue sortByValue))) /\
  (forall st : V1.State,
      0 < V1.perPage st ->
      V1.currentPage (V1.onNext st) <=
      Z.max (V1.currentPage st) (V1.totalPages (V1.render st))) /\
  (forall st : V1.State,
      V1.searchQuery st = EmptyString ->
      V1.nextTotalPages st = V1.totalPages (V1.render st)).
Proof.
  repeat apply conj.
  - intros es loaded pp sb.
    assert (H : forall st, 1 <= V1.currentPage st -> 1 <= V1.currentPage (V1.run es st)).
    { induction es as [|e es IH]; intros st Hst; [exact Hst|].
      apply IH. now apply V1_handle_page_ge_1. }
    apply H. cbn. lia.
  - intros st Hpp. pose proof (V1_next_bound_le st Hpp) as Hle. unfold V1.onNext.
    destruct (Z.ltb_spec (V1.currentPage st) (V1.nextTotalPages st));
      cbn [V1.currentPage V1.set_currentPage]; lia.
  - intros st Hq. rewrite V1_totalPages_render. unfold V1.nextTotalPages. rewrite Hq.
    do 3 f_equal. apply filter_ext. intros u. unfold V1.matches.
    cbn [JsString.toLowerCase]. now rewrite !includes_empty.
Qed.

Lemma V1_paging_stays_within_the_pages_witness :
  let st := V1.init six_users 5 "name:asc" in
  (0 < V1.perPage st /\ V1.searchQuery st = EmptyString) /\
  V1.currentPage (V1.onNext st) <= Z.max (V1.currentPage st) (V1.totalPages (V1.render st)) /\
  V1.nextTotalPages st = V1.totalPages (V1.render st).
Proof.
  assert (H1 : 0 < V1.perPage (V1.init six_users 5 "name:asc")) by reflexivity.
  assert (H2 : V1.searchQuery (V1.init six_users 5 "name:asc") = EmptyString) by reflexivity.
  split; [split; assumption|]. split.
  - exact (proj1 (proj2 V1_paging_stays_within_the_pages) _ H1).
  - exact (proj2 (proj2 V1_paging_stays_within_the_pages) _ H2).
Defined.

(** ** The pages make up the list *)

Lemma slice_length_le {A : Type} (l : list A) (start end_ : Z) :
  start <= end_ -> Z.of_nat (length (JsArray.slice l start end_)) <= end_ - start.
Proof.
  intros H. unfold JsArray.slice, JsArray.rel_index. rewrite length_take, length_drop.
  destruct (Z.ltb_spec start 0), (Z.ltb_spec end_ 0); lia.
Qed.

Lemma chunks_concat {A : Type} (n : nat) (m : nat) :
  forall l : list A,
    (length l <= m * n)%nat ->
    concat (map (fun k => take n (drop (k * n) l)) (seq 0 m)) = l.
Proof.
  induction m as [|m IH]; intros l Hl.
  - destruct l; [reflexivity | simpl in Hl; lia].
  - cbn [seq map concat]. rewrite <- seq_shift, map_map.
    rewrite (map_ext _ (fun k => take n (drop (k * n) (drop n l)))).
    + rewrite IH by (rewrite length_drop; lia).
      cbn [Nat.mul drop]. apply take_drop.
    + intros k. rewrite drop_drop. do 2 f_equal; lia.
Qed.

Lemma pages_concat {A : Type} (l : list A) (perPage pages : Z) :
  0 < perPage -> Z.of_nat (length l) <= pages * perPage ->
  concat (map (fun p => JsArray.slice l ((p - 1) * perPage) ((p - 1) * perPage + perPage))
              (page_numbers pages)) = l.
Proof.
  intros Hpp Hl. unfold page_numbers. rewrite <- seq_shift, !map_map.
  rewrite (map_ext _ (fun k => take (Z.to_nat perPage) (drop (k * Z.to_nat perPage) l))).
  - apply chunks_concat. nia.
  - intros k. rewrite slice_inside by nia. do 2 f_equal; nia.
Qed.

Lemma V1_page_slice (st : V1.State) (p : Z) :
  V1_page st p =
  JsArray.slice (V1.filterAndSort st) ((p - 1) * V1.perPage st)
                ((p - 1) * V1.perPage st + V1.perPage st).
Proof. reflexivity. Qed.

Lemma V2_page_slice (st : V2.State) (p : Z) :
  1 <= p <= V2.pages (snd (V2.render st)) ->
  V2_page st p =
  JsArray.slice (V2.queryAndSort st (V2.items st)) ((p - 1) * V2.perPage st)
                ((p - 1) * V2.perPage st + V2.perPage st).
Proof.
  intros Hp. unfold V2_page, V2.render in *. cbn [snd V2.pageItems V2.pages] in *.
  cbn [V2.page V2.set_page V2.perPage V2.items] in *.
  change (V2.queryAndSort (V2.set_page p st)) with (V2.queryAndSort st).
  destruct (Z.ltb_spec (Z.max 1 (JsArray.ceil_div
      (Z.of_nat (length (V2.queryAndSort st (V2.items st)))) (V2.perPage st))) p); [lia|].
  reflexivity.
Qed.

Lemma page_numbers_range (n p : Z) : In p (page_numbers n) -> 1 <= p <= n.
Proof.
  unfold page_numbers. rewrite in_map_iff. intros (k & <- & Hk). apply in_seq in Hk. lia.
Qed.

(** X14. With a positive page size the pages [render] shows at the cursor
    positions 1, 2, ... up to the page count it reports are, put one after
    the other, the filtered and sorted list: every matching record is on
    one page and no record is shown twice.  A page holds at most
    [perPage] rows.  This holds in both variants. *)
Theorem pages_make_up_the_list :
  (forall st : V1.State,
      0 < V1.perPage st ->
      concat (map (V1_page st) (page_numbers (V1.totalPages (V1.render st))))
        = V1.filterAndSort st /\
      forall p, Z.of_nat (length (V1_page st p)) <= V1.perPage st) /\
  (forall st : V2.State,
      0 < V2.perPage st ->
      concat (map (V2_page st) (page_numbers (V2.pages (snd (V2.render st)))))
        = V2.queryAndSort st (V2.items st) /\
      forall p, 1 <= p -> Z.of_nat (length (V2_page st p)) <= V2.perPage st).
Proof.
  split; intros st Hpp; split.
  - rewrite (map_ext _ _ (V1_page_slice st)). apply pages_concat; [exact Hpp|].
    change (V1.totalPages (V1.render st)) with
      (JsArray.ceil_div (Z.of_nat (length (V1.filterAndSort st))) (V1.perPage st)).
    apply ceil_div_spec, Hpp.
  - intros p. rewrite V1_page_slice.
    etransitivity; [apply slice_length_le; lia | lia].
  - rewrite (map_ext_in _
      (fun p => JsArray.slice (V2.queryAndSort st (V2.items st)) ((p - 1) * V2.perPage st)
                              ((p - 1) * V2.perPage st + V2.perPage st))).
    + apply pages_concat; [exact Hpp|].
      change (V2.pages (snd (V2.render st))) with
        (Z.max 1 (JsArray.ceil_div (Z.of_nat (length (V2.queryAndSort st (V2.items st))))
                                   (V2.perPage st))).
      pose proof (ceil_div_spec (Z.of_nat (length (V2.queryAndSort st (V2.items st))))
                                (V2.perPage st) Hpp). nia.
    + intros p Hp. apply V2_page_slice, page_numbers_range, Hp.
  - intros p Hp. unfold V2_page.
    rewrite V2_render_page_items by (cbn; lia).
    rewrite length_take. cbn [V2.perPage V2.set_page]. lia.
Qed.

Lemma pages_make_up_the_list_witness :
  (0 < V1.perPage (V1.init six_users 5 "name:asc") /\
   0 < V2.perPage (V2.init twelve_items)) /\
  concat (map (V1_page (V1.init six_users 5 "name:asc"))
              (page_numbers (V1.totalPages (V1.render (V1.init six_users 5 "name:asc")))))
    = V1.filterAndSort (V1.init six_users 5 "name:asc") /\
  concat (map (V2_page (V2.init twelve_items))
              (page_numbers (V2.pages (snd (V2.render (V2.init twelve_items))))))
    = V2.queryAndSort (V2.init twelve_items) (V2.items (V2.init twelve_items)).
Proof.
  assert (H1 : 0 < V1.perPage (V1.init six_users 5 "name:asc")) by reflexivity.
  assert (H2 : 0 < V2.perPage (V2.init twelve_items)) by reflexivity.
  split; [split; assumption|]. split.
  - exact (proj1 (proj1 pages_make_up_the_list _ H1)).
  - exact (proj1 (proj2 pages_make_up_the_list _ H2)).
Defined.

(** ** The selection *)

Lemma slice_In {A : Type} (l : list A) (start end_ : Z) (x : A) :
  In x (JsArray.slice l start end_) -> In x l.
Proof.
  unfold JsArray.slice. intros H.
  rewrite <- (firstn_skipn (Z.to_nat (JsArray.rel_index (Z.of_nat (length l)) start)) l).
  apply in_or_app; right.
  rewrite <- (firstn_skipn (Z.to_nat
     (JsArray.rel_index (Z.of_nat (length l)) end_ -
      JsArray.rel_index (Z.of_nat (length l)) start))
     (drop _ l)).
  apply in_or_app; left. exact H.
Qed.

Lemma V1_idsOnPage_stored (st : V1.State) (i : Z) :
  In i (V1.idsOnPage st) -> In i (map V1.id (V1.users st)).
Proof.
  unfold V1.idsOnPage. rewrite !in_map_iff. intros (u & Hu & Hin). exists u; split; [exact Hu|].
  unfold V1.render in Hin; cbn [V1.paginatedUsers] in Hin. apply slice_In in Hin.
  rewrite V1_filterAndSort_eq in Hin.
  eapply Permutation_in in Hin; [|apply sort_perm].
  now apply filter_In in Hin.
Qed.

Lemma V2_pageItems_stored (st : V2.State) (x : V2.Item) :
  In x (V2.pageItems (snd (V2.render st))) -> In x (V2.items st).
Proof.
  unfold V2.render; cbn [snd V2.pageItems]. intros Hin. apply slice_In in Hin.
  rewrite V2_queryAndSort_eq in Hin.
  eapply Permutation_in in Hin; [|apply sort_perm].
  now apply filter_In in Hin.
Qed.

Lemma V2_idsOnPage_stored (st : V2.State) (i : string) :
  In i (V2.idsOnPage st) -> In i (map V2.id (V2.items st)).
Proof.
  unfold V2.idsOnPage. rewrite !in_map_iff. intros (u & Hu & Hin). exists u; split; [exact Hu|].
  now apply V2_pageItems_stored.
Qed.

Lemma V1_handle_selection_stored (e : V1.Event) (st : V1.State) :
  V1_from_page e st -> V1_selection_stored st -> V1_selection_stored (V1.handle e st).
Proof.
  unfold V1_selection_stored. intros Hp H.
  destruct e; cbn [V1.handle V1_from_page] in *; try exact H.
  - intros i Hi. cbn. right. now apply H.
  - unfold V1.onPrev. now destruct (_ <? _).
  - unfold V1.onNext. now destruct (_ <? _).
  - unfold V1.onDelete. destruct confirmed; [|exact H].
    cbn. intros i Hi. apply elem_of_difference in Hi as [Hi Hne].
    rewrite elem_of_singleton in Hne. specialize (H i Hi).
    apply in_map_iff in H as (u & Hu & Hin). apply in_map_iff. exists u; split; [exact Hu|].
    apply filter_In; split; [exact Hin|]. apply negb_true_iff, Z.eqb_neq. congruence.
  - unfold V1.onCopy. destruct (find _ _); [|exact H].
    intros i Hi. cbn. right. now apply H.
  - unfold V1.onEditSubmit. destruct (V1.editingUserId st); [|exact H].
    destruct (V1.updateFirst _ _ _ _ _) as [us|] eqn:Hu; [|exact H].
    cbn. rewrite (V1_updateFirst_ids _ _ _ _ _ _ Hu). exact H.
  - unfold V1.onSelectAll. cbn [V1.selectedIds V1.set_selectedIds V1.users V1.set_selectedIds].
    intros i Hi. destruct checked.
    + apply elem_of_union in Hi as [Hi|Hi]; [now apply H|].
      apply elem_of_list_to_set, list_elem_of_In in Hi. now apply V1_idsOnPage_stored.
    + apply elem_of_difference in Hi as [Hi _]. now apply H.
  - unfold V1.onRowCheckbox. cbn [V1.selectedIds V1.set_selectedIds V1.users].
    intros i Hi. destruct checked.
    + apply elem_of_union in Hi as [Hi|Hi]; [now apply H|].
      apply elem_of_singleton in Hi as ->. now apply V1_idsOnPage_stored.
    + apply elem_of_difference in Hi as [Hi _]. now apply H.
  - unfold V1.onBulkDelete. destruct (bool_decide _); [exact H|].
    destruct confirmed; [|exact H]. cbn. intros i Hi. set_solver.
  - unfold V1.onClearAll. destruct confirmed; [|exact H]. cbn. intros i Hi. set_solver.
Qed.

Lemma V2_rendered_selection_stored (st : V2.State) :
  V2_selection_stored st -> V2_selection_stored (V2.rendered st).
Proof.
  unfold V2_selection_stored. now rewrite V2_rendered_items, V2_rendered_selected.
Qed.

Lemma V2_handle_selection_stored (e : V2.Event) (st : V2.State) :
  V2_from_page e st -> V2_selection_stored st -> V2_selection_stored (V2.handle e st).
Proof.
  intros Hp H.
  destruct e; cbn [V2.handle V2_from_page] in *; try exact H.
  - unfold V2.onSubmit. destruct (_ || _); [exact H|]. cbn [fst]. unfold V2.addItem.
    apply V2_rendered_selection_stored. intros i Hi. cbn in *.
    rewrite map_app. apply in_or_app; left. now apply H.
  - now apply V2_rendered_selection_stored.
  - now apply V2_rendered_selection_stored.
  - now apply V2_rendered_selection_stored.
  - unfold V2.onPrev. destruct (_ <? _); [|exact H]. now apply V2_rendered_selection_stored.
  - unfold V2.onNext. destruct (_ <? _); [|exact H]. now apply V2_rendered_selection_stored.
  - unfold V2.onDelete. destruct (negb _); [exact H|]. destruct confirmed; [|exact H].
    unfold V2.deleteItem. apply V2_rendered_selection_stored. intros i Hi. cbn in *.
    apply elem_of_difference in Hi as [Hi Hne].
    rewrite elem_of_singleton in Hne. specialize (H i Hi).
    apply in_map_iff in H as (u & Hu & Hin). apply in_map_iff. exists u; split; [exact Hu|].
    apply filter_In; split; [exact Hin|]. apply negb_true_iff, String.eqb_neq. congruence.
  - unfold V2.onEdit, V2.openEdit. destruct (negb _); [exact H|]. now destruct (find _ _).
  - unfold V2.onEditSubmit. destruct (V2.editingId st) as [i|]; [|exact H].
    destruct (negb (JsString.truthy i)); [exact H|]. destruct (_ || _); [exact H|].
    cbn [fst]. unfold V2.updateItem.
    destruct (V2.assignFirst _ _ _ _ _) as [l|] eqn:Hl; [|exact H].
    change (V2_selection_stored (V2.set_editingId None (V2.rendered (V2.save (V2.set_items l st))))).
    assert (Hr : V2_selection_stored (V2.rendered (V2.save (V2.set_items l st)))).
    { apply V2_rendered_selection_stored. intros j Hj. cbn in *.
      rewrite (V2_assignFirst_ids _ _ _ _ _ _ Hl). now apply H. }
    exact Hr.
  - unfold V2.onSelectAll. apply V2_rendered_selection_stored. intros i Hi.
    cbn [V2.selected V2.set_selected V2.items] in *. destruct checked.
    + apply elem_of_union in Hi as [Hi|Hi]; [now apply H|].
      apply elem_of_list_to_set, list_elem_of_In, filter_In in Hi as [Hi _].
      now apply V2_idsOnPage_stored.
    + apply elem_of_difference in Hi as [Hi _]. now apply H.
  - unfold V2.onRowCheckbox. apply V2_rendered_selection_stored. intros i Hi.
    cbn [V2.selected V2.set_selected V2.items] in *. destruct checked.
    + apply elem_of_union in Hi as [Hi|Hi]; [now apply H|].
      apply elem_of_singleton in Hi as ->. now apply V2_idsOnPage_stored.
    + apply elem_of_difference in Hi as [Hi _]. now apply H.
  - unfold V2.bulkDelete. destruct (negb _); [exact H|].
    apply V2_rendered_selection_stored. intros i Hi. cbn in Hi. set_solver.
  - unfold V2.onClearAll. destruct (negb _); [exact H|].
    apply V2_rendered_selection_stored. intros i Hi. cbn in Hi. set_solver.
Qed.

(** X15. The selection is written by five handlers only: the two kinds of
    checkbox, the delete button of a row, bulk delete and clear all.
    Creating, editing or copying a record, searching, sorting and paging
    leave the selection as it is, so ticks survive a change of page or of
    filter.  This holds in both variants. *)
Theorem other_events_keep_the_selection :
  (forall (e : V1.Event) (st : V1.State),
      V1_selection_event e = false -> V1.selectedIds (V1.handle e st) = V1.selectedIds st) /\
  (forall (e : V2.Event) (st : V2.State),
      V2_selection_event e = false -> V2.selected (V2.handle e st) = V2.selected st).
Proof.
  split; intros e st He; destruct e; try discriminate He; cbn [V1.handle V2.handle].
  - reflexivity.
  - reflexivity.
  - reflexivity.
  - reflexivity.
  - unfold V1.onPrev. now destruct (_ <? _).
  - unfold V1.onNext. now destruct (_ <? _).
  - reflexivity.
  - unfold V1.onCopy. now destruct (find _ _).
  - unfold V1.onEditSubmit. destruct (V1.editingUserId st); [|reflexivity].
    now destruct (V1.updateFirst _ _ _ _ _).
  - reflexivity.
  - unfold V2.onSubmit. destruct (_ || _); [reflexivity|]. cbn [fst]. unfold V2.addItem.
    now rewrite V2_rendered_selected.
  - unfold V2.onSearchInput. now rewrite V2_rendered_selected.
  - unfold V2.onPerPageChange. now rewrite V2_rendered_selected.
  - unfold V2.onSortByChange. now rewrite V2_rendered_selected.
  - unfold V2.onPrev. destruct (_ <? _); [|reflexivity]. now rewrite V2_rendered_selected.
  - unfold V2.onNext. destruct (_ <? _); [|reflexivity]. now rewrite V2_rendered_selected.
  - unfold V2.onEdit, V2.openEdit. destruct (negb _); [reflexivity|]. now destruct (find _ _).
  - reflexivity.
  - unfold V2.onEditSubmit. destruct (V2.editingId st) as [i|]; [|reflexivity].
    destruct (negb (JsString.truthy i)); [reflexivity|]. destruct (_ || _); [reflexivity|].
    cbn [fst]. unfold V2.updateItem.
    destruct (V2.assignFirst _ _ _ _ _) as [l|]; [|reflexivity].
    change (V2.selected (V2.rendered (V2.save (V2.set_items l st))) = V2.selected st).
    now rewrite V2_rendered_selected.
  - reflexivity.
Qed.

Lemma other_events_keep_the_selection_witness :
  V1_selection_event (V1.SearchInput "ra") = false /\
  V1.selectedIds (V1.handle (V1.SearchInput "ra") (V1.init six_users 5 "name:asc")) =
  V1.selectedIds (V1.init six_users 5 "name:asc").
Proof.
  assert (H : V1_selection_event (V1.SearchInput "ra") = false) by reflexivity.
  split; [exact H|].
  exact (proj1 other_events_keep_the_selection (V1.SearchInput "ra")
               (V1.init six_users 5 "name:asc") H).
Defined.

(** X16. Every selected id is the id of a stored record, after any run of
    events from the initial state in which each row checkbox that changes
    belongs to a row of the page on display.  So the number bulk delete
    announces is never larger than the number of stored ids, and no id of a
    deleted record stays selected.  This holds in both variants. *)
Theorem selection_holds_stored_ids_only :
  (forall (es : list V1.Event) (loaded : list V1.User) (perPageValue : Z) (sortByValue : string),
      V1_from_pages es (V1.init loaded perPageValue sortByValue) ->
      V1_selection_stored (V1.run es (V1.init loaded perPageValue sortByValue))) /\
  (forall (es : list V2.Event) (loaded : list V2.Item),
      V2_from_pages es (V2.init loaded) ->
      V2_selection_stored (V2.run es (V2.init loaded))).
Proof.
  split.
  - intros es loaded pp sb.
    assert (H0 : V1_selection_stored (V1.init loaded pp sb)) by (intros i Hi; cbn in Hi; set_solver).
    revert H0. generalize (V1.init loaded pp sb).
    induction es as [|e es IH]; intros st Hst Hes; [exact Hst|].
    destruct Hes as [He Hes]. apply (IH (V1.handle e st)); [|exact Hes].
    now apply V1_handle_selection_stored.
  - intros es loaded.
    assert (H0 : V2_selection_stored (V2.init loaded)) by (intros i Hi; cbn in Hi; set_solver).
    revert H0. generalize (V2.init loaded).
    induction es as [|e es IH]; intros st Hst Hes; [exact Hst|].
    destruct Hes as [He Hes]. apply (IH (V2.handle e st)); [|exact Hes].
    now apply V2_handle_selection_stored.
Qed.

Lemma selection_holds_stored_ids_only_witness :
  let es := [V1.RowCheckboxChange 1700000000001 true; V1.NextClick] in
  V1_from_pages es (V1.init six_users 5 "name:asc") /\
  V1_selection_stored (V1.run es (V1.init six_users 5 "name:asc")).
Proof.
  assert (H : V1_from_pages [V1.RowCheckboxChange 1700000000001 true; V1.NextClick]
                            (V1.init six_users 5 "name:asc")).
  { split; [|split; exact I]. vm_compute. auto 10. }
  split; [exact H|].
  exact (proj1 selection_holds_stored_ids_only _ six_users 5 "name:asc"%string H).
Defined.

(** ** Ticking the select-all box *)

Lemma forallb_none {A : Type} (p : A -> bool) (l : list A) :
  l <> [] -> (forall x, In x l -> p x = false) -> forallb p l = false.
Proof.
  destruct l as [|a l]; [congruence|]. intros _ H. cbn [forallb].
  rewrite (H a (or_introl eq_refl)). reflexivity.
Qed.

Lemma select_all_indicator {A K : Type} `{Countable K} (key : A -> K) (page : list A)
    (sel : gset K) (checked : bool) :
  let ids : gset K := list_to_set (map key page) in
  forallb (fun x => bool_decide (key x ∈ (if checked then sel ∪ ids else sel ∖ ids))) page
  && (0 <? Z.of_nat (length page))
  = checked && (0 <? Z.of_nat (length page)).
Proof.
  intros ids. destruct page as [|a page]; [now destruct checked|].
  change (0 <? Z.of_nat (length (a :: page))) with (0 <? Z.of_nat (S (length page))).
  assert (Hin : forall x, In x (a :: page) -> key x ∈ ids).
  { intros x Hx. apply elem_of_list_to_set, list_elem_of_In, in_map, Hx. }
  destruct checked.
  - f_equal. apply forallb_forall. intros x Hx. apply bool_decide_eq_true.
    apply elem_of_union_r, Hin, Hx.
  - rewrite forallb_none; [reflexivity|discriminate|].
    intros x Hx. apply bool_decide_eq_false. intros Hd.
    apply elem_of_difference in Hd as [_ Hd]. apply Hd, Hin, Hx.
Qed.

Lemma filter_all_in {A : Type} (p : A -> bool) (l : list A) :
  Forall (fun x => p x = true) l -> List.filter p l = l.
Proof.
  induction 1 as [|a l Ha _ IH]; [reflexivity|]. cbn [List.filter]. now rewrite Ha, IH.
Qed.

Lemma V2_select_all_set_selected (s : gset string) (st : V2.State) :
  V2.selectAllChecked (snd (V2.render (V2.set_selected s st))) =
  (0 <? Z.of_nat (length (V2.pageItems (snd (V2.render st)))))
  && forallb (fun x => bool_decide (V2.id x ∈ s)) (V2.pageItems (snd (V2.render st))).
Proof.
  unfold V2.render. cbn [snd V2.selectAllChecked V2.pageItems].
  change (V2.queryAndSort (V2.set_selected s st)) with (V2.queryAndSort st).
  cbn [V2.items V2.perPage V2.page V2.set_selected].
  destruct (_ <? V2.page st); reflexivity.
Qed.

(** X17. The select-all box acts on the page on display.  After it is
    ticked, a [render] shows it ticked exactly when the page has rows, and
    after it is cleared a [render] shows it cleared; an id that is not on
    the page is selected afterwards exactly when it was before.  In
    variant 2 the handler skips rows without an id, so this needs every row
    of the page to carry one. *)
Theorem select_all_acts_on_the_page :
  (forall (st : V1.State) (checked : bool),
      V1.selectAllChecked (V1.render (V1.onSelectAll checked st))
        = checked && (0 <? Z.of_nat (length (V1.paginatedUsers (V1.render st)))) /\
      forall i, ~ In i (V1.idsOnPage st) ->
                (i ∈ V1.selectedIds (V1.onSelectAll checked st) <-> i ∈ V1.selectedIds st)) /\
  (forall (st : V2.State) (checked : bool),
      Forall (fun i => JsString.truthy i = true) (V2.idsOnPage st) ->
      V2.selectAllChecked (snd (V2.render (V2.onSelectAll checked st)))
        = checked && (0 <? Z.of_nat (length (V2.pageItems (snd (V2.render st))))) /\
      forall i, ~ In i (V2.idsOnPage st) ->
                (i ∈ V2.selected (V2.onSelectAll checked st) <-> i ∈ V2.selected st)).
Proof.
  split.
  - intros st checked. split.
    + unfold V1.onSelectAll, V1.idsOnPage.
      change (V1.selectAllChecked (V1.render (V1.set_selectedIds ?s st))) with
        (forallb (fun user => bool_decide (V1.id user ∈ s)) (V1.paginatedUsers (V1.render st))
         && (0 <? Z.of_nat (length (V1.paginatedUsers (V1.render st))))).
      apply (select_all_indicator V1.id).
    + intros i Hi. unfold V1.onSelectAll. cbn [V1.selectedIds V1.set_selectedIds].
      assert (Hn : i ∉ (list_to_set (V1.idsOnPage st) : gset Z)).
      { rewrite elem_of_list_to_set, list_elem_of_In. exact Hi. }
      destruct checked; [rewrite elem_of_union | rewrite elem_of_difference]; tauto.
  - intros st checked Hids. unfold V2.onSelectAll. rewrite (filter_all_in _ _ Hids). split.
    + rewrite V2_render_rendered. cbn [snd]. unfold V2.idsOnPage.
      rewrite V2_select_all_set_selected, andb_comm.
      rewrite (select_all_indicator V2.id). reflexivity.
    + intros i Hi. rewrite V2_rendered_selected. cbn [V2.selected V2.set_selected].
      assert (Hn : i ∉ (list_to_set (V2.idsOnPage st) : gset string)).
      { rewrite elem_of_list_to_set, list_elem_of_In. exact Hi. }
      destruct checked; [rewrite elem_of_union | rewrite elem_of_difference]; tauto.
Qed.

Lemma select_all_acts_on_the_page_witness :
  Forall (fun i => JsString.truthy i = true) (V2.idsOnPage (V2.init twelve_items)) /\
  V2.selectAllChecked (snd (V2.render (V2.onSelectAll true (V2.init twelve_items))))
    = true && (0 <? Z.of_nat (length (V2.pageItems (snd (V2.render (V2.init twelve_items)))))).
Proof.
  assert (H : Forall (fun i => JsString.truthy i = true) (V2.idsOnPage (V2.init twelve_items))).
  { vm_compute. repeat constructor. }
  split; [exact H|].
  exact (proj1 (proj2 select_all_acts_on_the_page (V2.init twelve_items) true H)).
Defined.

(** ** The stored payload follows the records *)

Lemma V1_handle_stored (found : list V1.User) (e : V1.Event) (st : V1.State) :
  V1_stored found st = V1.users st ->
  V1_stored found (V1.handle e st) = V1.users (V1.handle e st).
Proof.
  intros H. destruct e; cbn [V1.handle]; try exact H; try reflexivity.
  - unfold V1.onPrev. now destruct (_ <? _).
  - unfold V1.onNext. now destruct (_ <? _).
  - unfold V1.onDelete. now destruct confirmed.
  - unfold V1.onCopy. now destruct (find _ _).
  - unfold V1.onEditSubmit. destruct (V1.editingUserId st); [|exact H].
    now destruct (V1.updateFirst _ _ _ _ _).
  - unfold V1.onBulkDelete. destruct (bool_decide _); [exact H|]. now destruct confirmed.
  - unfold V1.onClearAll. now destruct confirmed.
Qed.

Lemma V2_rendered_stored (found : list V2.Item) (st : V2.State) :
  V2_stored found st = V2.items st ->
  V2_stored found (V2.rendered st) = V2.items (V2.rendered st).
Proof. unfold V2_stored. now rewrite V2_rendered_items, V2_rendered_saved. Qed.

Lemma V2_handle_stored (found : list V2.Item) (e : V2.Event) (st : V2.State) :
  V2_stored found st = V2.items st ->
  V2_stored found (V2.handle e st) = V2.items (V2.handle e st).
Proof.
  intros H. destruct e; cbn [V2.handle]; try exact H;
    try (apply V2_rendered_stored; exact H).
  - unfold V2.onSubmit. destruct (_ || _); [exact H|]. cbn [fst]. unfold V2.addItem.
    now apply V2_rendered_stored.
  - unfold V2.onPrev. destruct (_ <? _); [|exact H]. now apply V2_rendered_stored.
  - unfold V2.onNext. destruct (_ <? _); [|exact H]. now apply V2_rendered_stored.
  - unfold V2.onDelete. destruct (negb _); [exact H|]. destruct confirmed; [|exact H].
    unfold V2.deleteItem. now apply V2_rendered_stored.
  - unfold V2.onEdit, V2.openEdit. destruct (negb _); [exact H|]. now destruct (find _ _).
  - unfold V2.onEditSubmit. destruct (V2.editingId st) as [i|]; [|exact H].
    destruct (negb (JsString.truthy i)); [exact H|]. destruct (_ || _); [exact H|].
    cbn [fst]. unfold V2.updateItem.
    destruct (V2.assignFirst _ _ _ _ _) as [l|]; [|exact H].
    change (V2_stored found (V2.rendered (V2.save (V2.set_items l st))) =
            V2.items (V2.rendered (V2.save (V2.set_items l st)))).
    now apply V2_rendered_stored.
  - unfold V2.bulkDelete. destruct (negb _); [exact H|]. now apply V2_rendered_stored.
  - unfold V2.onClearAll. destruct (negb _); [exact H|]. now apply V2_rendered_stored.
Qed.

(** X18. A reload brings back the records in memory.  After any run of
    events the payload last written under the storage key is the list of
    records the state holds, and as long as nothing was written the list
    is still the one found at start-up: every handler that changes the
    list saves after its last change.  In variant 2 the start-up includes
    [seedIfEmpty], which saves the demo records it makes. *)
Theorem storage_follows_the_records :
  (forall (es : list V1.Event) (loaded : list V1.User) (perPageValue : Z) (sortByValue : string),
      let st := V1.run es (V1.init loaded perPageValue sortByValue) in
      V1_stored loaded st = V1.users st) /\
  (forall (es : list V2.Event) (e1 e2 e3 : Z * string * Z) (loaded : list V2.Item),
      let st := V2.run es (V2_start e1 e2 e3 loaded) in
      V2_stored loaded st = V2.items st).
Proof.
  split.
  - intros es loaded pp sb.
    assert (H0 : V1_stored loaded (V1.init loaded pp sb) = V1.users (V1.init loaded pp sb))
      by reflexivity.
    revert H0. generalize (V1.init loaded pp sb).
    induction es as [|e es IH]; intros st Hst; [exact Hst|].
    apply (IH (V1.handle e st)). now apply V1_handle_stored.
  - intros es e1 e2 e3 loaded.
    assert (H0 : V2_stored loaded (V2_start e1 e2 e3 loaded) =
                 V2.items (V2_start e1 e2 e3 loaded)).
    { apply V2_rendered_stored. unfold V2.seedIfEmpty. now destruct (_ <? _)%nat. }
    revert H0. generalize (V2_start e1 e2 e3 loaded).
    induction es as [|e es IH]; intros st Hst; [exact Hst|].
    apply (IH (V2.handle e st)). now apply V2_handle_stored.
Qed.

(** ** Seeding *)

Lemma V2_seedIfEmpty_nonempty (e1 e2 e3 : Z * string * Z) (st : V2.State) :
  V2.items st <> [] -> V2.seedIfEmpty e1 e2 e3 st = st.
Proof.
  intros H. unfold V2.seedIfEmpty. destruct (V2.items st); [congruence|reflexivity].
Qed.

(** X19. [seedIfEmpty] acts once and only on an empty list: a state
    that holds a record is left as it is, nothing is written, and a second
    call after a first one changes nothing.  Started on an empty list with
    clock readings that do not go back, the first page shows the three demo
    records newest first: Tanu, Karim, Rahim. *)
Theorem seedIfEmpty_seeds_once_newest_first (e1 e2 e3 : Z * string * Z) :
  (forall st : V2.State, V2.items st <> [] -> V2.seedIfEmpty e1 e2 e3 st = st) /\
  (forall (st : V2.State) (e1' e2' e3' : Z * string * Z),
      V2.seedIfEmpty e1' e2' e3' (V2.seedIfEmpty e1 e2 e3 st) = V2.seedIfEmpty e1 e2 e3 st) /\
  (snd e1 <= snd e2 <= snd e3 ->
   map V2.name (V2.pageItems (snd (V2.render (V2_start e1 e2 e3 []))))
     = ["Tanu"; "Karim"; "Rahim"]%string).
Proof.
  repeat apply conj.
  - apply V2_seedIfEmpty_nonempty.
  - intros st e1' e2' e3'. apply V2_seedIfEmpty_nonempty.
    unfold V2.seedIfEmpty. destruct (V2.items st) eqn:E; cbn; [discriminate|].
    rewrite E. discriminate.
  - intros Hclock. unfold V2_start. rewrite V2_render_rendered. cbn [snd].
    destruct e1 as [[n1 r1] t1], e2 as [[n2 r2] t2], e3 as [[n3 r3] t3].
    cbn [fst snd] in *.
    unfold V2.render, V2.seedIfEmpty.
    cbn [snd V2.pageItems V2.init V2.items length Nat.ltb Nat.leb V2.save V2.set_items
         V2.perPage V2.page V2.query V2.sort V2.selected V2.editingId V2.saved fst].
    unfold V2.queryAndSort.
    cbn [V2.init V2.items V2.save V2.set_items V2.perPage V2.page V2.query V2.sort].
    change (split_sort "createdAt:desc") with ("createdAt"%string, Some "desc"%string).
    change (JsString.toLowerCase (JsString.trim EmptyString)) with EmptyString.
    cbn [List.filter V2.keep JsString.truthy negb].
    cbn [JsArray.sort JsArray.insert].
    unfold V2.compareItems.
    change (String.eqb "createdAt" "createdAt") with true.
    change (is_asc (Some "desc"%string)) with false.
    cbn [V2.createdAt JsArray.insert].
    destruct (Z.ltb_spec 0 (t3 - 100000 - (t2 - 3600000))); [|lia].
    cbn [JsArray.insert V2.createdAt].
    destruct (Z.ltb_spec 0 (t3 - 100000 - (t1 - 86400000))); [|lia].
    cbn [JsArray.insert V2.createdAt].
    destruct (Z.ltb_spec 0 (t2 - 3600000 - (t1 - 86400000))); [|lia].
    cbn [length]. reflexivity.
Qed.

Lemma seedIfEmpty_seeds_once_newest_first_witness :
  let e1 := (1700000000000, "0.4fzyo82mvyr"%string, 1700000000000) in
  let e2 := (1700000000000, "0.9x3k2m1q"%string, 1700000000001) in
  let e3 := (1700000000001, "0.1b7d9f"%string, 1700000000001) in
  (V2.items (V2.init twelve_items) <> [] /\ snd e1 <= snd e2 <= snd e3) /\
  V2.seedIfEmpty e1 e2 e3 (V2.init twelve_items) = V2.init twelve_items /\
  map V2.name (V2.pageItems (snd (V2.render (V2_start e1 e2 e3 []))))
    = ["Tanu"; "Karim"; "Rahim"]%string.
Proof.
  intros e1 e2 e3.
  assert (H1 : V2.items (V2.init twelve_items) <> []) by discriminate.
  assert (H2 : snd e1 <= snd e2 <= snd e3) by (cbn; lia).
  split; [split; assumption|]. split.
  - exact (proj1 (seedIfEmpty_seeds_once_newest_first e1 e2 e3) _ H1).
  - exact (proj2 (proj2 (seedIfEmpty_seeds_once_newest_first e1 e2 e3)) H2).
Defined.

(** ** Item ids of variant 2 *)

Lemma digit36_value_digit36 (d : Z) : 0 <= d < 36 -> digit36_value (V2.digit36 d) = d.
Proof.
  intros Hd. unfold digit36_value, V2.digit36.
  destruct (Z.ltb_spec d 10).
  - rewrite nat_ascii_embedding by lia.
    destruct (Z.ltb_spec (Z.of_nat (48 + Z.to_nat d)) 58); lia.
  - rewrite nat_ascii_embedding by lia.
    destruct (Z.ltb_spec (Z.of_nat (87 + Z.to_nat d)) 58); lia.
Qed.

Lemma digits36_value (fuel : nat) :
  forall (n : Z) (acc : string),
    0 <= n < 2 ^ Z.of_nat fuel ->
    value36 0 (V2.digits36 fuel n acc) = value36 n acc.
Proof.
  induction fuel as [|fuel IH]; intros n acc Hn.
  - cbn [V2.digits36]. change (2 ^ Z.of_nat 0) with 1 in Hn. f_equal. lia.
  - cbn [V2.digits36].
    assert (Hp : 2 ^ Z.of_nat (S fuel) = 2 * 2 ^ Z.of_nat fuel).
    { rewrite Nat2Z.inj_succ, Z.pow_succ_r by lia. reflexivity. }
    assert (Hm : 0 <= n mod 36 < 36) by (apply Z.mod_pos_bound; lia).
    assert (Hd : n = 36 * (n / 36) + n mod 36) by (apply Z.div_mod; lia).
    destruct (Z.eqb_spec (n / 36) 0) as [Hz|Hz].
    + cbn [value36]. rewrite digit36_value_digit36 by exact Hm. f_equal. lia.
    + rewrite IH by (split; [zdiv | zdiv]).
      cbn [value36]. rewrite digit36_value_digit36 by exact Hm. f_equal. lia.
Qed.

Lemma toString36_value (n : Z) : 0 <= n -> value36 0 (V2.toString36 n) = n.
Proof.
  intros Hn. unfold V2.toString36. destruct (Z.ltb_spec n 0); [lia|].
  rewrite digits36_value; [reflexivity|].
  rewrite Nat2Z.inj_succ, Z2Nat.id by apply Z.log2_nonneg.
  destruct (Z.eq_dec n 0) as [->|Hne]; [cbn; lia|].
  pose proof (Z.log2_spec n ltac:(lia)). lia.
Qed.

Lemma digits36_nonempty (fuel : nat) :
  forall (n : Z) (c : ascii) (acc : string),
    JsString.truthy (V2.digits36 fuel n (String c acc)) = true.
Proof.
  induction fuel as [|fuel IH]; intros n c acc; [reflexivity|].
  cbn [V2.digits36]. destruct (_ =? 0); [reflexivity|]. apply IH.
Qed.

Lemma toString36_nonempty (n : Z) : JsString.truthy (V2.toString36 n) = true.
Proof.
  unfold V2.toString36. destruct (n <? 0).
  - now rewrite append_cons.
  - cbn [V2.digits36]. destruct (_ =? 0); [reflexivity|]. apply digits36_nonempty.
Qed.

Lemma string_length_append (s t : string) :
  String.length (s +:+ t) = (String.length s + String.length t)%nat.
Proof.
  induction s as [|c s IH]; [now rewrite append_nil_l|].
  rewrite append_cons. cbn [String.length]. now rewrite IH.
Qed.

Lemma append_cancel_same_length (s1 s2 t1 t2 : string) :
  String.length t1 = String.length t2 ->
  s1 +:+ t1 = s2 +:+ t2 -> s1 = s2 /\ t1 = t2.
Proof.
  intros Hlen. revert s2. induction s1 as [|c s1 IH]; intros [|d s2] H.
  - rewrite !append_nil_l in H. now split.
  - apply (f_equal String.length) in H.
    rewrite append_nil_l, string_length_append in H. cbn [String.length] in H. lia.
  - apply (f_equal String.length) in H.
    rewrite append_nil_l, string_length_append in H. cbn [String.length] in H. lia.
  - rewrite !append_cons in H. injection H as -> H.
    destruct (IH s2 H) as [-> ->]. now split.
Qed.

(** X20. The ids [uid()] makes.  An id is never the empty text, so the
    handlers that skip a row without an id never skip a record made by the
    program.  For clock readings that are not negative and random suffixes
    of the same length, two ids are the same text only when both the clock
    reading and the suffix are the same: the base-36 numeral of the clock
    reading can be read back from the id. *)
Theorem uid_is_not_empty_and_tells_clock_readings_apart :
  (forall (now : Z) (rnd : string), JsString.truthy (V2.uid now rnd) = true) /\
  (forall (now now' : Z) (rnd rnd' : string),
      0 <= now -> 0 <= now' ->
      String.length (String.substring 2 6 rnd) = String.length (String.substring 2 6 rnd') ->
      (V2.uid now rnd = V2.uid now' rnd' <->
       now = now' /\ String.substring 2 6 rnd = String.substring 2 6 rnd')).
Proof.
  split.
  - intros now rnd. unfold V2.uid. pose proof (toString36_nonempty now) as H.
    destruct (V2.toString36 now); [discriminate|]. now rewrite append_cons.
  - intros now now' rnd rnd' Hn Hn' Hlen. unfold V2.uid. split.
    + intros H. apply (append_cancel_same_length _ _ _ _ Hlen) in H as [Hs Ht].
      split; [|exact Ht]. apply (f_equal (value36 0)) in Hs.
      now rewrite !toString36_value in Hs.
    + intros [-> ->]. reflexivity.
Qed.

Lemma uid_is_not_empty_and_tells_clock_readings_apart_witness :
  let rnd := "0.4fzyo82mvyr"%string in
  let rnd' := "0.9x3k2m1qabc"%string in
  (0 <= 1700000000000 /\ 0 <= 1700000000001 /\
   String.length (String.substring 2 6 rnd) = String.length (String.substring 2 6 rnd')) /\
  (V2.uid 1700000000000 rnd = V2.uid 1700000000001 rnd' <->
   1700000000000 = 1700000000001 /\ String.substring 2 6 rnd = String.substring 2 6 rnd').
Proof.
  intros rnd rnd'.
  assert (H1 : 0 <= 1700000000000) by lia.
  assert (H2 : 0 <= 1700000000001) by lia.
  assert (H3 : String.length (String.substring 2 6 rnd) =
               String.length (String.substring 2 6 rnd')) by reflexivity.
  split; [repeat split; assumption|].
  exact (proj2 uid_is_not_empty_and_tells_clock_readings_apart _ _ rnd rnd' H1 H2 H3).
Defined.

(** ** The pager buttons *)

(** X22. In variant 1 a pager button that [render] has disabled does
    nothing when its handler runs all the same: Prev at page 1 and, for a
    positive page size, Next at or past the last page leave the state as
    it is.  An enabled Prev moves the cursor back by one page. *)
Theorem V1_disabled_pager_buttons_do_nothing (st : V1.State) :
  (V1.prevDisabled (V1.render st) = true -> V1.onPrev st = st) /\
  (0 < V1.perPage st -> V1.nextDisabled (V1.render st) = true -> V1.onNext st = st) /\
  (1 <= V1.currentPage st -> V1.prevDisabled (V1.render st) = false ->
   V1.currentPage (V1.onPrev st) = V1.currentPage st - 1).
Proof.
  repeat apply conj.
  - intros H. change (V1.prevDisabled (V1.render st)) with (V1.currentPage st =? 1) in H.
    apply Z.eqb_eq in H. unfold V1.onPrev. now rewrite H.
  - intros Hpp H. pose proof (V1_next_bound_le st Hpp) as Hle.
    change (V1.nextDisabled (V1.render st)) with
      (V1.totalPages (V1.render st) <=? V1.currentPage st) in H.
    apply Z.leb_le in H. unfold V1.onNext.
    destruct (Z.ltb_spec (V1.currentPage st) (V1.nextTotalPages st)); [lia|reflexivity].
  - intros Hlo H. change (V1.prevDisabled (V1.render st)) with (V1.currentPage st =? 1) in H.
    apply Z.eqb_neq in H. unfold V1.onPrev.
    destruct (Z.ltb_spec 1 (V1.currentPage st)); [reflexivity|lia].
Qed.

Lemma V1_disabled_pager_buttons_do_nothing_witness :
  let st := V1.set_currentPage 2 (V1.init six_users 5 "name:asc") in
  (0 < V1.perPage st /\ V1.nextDisabled (V1.render st) = true /\
   1 <= V1.currentPage st /\ V1.prevDisabled (V1.render st) = false) /\
  V1.onNext st = st /\ V1.currentPage (V1.onPrev st) = V1.currentPage st - 1.
Proof.
  intros st.
  assert (H1 : 0 < V1.perPage st) by reflexivity.
  assert (H2 : V1.nextDisabled (V1.render st) = true) by reflexivity.
  assert (H3 : 1 <= V1.currentPage st) by (cbn; lia).
  assert (H4 : V1.prevDisabled (V1.render st) = false) by reflexivity.
  split; [repeat split; assumption|]. split.
  - exact (proj1 (proj2 (V1_disabled_pager_buttons_do_nothing st)) H1 H2).
  - exact (proj2 (proj2 (V1_disabled_pager_buttons_do_nothing st)) H3 H4).
Defined.




(** ** Filtering and sorting again *)

Section SortAgain.
Context {A : Type} (cmp : A -> A -> Z) (p : A -> bool).
Hypothesis Hc : consistent cmp.

Lemma sort_filter_again (l : list A) :
  JsArray.sort cmp (List.filter p (JsArray.sort cmp (List.filter p l)))
  = JsArray.sort cmp (List.filter p l).
Proof.
  rewrite (filter_all_in p (JsArray.sort cmp (List.filter p l))).
  - symmetry. apply (sort_is_the_stable_sort cmp Hc); [now apply sort_sorted|reflexivity].
  - apply Forall_forall. intros x Hx. apply list_elem_of_In, sort_In, filter_In in Hx.
    apply Hx.
Qed.

End SortAgain.

(** X24. The filter and sort step is idempotent in both variants: run
    on its own result, under the same query and sort choice, it gives that
    result back.  So a list that is already on display is not reordered
    by another [render]. *)
Theorem filter_and_sort_is_idempotent :
  (forall st : V1.State,
      V1.filterAndSort (V1.set_users (V1.filterAndSort st) st) = V1.filterAndSort st) /\
  (forall (st : V2.State) (l : list V2.Item),
      V2.queryAndSort st (V2.queryAndSort st l) = V2.queryAndSort st l).
Proof.
  split.
  - intros st. rewrite (V1_filterAndSort_eq (V1.set_users _ st)).
    cbn [V1.sortBy V1.searchQuery V1.users V1.set_users].
    rewrite V1_filterAndSort_eq. apply sort_filter_again, V1_compare_consistent.
  - intros st l. rewrite !V2_queryAndSort_eq.
    apply sort_filter_again, V2_compare_consistent.
Qed.
